(** * sdploy-dns: a forwarding DNS resolver with deny list, overrides and cache

    A shallow embedding of the resolver's request handler, response cache
    and upstream forwarder, with the properties of its specification.

    Conventions of the embedding.
    - Go strings are byte strings: [string].  The functions of Go's
      [strings] package are given on ASCII bytes, which is what DNS names in
      presentation format consist of.
    - Go's [int] is the 64-bit one and is embedded as [Z]; [uint32] and
      [uint64] values are [Z] too, with wrap-around written out where the
      source can reach it.
    - [time.Time] is an instant in nanoseconds, [time.Now()] is an argument
      [now] of the function that reads the clock.
    - Go maps are [gmap]s; the order in which [range] enumerates a map is
      an argument of the functions that iterate.
    - The process-wide interning map of [normalizeDomain] is threaded
      through every function that normalises a name. *)

From Stdlib Require Import ZArith NArith Lia Ascii String List Bool.
From stdpp Require Import base option list gmap strings fin_maps pretty.

Local Open Scope string_scope.
Local Open Scope Z_scope.

(** ** Go's [strings] package, as far as the source uses it *)

Module GoStrings.

Definition isUpper (c : ascii) : bool :=
  ((65 <=? N_of_ascii c) && (N_of_ascii c <=? 90))%N.

Definition lowerByte (c : ascii) : ascii :=
  if isUpper c then ascii_of_N (N_of_ascii c + 32) else c.

(** [strings.ToLower] *)
Fixpoint ToLower (s : string) : string :=
  match s with
  | EmptyString => EmptyString
  | String c s' => String (lowerByte c) (ToLower s')
  end.

(** The ASCII white space of [strings.TrimSpace]: tab, line feed,
    vertical tab, form feed, carriage return and space. *)
Definition isSpace (c : ascii) : bool :=
  match N_of_ascii c with
  | 9 | 10 | 11 | 12 | 13 | 32 => true
  | _ => false
  end%N.

Fixpoint TrimLeft (s : string) : string :=
  match s with
  | EmptyString => EmptyString
  | String c s' => if isSpace c then TrimLeft s' else s
  end.

Fixpoint TrimRight (s : string) : string :=
  match s with
  | EmptyString => EmptyString
  | String c s' =>
      match TrimRight s' with
      | EmptyString => if isSpace c then EmptyString else String c EmptyString
      | t => String c t
      end
  end.

(** [strings.TrimSpace] *)
Definition TrimSpace (s : string) : string := TrimRight (TrimLeft s).

(** [strings.TrimSuffix]: [s] without the trailing [suffix], or [s]
    itself when it does not end in [suffix]. *)
Fixpoint TrimSuffix (s suffix : string) : string :=
  if String.eqb s suffix then EmptyString
  else match s with
       | EmptyString => EmptyString
       | String c s' => String c (TrimSuffix s' suffix)
       end.

(** [strings.HasPrefix] *)
Definition HasPrefix (s prefix : string) : bool := String.prefix prefix s.


(** Shapes of a string that the specification talks about. *)
Fixpoint lowercase (s : string) : bool :=
  match s with
  | EmptyString => true
  | String c s' => negb (isUpper c) && lowercase s'
  end.


Fixpoint last_byte (s : string) : option ascii :=
  match s with
  | EmptyString => None
  | String c EmptyString => Some c
  | String _ s' => last_byte s'
  end.

Definition byte_is (p : ascii -> bool) (o : option ascii) : bool :=
  match o with
  | Some c => p c
  | None => false
  end.




(** [strings.TrimPrefix]: [s] without the leading [prefix], or [s] itself
    when it does not start with [prefix]. *)
Fixpoint skip (n : nat) (s : string) : string :=
  match n, s with
  | O, _ => s
  | S n', String _ s' => skip n' s'
  | S _, EmptyString => EmptyString
  end.

Definition TrimPrefix (s prefix : string) : string :=
  if HasPrefix s prefix then skip (String.length prefix) s else s.

(** [strings.Fields]: the maximal runs of bytes that are no white space,
    in their order. *)
Fixpoint Fields (s : string) : list string :=
  match s with
  | EmptyString => []
  | String c s' =>
      if isSpace c then Fields s'
      else match s' with
           | EmptyString => [String c EmptyString]
           | String c' _ =>
               if isSpace c' then String c EmptyString :: Fields s'
               else match Fields s' with
                    | f :: fs => String c f :: fs
                    | [] => [String c EmptyString]
                    end
           end
  end.

(** A string without white space. *)
Fixpoint no_space (s : string) : bool :=
  match s with
  | EmptyString => true
  | String c s' => negb (isSpace c) && no_space s'
  end.

Definition is_caret_or_dollar (c : ascii) : bool :=
  Ascii.eqb c "^"%char || Ascii.eqb c "$"%char.

End GoStrings.
Import GoStrings.

(** ** The interning map of [normalizeDomain]

    [domainCache] is a process-wide [sync.Map] from input to normalised
    name.  Every function that normalises a name reads and extends it, so
    those functions are written in the state monad over it. *)

Definition Intern (A : Type) : Type := gmap string string -> A * gmap string string.

Definition ret {A : Type} (a : A) : Intern A := fun dc => (a, dc).

Definition bind {A B : Type} (m : Intern A) (k : A -> Intern B) : Intern B :=
  fun dc => let (a, dc') := m dc in k a dc'.

Notation "'do' x <- m ; k" := (bind m (fun x => k))
  (at level 10, x name, m at level 100, k at level 200).

(** The transformation itself: lower case, trim, drop one trailing dot. *)
Definition normalize (domain : string) : string :=
  TrimSuffix (TrimSpace (ToLower domain)) ".".

(** [normalizeDomain]: the interned result when there is one; otherwise the
    transformation, whose result is interned under the input and under
    itself when it is shorter than 256 bytes. *)
Definition normalizeDomain (domain : string) : Intern string :=
  fun dc =>
    match dc !! domain with
    | Some cached => (cached, dc)
    | None =>
        let normalized := normalize domain in
        if decide (Z.of_nat (String.length normalized) < 256) then
          let dc1 := <[domain := normalized]> dc in
          if decide (normalized <> domain)
          then (normalized, <[normalized := normalized]> dc1)
          else (normalized, dc1)
        else (normalized, dc)
    end.

(** An interning map whose every entry holds the normal form of its key. *)
Definition interned_ok (dc : gmap string string) : Prop :=
  forall k v : string, dc !! k = Some v -> v = normalize k.


(** ** Go's [net] package: addresses and networks

    [net.IP] is a byte slice of length 4 or 16; the nil address is the
    empty list.  [Equal], [To4] and [Contains] follow the standard
    library. *)

Module net.

Definition IP : Type := list Z.

Record IPNet : Type := mkIPNet { IPNet_IP : IP; IPNet_Mask : list Z }.

Definition IPv4len : nat := 4%nat.
Definition IPv6len : nat := 16%nat.

Definition v4InV6Prefix : list Z := [0; 0; 0; 0; 0; 0; 0; 0; 0; 0; 255; 255].

Definition isNil (ip : IP) : bool := bool_decide (ip = []).

Definition Equal (ip x : IP) : bool :=
  if Nat.eqb (length ip) (length x) then bool_decide (ip = x)
  else if Nat.eqb (length ip) IPv4len && Nat.eqb (length x) IPv6len
  then bool_decide (take 12 x = v4InV6Prefix) && bool_decide (ip = drop 12 x)
  else if Nat.eqb (length ip) IPv6len && Nat.eqb (length x) IPv4len
  then bool_decide (take 12 ip = v4InV6Prefix) && bool_decide (drop 12 ip = x)
  else false.

Definition To4 (ip : IP) : IP :=
  if Nat.eqb (length ip) IPv4len then ip
  else if Nat.eqb (length ip) IPv6len && bool_decide (take 12 ip = v4InV6Prefix)
  then drop 12 ip
  else [].

Definition networkNumberAndMask (n : IPNet) : IP * list Z :=
  let ip := if isNil (To4 (IPNet_IP n)) then IPNet_IP n else To4 (IPNet_IP n) in
  if isNil (To4 (IPNet_IP n)) && negb (Nat.eqb (length ip) IPv6len) then ([], [])
  else
    let m := IPNet_Mask n in
    if Nat.eqb (length m) IPv4len then
      if Nat.eqb (length ip) IPv4len then (ip, m) else ([], [])
    else if Nat.eqb (length m) IPv6len then
      if Nat.eqb (length ip) IPv4len then (ip, drop 12 m) else (ip, m)
    else ([], []).

Fixpoint maskedEqual (nn m ip : list Z) : bool :=
  match nn, m, ip with
  | a :: nn', b :: m', c :: ip' =>
      Z.eqb (Z.land a b) (Z.land c b) && maskedEqual nn' m' ip'
  | _, _, _ => true
  end.

Definition Contains (n : IPNet) (ip : IP) : bool :=
  let (nn, m) := networkNumberAndMask n in
  let ip := if isNil (To4 ip) then ip else To4 ip in
  if Nat.eqb (length ip) (length nn) then maskedEqual nn m ip else false.

(** [net.JoinHostPort] *)
Definition JoinHostPort (host port : string) : string :=
  if existsb (Ascii.eqb ":"%char) (list_ascii_of_string host)
  then "[" ++ host ++ "]:" ++ port
  else host ++ ":" ++ port.

End net.

(** ** The DNS library's messages (github.com/miekg/dns) *)

Module dns.

Record DNSQuestion : Type := mkQuestion { Name : string; Qtype : Z; Qclass : Z }.

Record RR_Header : Type := mkHeader {
  Hdr_Name : string; Rrtype : Z; Class : Z; Ttl : Z }.

(** Resource records: the two kinds the source looks into, and the rest. *)
Inductive RR : Type :=
| SOA (hdr : RR_Header) (ns mbox : string)
      (serial refresh retry expire minttl : Z)
| A (hdr : RR_Header) (a : net.IP)
| OtherRR (hdr : RR_Header) (rdata : list Z).

Definition Header (rr : RR) : RR_Header :=
  match rr with
  | SOA h _ _ _ _ _ _ _ => h
  | A h _ => h
  | OtherRR h _ => h
  end.

(** [dns.Msg]: the header fields (the embedded [MsgHdr]) and the four
    sections. *)
Record Msg : Type := mkMsg {
  Id : Z;
  Response : bool;
  Opcode : Z;
  Authoritative : bool;
  Truncated : bool;
  RecursionDesired : bool;
  RecursionAvailable : bool;
  Zero : bool;
  AuthenticatedData : bool;
  CheckingDisabled : bool;
  Rcode : Z;
  Compress : bool;
  Question : list DNSQuestion;
  Answer : list RR;
  Ns : list RR;
  Extra : list RR }.

Definition RcodeSuccess : Z := 0.
Definition RcodeFormatError : Z := 1.
Definition RcodeServerFailure : Z := 2.
Definition RcodeNameError : Z := 3.
Definition RcodeNotImplemented : Z := 4.
Definition RcodeRefused : Z := 5.
Definition OpcodeQuery : Z := 0.

(** [new(dns.Msg)] *)
Definition new : Msg :=
  mkMsg 0 false 0 false false false false false false false 0 false [] [] [] [].

(** Field assignments. *)
Definition set_Id (v : Z) (m : Msg) : Msg :=
  mkMsg v (Response m) (Opcode m) (Authoritative m) (Truncated m)
    (RecursionDesired m) (RecursionAvailable m) (Zero m) (AuthenticatedData m)
    (CheckingDisabled m) (Rcode m) (Compress m) (Question m) (Answer m) (Ns m) (Extra m).
Definition set_Response (v : bool) (m : Msg) : Msg :=
  mkMsg (Id m) v (Opcode m) (Authoritative m) (Truncated m)
    (RecursionDesired m) (RecursionAvailable m) (Zero m) (AuthenticatedData m)
    (CheckingDisabled m) (Rcode m) (Compress m) (Question m) (Answer m) (Ns m) (Extra m).
Definition set_Opcode (v : Z) (m : Msg) : Msg :=
  mkMsg (Id m) (Response m) v (Authoritative m) (Truncated m)
    (RecursionDesired m) (RecursionAvailable m) (Zero m) (AuthenticatedData m)
    (CheckingDisabled m) (Rcode m) (Compress m) (Question m) (Answer m) (Ns m) (Extra m).
Definition set_Authoritative (v : bool) (m : Msg) : Msg :=
  mkMsg (Id m) (Response m) (Opcode m) v (Truncated m)
    (RecursionDesired m) (RecursionAvailable m) (Zero m) (AuthenticatedData m)
    (CheckingDisabled m) (Rcode m) (Compress m) (Question m) (Answer m) (Ns m) (Extra m).
Definition set_RecursionDesired (v : bool) (m : Msg) : Msg :=
  mkMsg (Id m) (Response m) (Opcode m) (Authoritative m) (Truncated m)
    v (RecursionAvailable m) (Zero m) (AuthenticatedData m)
    (CheckingDisabled m) (Rcode m) (Compress m) (Question m) (Answer m) (Ns m) (Extra m).
Definition set_CheckingDisabled (v : bool) (m : Msg) : Msg :=
  mkMsg (Id m) (Response m) (Opcode m) (Authoritative m) (Truncated m)
    (RecursionDesired m) (RecursionAvailable m) (Zero m) (AuthenticatedData m)
    v (Rcode m) (Compress m) (Question m) (Answer m) (Ns m) (Extra m).
Definition set_Rcode (v : Z) (m : Msg) : Msg :=
  mkMsg (Id m) (Response m) (Opcode m) (Authoritative m) (Truncated m)
    (RecursionDesired m) (RecursionAvailable m) (Zero m) (AuthenticatedData m)
    (CheckingDisabled m) v (Compress m) (Question m) (Answer m) (Ns m) (Extra m).
Definition set_Question (v : list DNSQuestion) (m : Msg) : Msg :=
  mkMsg (Id m) (Response m) (Opcode m) (Authoritative m) (Truncated m)
    (RecursionDesired m) (RecursionAvailable m) (Zero m) (AuthenticatedData m)
    (CheckingDisabled m) (Rcode m) (Compress m) v (Answer m) (Ns m) (Extra m).
Definition set_Answer (v : list RR) (m : Msg) : Msg :=
  mkMsg (Id m) (Response m) (Opcode m) (Authoritative m) (Truncated m)
    (RecursionDesired m) (RecursionAvailable m) (Zero m) (AuthenticatedData m)
    (CheckingDisabled m) (Rcode m) (Compress m) (Question m) v (Ns m) (Extra m).

(** [Msg.Copy]: a deep copy, the same value. *)
Definition Copy (m : Msg) : Msg := m.

(** [Msg.SetReply]: identifier, opcode and (for a standard query) the RD
    and CD bits of the request, response bit set, RCODE NOERROR, and the
    request's first question when it has one. *)
Definition SetReply (request : Msg) (m : Msg) : Msg :=
  let m := set_Id (Id request) m in
  let m := set_Response true m in
  let m := set_Opcode (Opcode request) m in
  let m := if Z.eqb (Opcode m) OpcodeQuery
           then set_CheckingDisabled (CheckingDisabled request)
                  (set_RecursionDesired (RecursionDesired request) m)
           else m in
  let m := set_Rcode RcodeSuccess m in
  match Question request with
  | [] => m
  | q :: _ => set_Question [q] m
  end.

(** [Msg.SetRcode] *)
Definition SetRcode (request : Msg) (rcode : Z) (m : Msg) : Msg :=
  set_Rcode rcode (SetReply request m).

(** A DNS client: transport, timeout in seconds, and the TLS server name
    of a DNS-over-TLS client. *)
Record Client : Type := mkClient {
  Net : string; Timeout : Z; TLSServerName : option string }.

End dns.

Import dns.

(** ** The server's types *)

(** Instants and durations are nanosecond counts; a [time.Duration] is a
    64-bit integer, so the product with [time.Second] wraps around. *)
Definition int64 (z : Z) : Z := (z + 2 ^ 63) mod 2 ^ 64 - 2 ^ 63.
Definition Second : Z := 1000000000.
Definition Duration_seconds (ttl : Z) : Z := int64 (ttl * Second).
Definition Time_Add (t d : Z) : Z := t + d.
(** [t.After(u)] and [t.Before(u)] *)
Definition After (t u : Z) : bool := u <? t.
Definition Before (t u : Z) : bool := t <? u.

Definition maxUint32 : Z := 4294967295.

Record NameserverConfig : Type := mkNameserver {
  Address : string; Protocol : string; Port : Z }.

Definition protocolUDP : string := "udp".
Definition protocolTCP : string := "tcp".
Definition protocolDOT : string := "dot".
Definition protocolDOH : string := "doh".

(** The fields of [Config] that the modelled functions read. *)
Record Config : Type := mkConfig {
  CacheTTL : Z;
  NegativeCacheTTL : Z;
  MaxCacheSize : Z;
  Debug : bool;
  LogBlocks : bool;
  LogOverwrites : bool }.

Module OverwriteEntry.
Record t : Type := mk { IP : string; Subnets : list net.IPNet; IPs : list net.IP }.
End OverwriteEntry.

Module BlockEntry.
Record t : Type := mk { Subnets : list net.IPNet; IPs : list net.IP }.
End BlockEntry.

Record CacheEntry : Type := mkCacheEntry { Message : Msg; ExpiresAt : Z }.

(** [DNSServer], without its locks, its clients and the registry of
    pending requests, which the functions below do not touch. *)
Record DNSServer : Type := mkDNSServer {
  config : Config;
  blocked : gmap string BlockEntry.t;
  overwrites : gmap string OverwriteEntry.t;
  nameservers : list NameserverConfig;
  cache : gmap string CacheEntry;
  maxCacheSize : Z;
  nameserverIdx : Z }.

Definition set_cache (c : gmap string CacheEntry) (s : DNSServer) : DNSServer :=
  mkDNSServer (config s) (blocked s) (overwrites s) (nameservers s) c
    (maxCacheSize s) (nameserverIdx s).

Definition set_nameserverIdx (i : Z) (s : DNSServer) : DNSServer :=
  mkDNSServer (config s) (blocked s) (overwrites s) (nameservers s) (cache s)
    (maxCacheSize s) i.

Definition set_blocked (b : gmap string BlockEntry.t) (s : DNSServer) : DNSServer :=
  mkDNSServer (config s) b (overwrites s) (nameservers s) (cache s)
    (maxCacheSize s) (nameserverIdx s).

(** The result of an exchange with an upstream server: the pair
    [(resp, err)] of the source, [resp] possibly nil. *)
Inductive Exchanged : Type :=
| ExchangeError
| ExchangeOK (resp : option Msg).

(** What the resolver's surroundings decide: the order in which [range]
    enumerates the cache, the zone-file parser [dns.NewRR], the exchange of
    a DNS client with an address, and a DNS-over-HTTPS exchange with a
    URL. *)
Record Env : Type := mkEnv {
  range_cache : gmap string CacheEntry -> list (string * CacheEntry);
  NewRR : string -> option RR;
  Exchange : Client -> Msg -> string -> Exchanged;
  DoHExchange : string -> Msg -> Exchanged }.

(** [range] enumerates every entry of the map once, in some order. *)
Definition range_ok (E : Env) : Prop :=
  forall m : gmap string CacheEntry, range_cache E m ≡ₚ map_to_list m.

(** What came of a call of [setCachedResponse]: nothing stored, or an
    entry stored under [key] with a lifetime of [ttl] seconds. *)
Inductive PutOutcome : Type :=
| Skipped
| Stored (key : string) (ttl : Z).

(** ** cache.go *)

Definition getCacheKey (r : Msg) : Intern string :=
  match Question r with
  | [] => ret ""
  | q :: _ =>
      do n <- normalizeDomain (Name q);
      ret (n ++ ":" ++ pretty (Qtype q) ++ ":" ++ pretty (Qclass q))
  end.

(** The log functions write to the log only; what they leave behind is the
    name they intern. *)
Definition logCacheHit (cachedMsg r : Msg) : Intern unit :=
  match Question r with
  | [] => ret tt
  | q :: _ => do _domain <- normalizeDomain (Name q); ret tt
  end.

Definition logCachedNegative (resp r : Msg) (ttl : Z) : Intern unit :=
  match Question r with
  | [] => ret tt
  | q :: _ => do _domain <- normalizeDomain (Name q); ret tt
  end.

Definition getCachedResponse (s : DNSServer) (r : Msg) (clientIP : net.IP)
    (now : Z) : Intern (option Msg) :=
  if (CacheTTL (config s) <=? 0) && (NegativeCacheTTL (config s) <=? 0)
  then ret None
  else
    do key <- getCacheKey r;
    if String.eqb key "" then ret None
    else
      match cache s !! key with
      | None => ret None
      | Some entry =>
          if After now (ExpiresAt entry) then ret None
          else
            let cachedMsg := Copy (Message entry) in
            let cachedMsg := set_Id (Id r) cachedMsg in
            let cachedMsg := set_Question (Question r) cachedMsg in
            let cachedMsg := set_RecursionDesired (RecursionDesired r) cachedMsg in
            let cachedMsg := set_CheckingDisabled (CheckingDisabled r) cachedMsg in
            do _u <- logCacheHit cachedMsg r;
            ret (Some cachedMsg)
      end.

Definition isNegativeResponse (resp : option Msg) : bool :=
  match resp with
  | None => false
  | Some resp =>
      if Z.eqb (Rcode resp) RcodeNameError then true
      else if Z.eqb (Rcode resp) RcodeServerFailure then true
      else if Z.eqb (Rcode resp) RcodeRefused then true
      else if Z.eqb (Rcode resp) RcodeNotImplemented then true
      else if Z.eqb (Rcode resp) RcodeSuccess && Nat.eqb (length (Answer resp)) 0 then true
      else false
  end.

Definition validateResponse (r resp : option Msg) : Intern bool :=
  match r, resp with
  | Some r, Some resp =>
      match Question resp, Question r with
      | respq :: _, rq :: _ =>
          do reqQ <- normalizeDomain (Name rq);
          do respQ <- normalizeDomain (Name respq);
          if negb (String.eqb reqQ respQ) then ret false
          else if negb (Z.eqb (Qtype rq) (Qtype respq)) then ret false
          else if negb (Z.eqb (Qclass rq) (Qclass respq)) then ret false
          else ret true
      | _, _ => ret false
      end
  | _, _ => ret false
  end.

(** [evictOldestCacheEntry]: one pass over the cache in [range] order,
    keeping the first entry that expires strictly before the ones seen;
    that entry is deleted, whether it has expired or not. *)
Definition oldestStep (acc : string * Z * bool) (ke : string * CacheEntry)
    : string * Z * bool :=
  let '(oldestKey, oldestTime, found) := acc in
  if negb found || Before (ExpiresAt (snd ke)) oldestTime
  then (fst ke, ExpiresAt (snd ke), true)
  else acc.

Definition oldestEntry (entries : list (string * CacheEntry)) : string * Z * bool :=
  fold_left oldestStep entries ("", 0, false).

Definition evictOldestCacheEntry (E : Env) (s : DNSServer) (now : Z) : DNSServer :=
  let '(oldestKey, oldestTime, found) := oldestEntry (range_cache E (cache s)) in
  if found && After now oldestTime then set_cache (delete oldestKey (cache s)) s
  else if found then set_cache (delete oldestKey (cache s)) s
  else s.

(** The lifetime of a negative answer: the configured one, lowered by the
    first SOA of the authority section, or by the authority records'
    own lifetimes when the SOA pass left it unchanged. *)
Fixpoint soaTTL (ns : list RR) (ttl : Z) : Z :=
  match ns with
  | [] => ttl
  | SOA _ _ _ _ _ _ _ minttl :: _ =>
      if (0 <? minttl) && (minttl <? ttl) then minttl else ttl
  | _ :: rest => soaTTL rest ttl
  end.

Definition authorityTTL (ns : list RR) (ttl : Z) : Z :=
  fold_left
    (fun ttl rr =>
       if (0 <? Ttl (Header rr)) && (Ttl (Header rr) <? ttl)
       then Ttl (Header rr) else ttl)
    ns ttl.

(** The MINIMUM field of the first SOA record of a section, and the
    smaller of [bound] and the smallest positive number among [ttls]: the
    terms in which the specification describes the two passes. *)
Fixpoint firstSOA (ns : list RR) : option Z :=
  match ns with
  | [] => None
  | SOA _ _ _ _ _ _ _ minttl :: _ => Some minttl
  | _ :: rest => firstSOA rest
  end.

Definition minPositive (ttls : list Z) (bound : Z) : Z :=
  fold_right (fun t acc => if 0 <? t then Z.min t acc else acc) bound ttls.

Definition negativeTTLOf (negativeTTL : Z) (resp : Msg) : Z :=
  let ttl := negativeTTL in
  if Nat.ltb 0 (length (Ns resp)) then
    let ttl := soaTTL (Ns resp) ttl in
    if Z.eqb ttl negativeTTL then authorityTTL (Ns resp) ttl else ttl
  else ttl.

Definition cacheNegativeResponse (E : Env) (s : DNSServer) (r resp : Msg)
    (key : string) (now : Z) : Intern (DNSServer * PutOutcome) :=
  let negativeTTL := NegativeCacheTTL (config s) in
  if negativeTTL <=? 0 then ret (s, Skipped)
  else
    let ttl := negativeTTLOf negativeTTL resp in
    if ttl <? 1 then ret (s, Skipped)
    else
      let s :=
        if (0 <? maxCacheSize s) && (maxCacheSize s <=? Z.of_nat (size (cache s)))
        then evictOldestCacheEntry E s now else s in
      let cachedMsg := Copy resp in
      let s :=
        set_cache
          (<[key := mkCacheEntry cachedMsg (Time_Add now (Duration_seconds ttl))]>
             (cache s)) s in
      do _u <- logCachedNegative resp r ttl;
      ret (s, Stored key ttl).

(** The lifetime of a positive answer: the configured one, or the smallest
    lifetime of an answer record when that is smaller. *)
Definition positiveTTLOf (cacheTTL : Z) (resp : Msg) : Z :=
  let ttl := cacheTTL in
  if Nat.ltb 0 (length (Answer resp)) then
    let minTTL := if (0 <? ttl) && (ttl <=? maxUint32) then ttl else maxUint32 in
    let minTTL :=
      fold_left
        (fun minTTL rr => if Ttl (Header rr) <? minTTL then Ttl (Header rr) else minTTL)
        (Answer resp) minTTL in
    if (minTTL <? maxUint32) && (minTTL <? ttl) then minTTL else ttl
  else ttl.

Definition cachePositiveResponse (E : Env) (s : DNSServer) (r resp : Msg)
    (key : string) (now : Z) : Intern (DNSServer * PutOutcome) :=
  if CacheTTL (config s) <=? 0 then ret (s, Skipped)
  else if negb (Z.eqb (Rcode resp) RcodeSuccess) || Nat.eqb (length (Answer resp)) 0
  then ret (s, Skipped)
  else
    let ttl := positiveTTLOf (CacheTTL (config s)) resp in
    if ttl <? 1 then ret (s, Skipped)
    else
      let s :=
        if (0 <? maxCacheSize s) && (maxCacheSize s <=? Z.of_nat (size (cache s)))
        then evictOldestCacheEntry E s now else s in
      let cachedMsg := Copy resp in
      let s :=
        set_cache
          (<[key := mkCacheEntry cachedMsg (Time_Add now (Duration_seconds ttl))]>
             (cache s)) s in
      do _domain <-
        match Question r with
        | [] => ret ""
        | q :: _ => normalizeDomain (Name q)
        end;
      ret (s, Stored key ttl).

Definition setCachedResponse (E : Env) (s : DNSServer) (r : Msg)
    (resp : option Msg) (now : Z) : Intern (DNSServer * PutOutcome) :=
  match resp with
  | None => ret (s, Skipped)
  | Some resp =>
      do key <- getCacheKey r;
      if String.eqb key "" then ret (s, Skipped)
      else
        do valid <- validateResponse (Some r) (Some resp);
        if negb valid then
          do _domain <-
            match Question r with
            | [] => ret ""
            | q :: _ => normalizeDomain (Name q)
            end;
          ret (s, Skipped)
        else if isNegativeResponse (Some resp)
        then cacheNegativeResponse E s r resp key now
        else cachePositiveResponse E s r resp key now
  end.

(** [cleanupExpiredCache]: every entry that has expired is deleted. *)
Definition cleanupExpiredCache (E : Env) (s : DNSServer) (now : Z) : DNSServer :=
  set_cache
    (fold_left
       (fun (c : gmap string CacheEntry) (ke : string * CacheEntry) =>
          if After now (ExpiresAt (snd ke)) then delete (fst ke) c else c)
       (range_cache E (cache s)) (cache s))
    s.

(** ** blocks.go and overwrites.go *)

Definition matchesBlockEntry (entry : BlockEntry.t) (clientIP : net.IP) : bool :=
  if Nat.eqb (length (BlockEntry.Subnets entry)) 0 && Nat.eqb (length (BlockEntry.IPs entry)) 0
  then true
  else if net.isNil clientIP then false
  else if existsb (fun ip => net.Equal ip clientIP) (BlockEntry.IPs entry) then true
  else if existsb (fun subnet => net.Contains subnet clientIP) (BlockEntry.Subnets entry) then true
  else false.

Definition blockedEntryMatches (s : DNSServer) (domain : string) (clientIP : net.IP) : bool :=
  match blocked s !! domain with
  | Some entry => matchesBlockEntry entry clientIP
  | None => false
  end.

(** The loop of [isBlocked] over the bytes of the name: at every dot that
    is not the last byte, the rest of the name is looked up. *)
Fixpoint parentBlocked (s : DNSServer) (clientIP : net.IP) (domain : string) : bool :=
  match domain with
  | EmptyString => false
  | String c rest =>
      if Ascii.eqb c "."%char && negb (String.eqb rest "")
      then if blockedEntryMatches s rest clientIP then true
           else parentBlocked s clientIP rest
      else parentBlocked s clientIP rest
  end.

Definition isBlocked (s : DNSServer) (domain : string) (clientIP : net.IP) : bool :=
  if blockedEntryMatches s domain clientIP then true
  else parentBlocked s clientIP domain.

Definition addBlockedDomain (s : DNSServer) (domain : string)
    (restrictions : option BlockEntry.t) : Intern DNSServer :=
  do domain <- normalizeDomain domain;
  match restrictions with
  | Some restrictions =>
      ret (set_blocked
             (<[domain := BlockEntry.mk (BlockEntry.Subnets restrictions)
                            (BlockEntry.IPs restrictions)]> (blocked s)) s)
  | None => ret (set_blocked (<[domain := BlockEntry.mk [] []]> (blocked s)) s)
  end.

Definition getOverwrite (s : DNSServer) (domain : string) (clientIP : net.IP)
    : string * bool :=
  match overwrites s !! domain with
  | None => ("", false)
  | Some entry =>
      if Nat.eqb (length (OverwriteEntry.Subnets entry)) 0
         && Nat.eqb (length (OverwriteEntry.IPs entry)) 0
      then (OverwriteEntry.IP entry, true)
      else if negb (net.isNil clientIP)
              && (existsb (fun ip => net.Equal ip clientIP) (OverwriteEntry.IPs entry)
                  || existsb (fun subnet => net.Contains subnet clientIP)
                       (OverwriteEntry.Subnets entry))
      then (OverwriteEntry.IP entry, true)
      else ("", false)
  end.

(** ** config.go: the overrides of the configuration file

    A YAML value of the [overwrites] map, as far as [parseOverwrites]
    tells values apart: nil, a string, a map with its [ips] and [subnets]
    entries already parsed by [parseOverwriteFromMap] (or its error), and
    anything else. *)
Inductive OverwriteValue : Type :=
| YNil
| YString (v : string)
| YMap (parsed : option OverwriteEntry.t)
| YOther.

(** [parseOverwrites], over the entries in the order [range] yields them;
    [None] is the error that refuses the configuration. *)
Fixpoint parseOverwritesFrom (entries : list (string * OverwriteValue))
    (result : gmap string OverwriteEntry.t)
    : Intern (option (gmap string OverwriteEntry.t)) :=
  match entries with
  | [] => ret (Some result)
  | (domain, value) :: rest =>
      match value with
      | YNil => parseOverwritesFrom rest result
      | YOther => ret None
      | YMap None => ret None
      | YString _ | YMap (Some _) =>
          let entry :=
            match value with
            | YString v => OverwriteEntry.mk v [] []
            | YMap (Some e) => e
            | _ => OverwriteEntry.mk "" [] []
            end in
          if String.eqb (OverwriteEntry.IP entry) "" then ret None
          else
            do key <- normalizeDomain domain;
            parseOverwritesFrom rest (<[key := entry]> result)
      end
  end.

Definition parseOverwrites (entries : list (string * OverwriteValue))
    : Intern (option (gmap string OverwriteEntry.t)) :=
  parseOverwritesFrom entries ∅.

(** The values of the [overwrites] map that [parseOverwrites] accepts. *)
Definition acceptable (value : OverwriteValue) : bool :=
  match value with
  | YNil => true
  | YString v => negb (String.eqb v "")
  | YMap (Some e) => negb (String.eqb (OverwriteEntry.IP e) "")
  | YMap None => false
  | YOther => false
  end.

(** ** config.go: the name servers of the configuration file

    A value of a YAML map, as far as the type assertions of
    [parseNameserverFromMap] tell values apart: a string, an int, and
    anything else. *)
Inductive YamlValue : Type :=
| YamlString (v : string)
| YamlInt (v : Z)
| YamlOther.

(** [parseNameserverFromMap]; [LookupPort] is [net.LookupPort] on the
    empty network, [None] its error. *)
Definition parseNameserverFromMap (LookupPort : string -> option Z)
    (val : gmap string YamlValue) : NameserverConfig :=
  let ns := mkNameserver "" protocolUDP 53 in
  let ns :=
    match val !! "address" with
    | Some (YamlString addr) => mkNameserver addr (Protocol ns) (Port ns)
    | _ => ns
    end in
  let ns :=
    match val !! "protocol" with
    | Some (YamlString proto) => mkNameserver (Address ns) (ToLower proto) (Port ns)
    | _ => ns
    end in
  let ns :=
    match val !! "port" with
    | Some (YamlInt port) => mkNameserver (Address ns) (Protocol ns) port
    | Some (YamlString port) =>
        match LookupPort port with
        | Some p => mkNameserver (Address ns) (Protocol ns) p
        | None => ns
        end
    | _ => ns
    end in
  if Port ns =? 53 then
    if String.eqb (Protocol ns) protocolDOT
    then mkNameserver (Address ns) (Protocol ns) 853
    else if String.eqb (Protocol ns) protocolDOH
    then mkNameserver (Address ns) (Protocol ns) 443
    else ns
  else ns.

(** ** blocks.go: reading a deny list

    [parseHostLine]; [ParseIP] is [net.ParseIP], [None] its nil. *)
Definition parseHostLine (ParseIP : string -> option net.IP) (line : string) : string :=
  let line := TrimPrefix line "||" in
  let line := TrimSuffix line "^" in
  let line := TrimSuffix line "$" in
  let parts := Fields line in
  match parts with
  | [] => ""
  | firstPart :: rest =>
      let stripped :=
        TrimSuffix (TrimSuffix (TrimPrefix firstPart "||") "^") "$" in
      match rest with
      | second :: _ =>
          match ParseIP firstPart with
          | Some _ => second
          | None => stripped
          end
      | [] => stripped
      end
  end.

(** The loop of [processBlockListReader] over the lines the scanner
    yields, with the count of the lines loaded so far. *)
Fixpoint processLines (ParseIP : string -> option net.IP) (s : DNSServer)
    (lines : list string) (restrictions : option BlockEntry.t) (loadedCount : Z)
    : Intern (DNSServer * Z) :=
  match lines with
  | [] => ret (s, loadedCount)
  | text :: rest =>
      let line := TrimSpace text in
      if String.eqb line "" || HasPrefix line "#"
      then processLines ParseIP s rest restrictions loadedCount
      else
        let domain := parseHostLine ParseIP line in
        if negb (String.eqb domain "") then
          do s <- addBlockedDomain s domain restrictions;
          processLines ParseIP s rest restrictions (loadedCount + 1)
        else processLines ParseIP s rest restrictions loadedCount
  end.

(** [processBlockListReader]: the server after the lines read, and the
    count it logs.  A read error is reported after the lines read before
    it have been loaded. *)
Definition processBlockListReader (ParseIP : string -> option net.IP) (s : DNSServer)
    (lines : list string) (restrictions : option BlockEntry.t)
    : Intern (DNSServer * Z) :=
  processLines ParseIP s lines restrictions 0.

(** ** The request handler *)

(** The response writer of a request: the client address that
    [getClientIP] extracts from it, and whether writing a message fails. *)
Record ResponseWriter : Type := mkWriter {
  ClientIP : net.IP;
  WriteFails : Msg -> bool }.

Inductive LogLine : Type :=
| LogBlocked (domain : string) (clientIP : net.IP)
| LogOverwrite (domain ip : string) (clientIP : net.IP)
| LogError (what : string).

(** How a call of the handler ends: it returns, it dies of a run-time
    panic, or it hands the request over to [forwardRequest]. *)
Inductive Control : Type :=
| Returned
| Panicked
| Forwarded (domain : string) (clientIP : net.IP).

Record Handled : Type := mkHandled {
  written : list Msg;
  logged : list LogLine;
  control : Control }.

(** [w.WriteMsg(m)] followed by the error log of a failed write. *)
Definition WriteMsg (w : ResponseWriter) (m : Msg) (what : string)
    (logs : list LogLine) : Handled :=
  mkHandled [m] (logs ++ if WriteFails w m then [LogError what] else []) Returned.

Definition handleDNSRequest (E : Env) (s : DNSServer) (w : ResponseWriter)
    (r : Msg) (now : Z) : Intern Handled :=
  let clientIP := ClientIP w in
  do cachedResp <- getCachedResponse s r clientIP now;
  match cachedResp with
  | Some cachedResp =>
      ret (WriteMsg w cachedResp "Error writing cached response" [])
  | None =>
      match Question r with
      | [] => ret (mkHandled [] [] Panicked)
      | q :: _ =>
          do domain <- normalizeDomain (Name q);
          if isBlocked s domain clientIP then
            let logs := if LogBlocks (config s) then [LogBlocked domain clientIP] else [] in
            let msg := dns.new in
            let msg := SetReply r msg in
            let msg := set_Authoritative true msg in
            let msg := SetRcode r RcodeNameError msg in
            ret (WriteMsg w msg "Error writing response" logs)
          else
            let (ip, exists_) := getOverwrite s domain clientIP in
            if exists_ then
              let logs :=
                if LogOverwrites (config s) then [LogOverwrite domain ip clientIP] else [] in
              let msg := dns.new in
              let msg := SetReply r msg in
              let msg := set_Authoritative true msg in
              match NewRR E (Name q ++ " 300 IN A " ++ ip) with
              | Some rr =>
                  let msg := set_Answer (Answer msg ++ [rr]) msg in
                  ret (WriteMsg w msg "Error writing response" logs)
              | None => ret (mkHandled [] logs (Forwarded domain clientIP))
              end
            else ret (mkHandled [] [] (Forwarded domain clientIP))
      end
  end.

(** ** forward.go: the upstream forwarder *)

Definition forwardDOH (E : Env) (r : Msg) (nameserver : NameserverConfig) : Exchanged :=
  let url :=
    if HasPrefix (Address nameserver) "http://" || HasPrefix (Address nameserver) "https://"
    then Address nameserver
    else if String.eqb (Address nameserver) "1.1.1.1" || String.eqb (Address nameserver) "1.0.0.1"
    then "https://cloudflare-dns.com/dns-query"
    else if String.eqb (Address nameserver) "8.8.8.8" || String.eqb (Address nameserver) "8.8.4.4"
    then "https://dns.google/dns-query"
    else "https://" ++ Address nameserver ++ "/dns-query" in
  DoHExchange E url r.

Definition forwardDOT (E : Env) (r : Msg) (address serverName : string) : Exchanged :=
  Exchange E (mkClient "tcp-tls" 5 (Some serverName)) r address.

(** The server's own client, [&dns.Client{Timeout: 5 * time.Second}]:
    the default transport, UDP. *)
Definition serverClient : Client := mkClient "" 5 None.

Definition forwardToNameserver (E : Env) (r : Msg) (nameserver : NameserverConfig)
    (address : string) : Exchanged :=
  if String.eqb (Protocol nameserver) protocolDOH then forwardDOH E r nameserver
  else if String.eqb (Protocol nameserver) protocolDOT
  then forwardDOT E r address (Address nameserver)
  else if String.eqb (Protocol nameserver) protocolTCP
  then Exchange E (mkClient protocolTCP 5 None) r address
  else Exchange E serverClient r address.

Definition isTCPBasedProtocol (protocol : string) : bool :=
  String.eqb protocol protocolTCP || String.eqb protocol protocolDOT
  || String.eqb protocol protocolDOH.

Definition handleTruncatedResponse (E : Env) (r : Msg) (address domain : string)
    : Intern (option Msg) :=
  match Exchange E (mkClient protocolTCP 5 None) r address with
  | ExchangeOK (Some tcpResp) =>
      do valid <- validateResponse (Some r) (Some tcpResp);
      if valid then ret (Some tcpResp) else ret None
  | _ => ret None
  end.

Definition tryForwardToNameserver (E : Env) (r : Msg) (nameserver : NameserverConfig)
    (domain : string) : Intern (option Msg) :=
  let address := net.JoinHostPort (Address nameserver) (pretty (Port nameserver)) in
  match forwardToNameserver E r nameserver address with
  | ExchangeError => ret None
  | ExchangeOK None => ret None
  | ExchangeOK (Some resp) =>
      do valid <- validateResponse (Some r) (Some resp);
      if negb valid then ret None
      else if Truncated resp && negb (isTCPBasedProtocol (Protocol nameserver))
      then handleTruncatedResponse E r address domain
      else ret (Some resp)
  end.

(** The starting index of a forward: the counter before its atomic
    increment, modulo the number of name servers. *)
Definition startIdxOf (s : DNSServer) : Z :=
  let nsCount := Z.of_nat (length (nameservers s)) in
  let idxValue := ((nameserverIdx s + 1) mod 2 ^ 64 - 1) mod 2 ^ 64 in
  idxValue mod nsCount.

(** The loop of [forwardDirectInternal] over [i]. *)
Fixpoint tryNameservers (E : Env) (r : Msg) (domain : string)
    (nss : list NameserverConfig) (startIdx : Z) (idxs : list nat)
    : Intern (option Msg) :=
  match idxs with
  | [] => ret None
  | i :: rest =>
      let idx := (startIdx + Z.of_nat i) mod Z.of_nat (length nss) in
      match nss !! Z.to_nat idx with
      | None => ret None
      | Some nameserver =>
          do resp <- tryForwardToNameserver E r nameserver domain;
          match resp with
          | Some resp => ret (Some resp)
          | None => tryNameservers E r domain nss startIdx rest
          end
      end
  end.

Definition forwardDirectInternal (E : Env) (s : DNSServer) (r : Msg) (domain : string)
    : Intern (option Msg * DNSServer) :=
  if Nat.eqb (length (nameservers s)) 0 then ret (None, s)
  else
    let startIdx := startIdxOf s in
    let s' := set_nameserverIdx ((nameserverIdx s + 1) mod 2 ^ 64) s in
    do resp <- tryNameservers E r domain (nameservers s) startIdx
                 (seq 0 (length (nameservers s)));
    ret (resp, s').

(** The specification's reading of the loop: the endpoints of a list are
    tried one after the other until one yields a response. *)
Fixpoint firstResponse (E : Env) (r : Msg) (domain : string)
    (endpoints : list NameserverConfig) : Intern (option Msg) :=
  match endpoints with
  | [] => ret None
  | nameserver :: rest =>
      do resp <- tryForwardToNameserver E r nameserver domain;
      match resp with
      | Some resp => ret (Some resp)
      | None => firstResponse E r domain rest
      end
  end.

(** Consecutive forwards, one per query, with the starting index of each. *)
Fixpoint forwardMany (E : Env) (s : DNSServer) (queries : list (Msg * string))
    : Intern (list Z * DNSServer) :=
  match queries with
  | [] => ret ([], s)
  | (r, domain) :: rest =>
      do res <- forwardDirectInternal E s r domain;
      do more <- forwardMany E (snd res) rest;
      ret (startIdxOf s :: fst more, snd more)
  end.

Definition createNXDOMAINResponse (r : Msg) : Msg :=
  let msg := dns.new in
  let msg := SetReply r msg in
  let msg := set_Authoritative true msg in
  SetRcode r RcodeNameError msg.

(** ** forward.go: answering, and the registry of pending requests

    [pendingRequests] maps a cache key to the pending request of its
    leader; a pending request is the list of its waiters, and a waiter is
    the channel on which it expects the answer.  The registry is changed
    under [pendingMu] only, by the functions below, each of which is one
    critical section of the source. *)

Definition sendErrorResponse (w : ResponseWriter) (r : Msg) (rcode : Z) : Handled :=
  let msg := dns.new in
  let msg := SetReply r msg in
  let msg := SetRcode r rcode msg in
  WriteMsg w msg "Error writing response" [].

Definition sendResponse (w : ResponseWriter) (r : Msg) (resp : option Msg) : Handled :=
  match resp with
  | Some resp =>
      let resp := set_Id (Id r) resp in
      let resp := set_Question (Question r) resp in
      WriteMsg w resp "Error writing response" []
  | None => sendErrorResponse w r RcodeServerFailure
  end.

(** What [notifyWaiters] does to a waiter: it offers a message to the
    waiter's channel, or closes the channel. *)
Inductive Delivery : Type :=
| Deliver (waiter : nat) (m : Msg)
| CloseWaiter (waiter : nat).

Definition notifyWaiters (waiters : list nat) (resp : option Msg) (r : Msg)
    : list Delivery :=
  map (fun waiter =>
         match resp with
         | Some resp =>
             let respCopy := Copy resp in
             let respCopy := set_Id (Id r) respCopy in
             let respCopy := set_Question (Question r) respCopy in
             Deliver waiter respCopy
         | None => CloseWaiter waiter
         end)
    waiters.

(** What [handleFirstRequest] leaves behind: the answer to the leader's
    client, the deliveries to the waiters, the server and the registry. *)
Record Led : Type := mkLed {
  led_handled : Handled;
  led_deliveries : list Delivery;
  led_server : DNSServer;
  led_pending : gmap string (list nat) }.

(** [handleFirstRequest].  [waiters] are the waiters found on the leader's
    own pending request when it collects them; [now] is the instant of the
    second look into the cache, [later] the instant at which the answer is
    stored.  [sendResponse] stamps the answer in place, so the waiters are
    handed copies of the stamped answer.  The debug line of
    [logNegativeResponse] is not recorded. *)
Definition handleFirstRequest (E : Env) (s : DNSServer)
    (pending : gmap string (list nat)) (waiters : list nat) (w : ResponseWriter)
    (r : Msg) (domain key : string) (now later : Z) : Intern Led :=
  do cachedResp <- getCachedResponse s r [] now;
  match cachedResp with
  | Some cachedResp =>
      let h := sendResponse w r (Some cachedResp) in
      let stamped := set_Question (Question r) (set_Id (Id r) cachedResp) in
      ret (mkLed h (notifyWaiters waiters (Some stamped) r) s (delete key pending))
  | None =>
      do res <- forwardDirectInternal E s r domain;
      let (resp, s) := res in
      do stored <-
        match resp with
        | None =>
            let resp := createNXDOMAINResponse r in
            do put <- setCachedResponse E s r (Some resp) later;
            ret (resp, fst put)
        | Some resp =>
            do put <- setCachedResponse E s r (Some resp) later;
            ret (resp, fst put)
        end;
      let (resp, s) := stored in
      let h := sendResponse w r (Some resp) in
      let stamped := set_Question (Question r) (set_Id (Id r) resp) in
      ret (mkLed h (notifyWaiters waiters (Some stamped) r) s (delete key pending))
  end.

(** What a follower finds on its channel within ten seconds: a message,
    nothing but the closing of the channel (a nil message), or nothing at
    all. *)
Inductive Awaited : Type :=
| Received (resp : option Msg)
| TimedOut.

(** [waitForPendingRequest], once the follower's channel has been appended
    to the waiters of the leader's pending request.  [now] is the instant
    of the look into the cache after a timeout, [later] the instant at
    which the NXDOMAIN answer is stored. *)
Definition waitForPendingRequest (E : Env) (s : DNSServer) (w : ResponseWriter)
    (r : Msg) (seen : Awaited) (now later : Z) : Intern (Handled * DNSServer) :=
  match seen with
  | Received resp => ret (sendResponse w r resp, s)
  | TimedOut =>
      do cachedResp <- getCachedResponse s r [] now;
      match cachedResp with
      | Some cachedResp => ret (sendResponse w r (Some cachedResp), s)
      | None =>
          let resp := createNXDOMAINResponse r in
          do put <- setCachedResponse E s r (Some resp) later;
          ret (sendResponse w r (Some resp), fst put)
      end
  end.

(** How [forwardRequest] goes on after its own critical section: it has
    answered, it forwards directly, it leads the fetch for a key, or it
    waits on the pending request of a key. *)
Inductive Forwarding : Type :=
| FwdAnswered (h : Handled)
| FwdDirect
| FwdLeader (key : string)
| FwdFollower (key : string).

Definition forwardRequest (s : DNSServer) (pending : gmap string (list nat))
    (w : ResponseWriter) (r : Msg) (clientIP : net.IP) (now : Z)
    : Intern (Forwarding * gmap string (list nat)) :=
  if Nat.eqb (length (nameservers s)) 0
  then ret (FwdAnswered (sendErrorResponse w r RcodeServerFailure), pending)
  else
    do cachedResp <- getCachedResponse s r clientIP now;
    match cachedResp with
    | Some cachedResp =>
        ret (FwdAnswered (WriteMsg w cachedResp "Error writing cached response" []),
             pending)
    | None =>
        do key <- getCacheKey r;
        if String.eqb key "" then ret (FwdDirect, pending)
        else
          match pending !! key with
          | None => ret (FwdLeader key, <[key := []]> pending)
          | Some _ => ret (FwdFollower key, pending)
          end
    end.

(** [cleanupStalePendingRequests] of server.go, over the entries in the
    order [range] yields them: a pending request without waiters is
    deleted. *)
Definition cleanupStalePendingRequests
    (entries : list (string * list nat)) (pending : gmap string (list nat))
    : gmap string (list nat) :=
  fold_left
    (fun (p : gmap string (list nat)) (kw : string * list nat) =>
       if Nat.eqb (length (snd kw)) 0 then delete (fst kw) p else p)
    entries pending.

(** ** forward.go: runs of the coalescer

    [handleFirstRequest] in two halves, between which other requests and
    the sweeper get their turn: the second look into the cache with, on
    a miss, the forward; and everything after it, on the server as it is
    by then. *)
Definition fetchFirst (E : Env) (s : DNSServer) (r : Msg) (domain : string)
    (now : Z) : Intern ((Msg + option Msg) * DNSServer) :=
  do cachedResp <- getCachedResponse s r [] now;
  match cachedResp with
  | Some cachedResp => ret (inl cachedResp, s)
  | None =>
      do res <- forwardDirectInternal E s r domain;
      ret (inr (fst res), snd res)
  end.

Definition finishFirst (E : Env) (s : DNSServer)
    (pending : gmap string (list nat)) (waiters : list nat) (w : ResponseWriter)
    (r : Msg) (key : string) (later : Z) (found : Msg + option Msg) : Intern Led :=
  match found with
  | inl cachedResp =>
      let h := sendResponse w r (Some cachedResp) in
      let stamped := set_Question (Question r) (set_Id (Id r) cachedResp) in
      ret (mkLed h (notifyWaiters waiters (Some stamped) r) s (delete key pending))
  | inr resp =>
      do stored <-
        match resp with
        | None =>
            let resp := createNXDOMAINResponse r in
            do put <- setCachedResponse E s r (Some resp) later;
            ret (resp, fst put)
        | Some resp =>
            do put <- setCachedResponse E s r (Some resp) later;
            ret (resp, fst put)
        end;
      let (resp, s) := stored in
      let h := sendResponse w r (Some resp) in
      let stamped := set_Question (Question r) (set_Id (Id r) resp) in
      ret (mkLed h (notifyWaiters waiters (Some stamped) r) s (delete key pending))
  end.

(** A query handed to [forwardRequest]: its response writer, the message
    and the name the handler has normalised. *)
Record Arrival : Type := mkArrival {
  a_writer : ResponseWriter;
  a_query : Msg;
  a_domain : string }.

(** Where a query stands.  A pending request is known by its number, the
    pointer the source passes around; the channel of a follower is known
    by the number of the follower's query. *)
Inductive Stage : Type :=
| Arriving
| Leading (key : string) (own : nat)
| Fetched (key : string) (own : nat) (found : Msg + option Msg)
| Following (pending : nat)
| Waiting
| Direct
| Done (h : Handled).

(** The state of a run: the server and the interning map, the registry
    [pendingRequests] from keys to pending requests, the waiters of every
    pending request made so far, what lies in the followers' channels
    ([None] for a channel closed while empty), where each query stands,
    and the keys of the calls of [forwardDirectInternal] so far. *)
Record Run : Type := mkRun {
  run_server : DNSServer;
  run_interned : gmap string string;
  run_registry : gmap string nat;
  run_waiters : list (list nat);
  run_channels : gmap nat (option Msg);
  run_stages : list Stage;
  run_forwards : list string }.

(** The registry as [forwardRequest] and the sweeper see it: every key
    with the waiters of its pending request. *)
Definition pendingRequests (st : Run) : gmap string (list nat) :=
  (fun own => default [] (run_waiters st !! own)) <$> run_registry st.

(** One send of [notifyWaiters] on a channel of capacity one: a message is
    dropped when the channel is full. *)
Definition deliver (channels : gmap nat (option Msg)) (d : Delivery)
    : gmap nat (option Msg) :=
  match d with
  | Deliver waiter m =>
      match channels !! waiter with
      | None => <[waiter := Some m]> channels
      | Some _ => channels
      end
  | CloseWaiter waiter =>
      match channels !! waiter with
      | None => <[waiter := None]> channels
      | Some _ => channels
      end
  end.

(** The steps of a run, each a stretch of the source that runs under one
    lock or on the query's own data: a query enters [forwardRequest] and
    gets its role; a leader runs the first half of [handleFirstRequest],
    then the second; a follower appends its channel to the pending
    request it holds, then receives on it or sees its timer fire; the
    sweeper runs [cleanupStalePendingRequests]. *)
Inductive Event : Type :=
| Arrive (i : nat) (now : Z)
| Fetch (i : nat) (now : Z)
| Publish (i : nat) (later : Z)
| Join (i : nat)
| Receive (i : nat)
| Expire (i : nat) (now later : Z)
| Sweep.

(** One step; [None] when the query is not at the stage of the event.  The
    sweeper enumerates the registry in the order of [map_to_list]; what it
    deletes does not depend on the order. *)
Definition step (E : Env) (arrivals : list Arrival) (ev : Event) (st : Run)
    : option Run :=
  match ev with
  | Arrive i now =>
      match arrivals !! i, run_stages st !! i with
      | Some a, Some Arriving =>
          let '(role, _, dc) :=
            forwardRequest (run_server st) (pendingRequests st) (a_writer a)
              (a_query a) (ClientIP (a_writer a)) now (run_interned st) in
          match role with
          | FwdAnswered h =>
              Some (mkRun (run_server st) dc (run_registry st) (run_waiters st)
                      (run_channels st) (<[i := Done h]> (run_stages st))
                      (run_forwards st))
          | FwdDirect =>
              Some (mkRun (run_server st) dc (run_registry st) (run_waiters st)
                      (run_channels st) (<[i := Direct]> (run_stages st))
                      (run_forwards st))
          | FwdLeader key =>
              let own := length (run_waiters st) in
              Some (mkRun (run_server st) dc (<[key := own]> (run_registry st))
                      (run_waiters st ++ [[]])%list (run_channels st)
                      (<[i := Leading key own]> (run_stages st)) (run_forwards st))
          | FwdFollower key =>
              match run_registry st !! key with
              | Some own =>
                  Some (mkRun (run_server st) dc (run_registry st) (run_waiters st)
                          (run_channels st) (<[i := Following own]> (run_stages st))
                          (run_forwards st))
              | None => None
              end
          end
      | _, _ => None
      end
  | Fetch i now =>
      match arrivals !! i, run_stages st !! i with
      | Some a, Some (Leading key own) =>
          let '(found, s, dc) :=
            fetchFirst E (run_server st) (a_query a) (a_domain a) now
              (run_interned st) in
          Some (mkRun s dc (run_registry st) (run_waiters st) (run_channels st)
                  (<[i := Fetched key own found]> (run_stages st))
                  (match found with
                   | inl _ => run_forwards st
                   | inr _ => (run_forwards st ++ [key])%list
                   end))
      | _, _ => None
      end
  | Publish i later =>
      match arrivals !! i, run_stages st !! i with
      | Some a, Some (Fetched key own found) =>
          let waiters := default [] (run_waiters st !! own) in
          let '(led, dc) :=
            finishFirst E (run_server st) (pendingRequests st) waiters (a_writer a)
              (a_query a) key later found (run_interned st) in
          Some (mkRun (led_server led) dc (delete key (run_registry st))
                  (<[own := []]> (run_waiters st))
                  (fold_left deliver (led_deliveries led) (run_channels st))
                  (<[i := Done (led_handled led)]> (run_stages st))
                  (run_forwards st))
      | _, _ => None
      end
  | Join i =>
      match run_stages st !! i with
      | Some (Following own) =>
          Some (mkRun (run_server st) (run_interned st) (run_registry st)
                  (<[own := (default [] (run_waiters st !! own) ++ [i])%list]> (run_waiters st))
                  (run_channels st) (<[i := Waiting]> (run_stages st))
                  (run_forwards st))
      | _ => None
      end
  | Receive i =>
      match arrivals !! i, run_stages st !! i, run_channels st !! i with
      | Some a, Some Waiting, Some content =>
          let '(h, s, dc) :=
            waitForPendingRequest E (run_server st) (a_writer a) (a_query a)
              (Received content) 0 0 (run_interned st) in
          Some (mkRun s dc (run_registry st) (run_waiters st)
                  (delete i (run_channels st)) (<[i := Done h]> (run_stages st))
                  (run_forwards st))
      | _, _, _ => None
      end
  | Expire i now later =>
      match arrivals !! i, run_stages st !! i with
      | Some a, Some Waiting =>
          let '(h, s, dc) :=
            waitForPendingRequest E (run_server st) (a_writer a) (a_query a)
              TimedOut now later (run_interned st) in
          Some (mkRun s dc (run_registry st) (run_waiters st) (run_channels st)
                  (<[i := Done h]> (run_stages st)) (run_forwards st))
      | _, _ => None
      end
  | Sweep =>
      let kept :=
        cleanupStalePendingRequests (map_to_list (pendingRequests st))
          (pendingRequests st) in
      Some (mkRun (run_server st) (run_interned st)
              (filter (fun kv => is_Some (kept !! kv.1)) (run_registry st))
              (run_waiters st) (run_channels st) (run_stages st) (run_forwards st))
  end.

Fixpoint run (E : Env) (arrivals : list Arrival) (events : list Event) (st : Run)
    : option Run :=
  match events with
  | [] => Some st
  | ev :: rest =>
      match step E arrivals ev st with
      | Some st' => run E arrivals rest st'
      | None => None
      end
  end.

(** The state in which [n] queries are about to enter [forwardRequest]:
    nothing is registered and no forward has been made. *)
Definition start (s : DNSServer) (dc : gmap string string) (n : nat) : Run :=
  mkRun s dc ∅ [] ∅ (replicate n Arriving) [].

(** A query that leads the fetch for a key and has not published yet. *)
Definition leads (key : string) (own : nat) (stage : Stage) : Prop :=
  stage = Leading key own \/ exists found, stage = Fetched key own found.

(** The single flight: every leader's pending request is the one
    registered under its key, and no two leaders share a pending
    request. *)
Definition single_flight (st : Run) : Prop :=
  (forall i stage key own,
      run_stages st !! i = Some stage -> leads key own stage ->
      run_registry st !! key = Some own /\ (own < length (run_waiters st))%nat)
  /\ (forall i j si sj ki kj own,
        run_stages st !! i = Some si -> leads ki own si ->
        run_stages st !! j = Some sj -> leads kj own sj -> i = j).

Definition is_sweep (ev : Event) : bool :=
  match ev with
  | Sweep => true
  | _ => false
  end.


(** The number of colons in a string, by which a cache key is taken apart. *)
Fixpoint colons (s : string) : nat :=
  match s with
  | EmptyString => 0%nat
  | String c s' => ((if Ascii.eqb c ":"%char then 1 else 0) + colons s')%nat
  end.

(** ** Sample data: configurations, messages and surroundings *)

Module Sample.

Definition query (id : Z) (name : string) (qtype : Z) : Msg :=
  mkMsg id false 0 false false true false false false false 0 false
    [mkQuestion name qtype 1] [] [] [].

Definition cfg : Config := mkConfig 60 300 0 false false false.

(** 10.0.0.0/8, and the 16-byte addresses [net.ParseIP] yields for
    10.1.2.3 and 192.168.0.1. *)
Definition net10 : net.IPNet := net.mkIPNet [10; 0; 0; 0] [255; 0; 0; 0].
Definition client10 : net.IP := (net.v4InV6Prefix ++ [10; 1; 2; 3])%list.
Definition client192 : net.IP := (net.v4InV6Prefix ++ [192; 168; 0; 1])%list.

Definition writer (clientIP : net.IP) : ResponseWriter :=
  mkWriter clientIP (fun _ => false).

(** A server that denies ads.example to 10.0.0.0/8 and overrides
    svc.local with a text that is no IPv4 address. *)
Definition server0 : DNSServer :=
  mkDNSServer cfg
    {[ "ads.example" := BlockEntry.mk [net10] [] ]}
    {[ "svc.local" := OverwriteEntry.mk "::1" [] [] ]}
    [mkNameserver "9.9.9.9" "udp" 53]
    ∅ 0 0.

(** An upstream answer for ads.example: one A record, 300 seconds. *)
Definition adsAnswer : Msg :=
  mkMsg 7 true 0 false false true true false false false 0 false
    [mkQuestion "ads.example." 1 1]
    [A (mkHeader "ads.example." 1 1 300) [1; 2; 3; 4]] [] [].

(** A zone-file parser that knows one line. *)
Definition parseLine (line : string) : option RR :=
  if String.eqb line "svc.local. 300 IN A 127.0.0.1"
  then Some (A (mkHeader "svc.local." 1 1 300) [127; 0; 0; 1])
  else None.

(** Surroundings in which no upstream server answers and [range] follows
    the order of [map_to_list]. *)
Definition offline : Env :=
  mkEnv map_to_list parseLine (fun _ _ _ => ExchangeError) (fun _ _ => ExchangeError).

Definition noQuestion : Msg :=
  mkMsg 9 false 0 false false true false false false false 0 false [] [] [] [].

(** [server0] after a client outside 10.0.0.0/8 had ads.example
    resolved at instant 0: the upstream answer is in the cache. *)
Definition server1 : DNSServer :=
  fst (fst (setCachedResponse offline server0 (query 1 "ads.example." 1)
              (Some adsAnswer) 0 ∅)).

(** NXDOMAIN answers for gone.example with an SOA in the authority
    section: MINIMUM 0, MINIMUM 120, and MINIMUM 600 under a record
    lifetime of 60 seconds. *)
Definition nxdomain (soaTtl minttl : Z) : Msg :=
  mkMsg 7 true 0 false false true true false false false 3 false
    [mkQuestion "gone.example." 1 1] []
    [SOA (mkHeader "example." 6 1 soaTtl) "ns.example." "root.example."
       1 7200 3600 1209600 minttl] [].

(** [server1] with a cap of one cache entry. *)
Definition capped : DNSServer :=
  mkDNSServer cfg (blocked server1) (overwrites server1) (nameservers server1)
    (cache server1) 1 0.

(** A server with a cap of two cache entries that holds two: the answer
    for ads.example, stored at instant 0 and expiring after 60 seconds,
    and an NXDOMAIN for gone.example, stored one second later and
    expiring after 120 seconds more. *)
Definition capped2 : DNSServer :=
  mkDNSServer cfg (blocked server1) (overwrites server1) (nameservers server1)
    (cache (fst (fst (setCachedResponse offline server1 (query 1 "gone.example." 1)
                        (Some (nxdomain 3600 120)) Second ∅))))
    2 0.

(** Upstream answers: a full answer to a query, and a truncated one
    with or without the question section. *)
Definition answerTo (r : Msg) : Msg :=
  mkMsg (Id r) true 0 false false true true false false false 0 false
    (Question r)
    (match Question r with
     | q :: _ => [A (mkHeader (Name q) 1 1 300) [1; 2; 3; 4]]
     | [] => []
     end) [] [].

Definition truncatedTo (r : Msg) : Msg :=
  mkMsg (Id r) true 0 false true true true false false false 0 false
    (Question r) [] [] [].

Definition truncatedBare (r : Msg) : Msg :=
  mkMsg (Id r) true 0 false true true true false false false 0 false
    [] [] [] [].

(** Surroundings in which every server answers in full; in which UDP
    answers are truncated and TCP answers are full; and the same with
    truncated answers that carry no question. *)
Definition healthy : Env :=
  mkEnv map_to_list parseLine (fun _ r _ => ExchangeOK (Some (answerTo r)))
    (fun _ r => ExchangeOK (Some (answerTo r))).

Definition truncating : Env :=
  mkEnv map_to_list parseLine
    (fun c r _ =>
       if String.eqb (Net c) "tcp" then ExchangeOK (Some (answerTo r))
       else ExchangeOK (Some (truncatedTo r)))
    (fun _ _ => ExchangeError).

Definition truncatingBare : Env :=
  mkEnv map_to_list parseLine
    (fun c r _ =>
       if String.eqb (Net c) "tcp" then ExchangeOK (Some (answerTo r))
       else ExchangeOK (Some (truncatedBare r)))
    (fun _ _ => ExchangeError).

Definition udpServer : NameserverConfig := mkNameserver "9.9.9.9" "udp" 53.

(** Three name servers, the counter five forwards short of wrapping
    around, and nine queries. *)
Definition threeServers (idx : Z) : DNSServer :=
  mkDNSServer cfg ∅ ∅
    [mkNameserver "9.9.9.9" "udp" 53; mkNameserver "8.8.8.8" "udp" 53;
     mkNameserver "1.1.1.1" "udp" 53]
    ∅ 0 idx.

Definition nineQueries : list (Msg * string) :=
  replicate 9 (query 1 "a.example." 1, "a.example").

(** [server0] with ads.example denied to every client. *)
Definition server3 : DNSServer :=
  fst (addBlockedDomain server0 "Ads.Example." None ∅).

(** [server0] with an override for svc.local that is an IPv4 address, and
    no name server at all. *)
Definition server4 : DNSServer :=
  mkDNSServer cfg (blocked server0)
    {[ "svc.local" := OverwriteEntry.mk "127.0.0.1" [] [] ]}
    [] ∅ 0 0.


(** Two clients ask for the same name, in different spellings, and the
    state in which the first of them leads the fetch and has asked the
    upstream servers, while nobody waits on its pending request. *)
Definition twoArrivals : list Arrival :=
  [mkArrival (writer client192) (query 1 "a.example." 1) "a.example";
   mkArrival (writer client10) (query 2 "A.Example." 1) "a.example"].

Definition inFlight : Run :=
  default (start server0 ∅ 2)
    (run healthy twoArrivals [Arrive 0 0; Fetch 0 0] (start server0 ∅ 2)).

(** An address parser that knows 0.0.0.0 only. *)
Definition parseIP (text : string) : option net.IP :=
  if String.eqb text "0.0.0.0"
  then Some (net.v4InV6Prefix ++ [0; 0; 0; 0])%list
  else None.

End Sample.

(** * Properties *)

(** ** The domain normaliser *)

Section Normalizer.

Example normalize_example : normalize "  WWW.Example.COM. " = "www.example.com".
Proof. reflexivity. Qed.

Example normalizeDomain_example :
  fst (normalizeDomain "Ads.Example." ∅) = "ads.example".
Proof. vm_compute. reflexivity. Qed.

Lemma lowerByte_not_upper (c : ascii) : isUpper (lowerByte c) = false.
Proof.
  destruct c as [b0 b1 b2 b3 b4 b5 b6 b7].
  destruct b0, b1, b2, b3, b4, b5, b6, b7; reflexivity.
Qed.

Lemma lowercase_ToLower (s : string) : lowercase (ToLower s) = true.
Proof.
  induction s as [|c s IH]; simpl; [reflexivity|].
  rewrite lowerByte_not_upper, IH. reflexivity.
Qed.








Lemma last_byte_cons (c a : ascii) (t : string) :
  last_byte (String c (String a t)) = last_byte (String a t).
Proof. reflexivity. Qed.











Lemma normalizeDomain_interned (dc : gmap string string) (x : string) :
  interned_ok dc -> fst (normalizeDomain x dc) = normalize x.
Proof.
  intros Hok. unfold normalizeDomain.
  destruct (dc !! x) as [v|] eqn:Hx; [exact (Hok _ _ Hx)|].
  cbv zeta. repeat case_decide; reflexivity.
Qed.






(** The same happens to trailing white space in front of a dot. *)
Example normalize_space_dot : normalize "a ." = "a ".
Proof. reflexivity. Qed.

(** The entry interned for the result itself shadows later inputs: once
    "a.." has been normalised, "a." is its own normal form. *)
Example normalizeDomain_interned_shadow :
  fst (normalizeDomain "a." ∅) = "a" /\
  fst (normalizeDomain "a." (snd (normalizeDomain "a.." ∅))) = "a.".
Proof. vm_compute. split; reflexivity. Qed.

End Normalizer.

(** ** The request handler *)

Section Handler.

Variable E : Env.

Lemma getCacheKey_no_question (r : Msg) (dc : gmap string string) :
  Question r = [] -> getCacheKey r dc = ("", dc).
Proof. intros H. unfold getCacheKey. now rewrite H. Qed.

Lemma getCachedResponse_no_question (s : DNSServer) (r : Msg) (c : net.IP)
    (now : Z) (dc : gmap string string) :
  Question r = [] -> getCachedResponse s r c now dc = (None, dc).
Proof.
  intros H. unfold getCachedResponse.
  destruct (_ && _); [reflexivity|].
  unfold bind. now rewrite getCacheKey_no_question.
Qed.

(** C2 (what the code does).  A message without a question is not
    rejected: the cache lookup finds no key for it, and the handler then
    reads the first question of an empty section, which is a run-time
    panic; nothing is written. *)
Theorem handleDNSRequest_no_question (s : DNSServer) (w : ResponseWriter)
    (r : Msg) (now : Z) (dc : gmap string string) :
  Question r = [] ->
  handleDNSRequest E s w r now dc = (mkHandled [] [] Panicked, dc).
Proof.
  intros H. unfold handleDNSRequest, bind.
  rewrite getCachedResponse_no_question by exact H.
  now rewrite H.
Qed.

(** The reply for a denied name, which is the one [createNXDOMAINResponse]
    builds. *)
Lemma createNXDOMAINResponse_fields (r : Msg) (q : DNSQuestion) (rest : list DNSQuestion) :
  Question r = q :: rest ->
  Rcode (createNXDOMAINResponse r) = RcodeNameError /\
  Authoritative (createNXDOMAINResponse r) = true /\
  Response (createNXDOMAINResponse r) = true /\
  Id (createNXDOMAINResponse r) = Id r /\
  Question (createNXDOMAINResponse r) = [q] /\
  Answer (createNXDOMAINResponse r) = [].
Proof.
  intros H. unfold createNXDOMAINResponse, SetRcode, SetReply. rewrite H.
  repeat match goal with |- context [if ?b then _ else _] => destruct b end;
    repeat split; reflexivity.
Qed.

(** C1 (amended).  The handler looks into the cache first: a live cache
    entry for the query's key is written to the client, whatever the
    deny list says.  When the cache has no live entry and the name is
    denied for the client, the handler writes NXDOMAIN with AA set,
    before any override or upstream server is consulted. *)
Theorem handleDNSRequest_cache_then_policy (s : DNSServer) (w : ResponseWriter)
    (r : Msg) (q : DNSQuestion) (rest : list DNSQuestion) (now : Z)
    (dc dc1 dc2 : gmap string string) (cached : option Msg) (domain : string) :
  Question r = q :: rest ->
  getCachedResponse s r (ClientIP w) now dc = (cached, dc1) ->
  normalizeDomain (Name q) dc1 = (domain, dc2) ->
  isBlocked s domain (ClientIP w) = true ->
  match cached with
  | Some m =>
      handleDNSRequest E s w r now dc
      = (WriteMsg w m "Error writing cached response" [], dc1)
  | None =>
      handleDNSRequest E s w r now dc
      = (WriteMsg w (createNXDOMAINResponse r) "Error writing response"
           (if LogBlocks (config s) then [LogBlocked domain (ClientIP w)] else []),
         dc2)
      /\ Rcode (createNXDOMAINResponse r) = RcodeNameError
      /\ Authoritative (createNXDOMAINResponse r) = true
      /\ Id (createNXDOMAINResponse r) = Id r
      /\ Question (createNXDOMAINResponse r) = [q]
  end.
Proof.
  intros Hq Hc Hn Hb. unfold handleDNSRequest, bind. rewrite Hc.
  destruct cached as [m|]; [reflexivity|].
  rewrite Hq, Hn, Hb. split; [reflexivity|].
  destruct (createNXDOMAINResponse_fields r q rest Hq) as (H1 & H2 & _ & H4 & H5 & _).
  auto.
Qed.

(** C10.  An override that matches the name and the client, but whose
    text [dns.NewRR] does not accept as the target of an A record, is
    not answered: when the cache has no live entry and the name is not
    denied, the handler writes nothing, logs no error (only the override
    line, when override logging is on) and hands the query to
    [forwardRequest].  Loading the configuration does not reject such a
    text: a non-empty string is stored as it is. *)
Theorem handleDNSRequest_unparsable_override (s : DNSServer) (w : ResponseWriter)
    (r : Msg) (q : DNSQuestion) (rest : list DNSQuestion) (now : Z)
    (dc dc1 dc2 : gmap string string) (domain ip : string)
    (name : string) (dcp : gmap string string) :
  Question r = q :: rest ->
  getCachedResponse s r (ClientIP w) now dc = (None, dc1) ->
  normalizeDomain (Name q) dc1 = (domain, dc2) ->
  isBlocked s domain (ClientIP w) = false ->
  getOverwrite s domain (ClientIP w) = (ip, true) ->
  NewRR E (Name q ++ " 300 IN A " ++ ip) = None ->
  handleDNSRequest E s w r now dc
  = (mkHandled []
       (if LogOverwrites (config s) then [LogOverwrite domain ip (ClientIP w)] else [])
       (Forwarded domain (ClientIP w)),
     dc2)
  /\ (ip <> "" ->
      fst (parseOverwrites [(name, YString ip)] dcp)
      = Some {[ fst (normalizeDomain name dcp) := OverwriteEntry.mk ip [] [] ]}).
Proof.
  intros Hq Hc Hn Hb Ho Hrr. split.
  - unfold handleDNSRequest, bind. rewrite Hc, Hq, Hn, Hb, Ho, Hrr. reflexivity.
  - intros Hip. unfold parseOverwrites, parseOverwritesFrom, bind.
    cbn [OverwriteEntry.IP].
    destruct (String.eqb ip "") eqn:Heq.
    + apply String.eqb_eq in Heq. contradiction.
    + destruct (normalizeDomain name dcp) as [key dcp']. reflexivity.
Qed.

End Handler.

Lemma handleDNSRequest_no_question_witness :
  Question Sample.noQuestion = [] /\
  control (fst (handleDNSRequest Sample.offline Sample.server0
                  (Sample.writer Sample.client10) Sample.noQuestion 0 ∅))
  = Panicked.
Proof.
  split; [reflexivity|].
  rewrite (handleDNSRequest_no_question Sample.offline Sample.server0
             (Sample.writer Sample.client10) Sample.noQuestion 0 ∅ eq_refl).
  reflexivity.
Defined.

(** C1, as stated, fails: ads.example is denied to 10.0.0.0/8, another
    client had it resolved, and one second later the denied client
    10.1.2.3 is handed the cached upstream answer, not NXDOMAIN. *)
Lemma denied_client_gets_cached_answer :
  let h := fst (handleDNSRequest Sample.offline Sample.server1
                  (Sample.writer Sample.client10)
                  (Sample.query 2 "ads.example." 1) Second ∅) in
  isBlocked Sample.server1 (normalize "ads.example.") Sample.client10 = true /\
  written h = [set_Id 2 Sample.adsAnswer] /\
  Rcode (set_Id 2 Sample.adsAnswer) <> RcodeNameError.
Proof. vm_compute. repeat split; discriminate. Qed.

Lemma handleDNSRequest_cache_then_policy_witness :
  let r := Sample.query 2 "ads.example." 1 in
  let w := Sample.writer Sample.client10 in
  written (fst (handleDNSRequest Sample.offline Sample.server0 w r 0 ∅))
  = [createNXDOMAINResponse r]
  /\ written (fst (handleDNSRequest Sample.offline Sample.server1 w r Second ∅))
     = [set_Id 2 Sample.adsAnswer].
Proof.
  intros r w. split.
  - pose proof (handleDNSRequest_cache_then_policy Sample.offline Sample.server0 w r
                  (mkQuestion "ads.example." 1 1) [] 0 ∅
                  (snd (getCachedResponse Sample.server0 r (ClientIP w) 0 ∅))
                  (snd (normalizeDomain "ads.example."
                          (snd (getCachedResponse Sample.server0 r (ClientIP w) 0 ∅))))
                  None "ads.example" eq_refl) as H.
    cbv beta iota in H.
    destruct H as [H _]; [vm_compute; reflexivity .. |].
    rewrite H. reflexivity.
  - pose proof (handleDNSRequest_cache_then_policy Sample.offline Sample.server1 w r
                  (mkQuestion "ads.example." 1 1) [] Second ∅
                  (snd (getCachedResponse Sample.server1 r (ClientIP w) Second ∅))
                  (snd (normalizeDomain "ads.example."
                          (snd (getCachedResponse Sample.server1 r (ClientIP w) Second ∅))))
                  (Some (set_Id 2 Sample.adsAnswer)) "ads.example" eq_refl) as H.
    cbv beta iota in H.
    rewrite H; [reflexivity | vm_compute; reflexivity ..].
Defined.

Lemma handleDNSRequest_unparsable_override_witness :
  let r := Sample.query 3 "svc.local." 1 in
  let w := Sample.writer Sample.client192 in
  getOverwrite Sample.server0 "svc.local" (ClientIP w) = ("::1", true) /\
  NewRR Sample.offline ("svc.local." ++ " 300 IN A " ++ "::1") = None /\
  fst (handleDNSRequest Sample.offline Sample.server0 w r 0 ∅)
  = mkHandled [] [] (Forwarded "svc.local" Sample.client192).
Proof.
  intros r w.
  split; [vm_compute; reflexivity|]. split; [vm_compute; reflexivity|].
  pose proof (handleDNSRequest_unparsable_override Sample.offline Sample.server0 w r
                (mkQuestion "svc.local." 1 1) [] 0 ∅
                (snd (getCachedResponse Sample.server0 r (ClientIP w) 0 ∅))
                (snd (normalizeDomain "svc.local."
                        (snd (getCachedResponse Sample.server0 r (ClientIP w) 0 ∅))))
                "svc.local" "::1" "svc.local" ∅ eq_refl) as H.
  destruct H as [H _]; [vm_compute; reflexivity .. |].
  rewrite H. reflexivity.
Defined.

(** ** The response cache *)

Section CacheTTL.

Variable E : Env.

Lemma soaTTL_firstSOA (ns : list RR) (ttl : Z) :
  soaTTL ns ttl =
  match firstSOA ns with
  | Some m => if (0 <? m) && (m <? ttl) then m else ttl
  | None => ttl
  end.
Proof.
  induction ns as [|rr ns IH]; [reflexivity|].
  destruct rr; cbn [soaTTL firstSOA]; auto.
Qed.

Lemma minPositive_min (ttls : list Z) (t b : Z) :
  minPositive ttls (Z.min t b) = Z.min t (minPositive ttls b).
Proof.
  induction ttls as [|a ttls IH]; [reflexivity|].
  cbn [minPositive fold_right]. fold (minPositive ttls (Z.min t b)).
  fold (minPositive ttls b). rewrite IH.
  destruct (0 <? a); lia.
Qed.

Lemma authorityTTL_minPositive (ns : list RR) (ttl : Z) :
  authorityTTL ns ttl = minPositive (map (fun rr => Ttl (Header rr)) ns) ttl.
Proof.
  revert ttl. induction ns as [|rr ns IH]; intros ttl; [reflexivity|].
  unfold authorityTTL in *. cbn [fold_left map]. rewrite IH.
  cbn [minPositive fold_right].
  fold (minPositive (map (fun rr => Ttl (Header rr)) ns) ttl).
  destruct (0 <? Ttl (Header rr)) eqn:Hpos; cbn [andb].
  - rewrite <- minPositive_min.
    destruct (Ttl (Header rr) <? ttl) eqn:Hlt; f_equal;
      [apply Z.ltb_lt in Hlt | apply Z.ltb_ge in Hlt]; lia.
  - reflexivity.
Qed.

Lemma minPositive_bounds (ttls : list Z) (b : Z) :
  1 <= b -> 1 <= minPositive ttls b <= b.
Proof.
  intros Hb. induction ttls as [|a ttls IH]; cbn [minPositive fold_right]; [lia|].
  fold (minPositive ttls b).
  destruct (0 <? a) eqn:Hpos; [apply Z.ltb_lt in Hpos|]; lia.
Qed.

Lemma negativeTTLOf_bounds (neg : Z) (resp : Msg) :
  1 <= neg ->
  1 <= negativeTTLOf neg resp <= neg
  /\ (forall m, firstSOA (Ns resp) = Some m -> 0 < m ->
      negativeTTLOf neg resp <= Z.min neg m
      /\ (m < neg -> negativeTTLOf neg resp = m))
  /\ (firstSOA (Ns resp) = None ->
      negativeTTLOf neg resp
      = minPositive (map (fun rr => Ttl (Header rr)) (Ns resp)) neg).
Proof.
  intros Hneg. unfold negativeTTLOf.
  pose proof (minPositive_bounds (map (fun rr => Ttl (Header rr)) (Ns resp)) neg Hneg) as Hmp.
  destruct (Ns resp) as [|rr ns] eqn:Hns.
  - cbn [length Nat.ltb Nat.leb map minPositive fold_right].
    split; [lia|]. split; [intros m Hm; discriminate Hm | reflexivity].
  - cbn [length Nat.ltb Nat.leb]. rewrite soaTTL_firstSOA, !authorityTTL_minPositive.
    destruct (firstSOA (rr :: ns)) as [m|].
    + destruct (0 <? m) eqn:Hpos; cbn [andb].
      * apply Z.ltb_lt in Hpos.
        destruct (m <? neg) eqn:Hlt; [apply Z.ltb_lt in Hlt | apply Z.ltb_ge in Hlt].
        -- assert (Hne : (m =? neg) = false) by (apply Z.eqb_neq; lia).
           rewrite Hne. split; [lia|]. split.
           ++ intros m' Hm' _. injection Hm' as <-. split; lia.
           ++ intros Hn. discriminate Hn.
        -- rewrite Z.eqb_refl. split; [lia|]. split.
           ++ intros m' Hm' _. injection Hm' as <-. split; lia.
           ++ intros Hn. discriminate Hn.
      * apply Z.ltb_ge in Hpos. rewrite Z.eqb_refl. split; [lia|]. split.
        -- intros m' Hm' Hpos'. injection Hm' as <-. lia.
        -- intros Hn. discriminate Hn.
    + rewrite Z.eqb_refl. split; [lia|]. split.
      * intros m Hm. discriminate Hm.
      * reflexivity.
Qed.

(** What [cacheNegativeResponse] stores, and for how long. *)
Lemma cacheNegativeResponse_stores (s : DNSServer) (r resp : Msg) (key : string)
    (now : Z) (dc : gmap string string) :
  let neg := NegativeCacheTTL (config s) in
  let res := fst (cacheNegativeResponse E s r resp key now dc) in
  (neg < 1 -> res = (s, Skipped))
  /\ (1 <= neg ->
      exists ttl,
        snd res = Stored key ttl
        /\ cache (fst res) !! key
           = Some (mkCacheEntry resp (Time_Add now (Duration_seconds ttl)))
        /\ 1 <= ttl <= neg
        /\ (forall m, firstSOA (Ns resp) = Some m -> 0 < m ->
            ttl <= Z.min neg m /\ (m < neg -> ttl = m))
        /\ (firstSOA (Ns resp) = None ->
            ttl = minPositive (map (fun rr => Ttl (Header rr)) (Ns resp)) neg)).
Proof.
  intros neg res. subst res. unfold cacheNegativeResponse. fold neg. split.
  - intros Hlt. assert (Hle : (neg <=? 0) = true) by (apply Z.leb_le; lia).
    now rewrite Hle.
  - intros Hge. assert (Hle : (neg <=? 0) = false) by (apply Z.leb_gt; lia).
    rewrite Hle.
    destruct (negativeTTLOf_bounds neg resp Hge) as (Hb & Hsoa & Hnone).
    assert (Hlt : (negativeTTLOf neg resp <? 1) = false) by (apply Z.ltb_ge; lia).
    rewrite Hlt. unfold bind.
    destruct (logCachedNegative resp r (negativeTTLOf neg resp) dc) as [u dc'].
    cbn [fst snd]. exists (negativeTTLOf neg resp).
    split; [reflexivity|]. split; [|auto].
    unfold set_cache. cbn [cache]. apply lookup_insert_eq.
Qed.

(** C4 (amended).  For a negative answer handed to [setCachedResponse]:
    nothing is cached when the configured negative lifetime is below one
    second.  Otherwise the stored lifetime lies between 1 and the
    configured value; it is the MINIMUM of the first SOA of the authority
    section when that is positive and below the configured value, so with
    a first SOA of positive MINIMUM [m] it is at most
    [min negative_ttl m]; and without an SOA it is the smaller of the
    configured value and the smallest positive lifetime of an authority
    record. *)
Theorem setCachedResponse_negative_ttl (s : DNSServer) (r resp : Msg)
    (now : Z) (dc : gmap string string) :
  isNegativeResponse (Some resp) = true ->
  let neg := NegativeCacheTTL (config s) in
  let res := fst (setCachedResponse E s r (Some resp) now dc) in
  (neg < 1 -> res = (s, Skipped))
  /\ (forall key ttl,
        snd res = Stored key ttl ->
        cache (fst res) !! key
        = Some (mkCacheEntry resp (Time_Add now (Duration_seconds ttl)))
        /\ 1 <= ttl <= neg
        /\ (forall m, firstSOA (Ns resp) = Some m -> 0 < m ->
            ttl <= Z.min neg m /\ (m < neg -> ttl = m))
        /\ (firstSOA (Ns resp) = None ->
            ttl = minPositive (map (fun rr => Ttl (Header rr)) (Ns resp)) neg)).
Proof.
  intros Hneg neg res. subst res. unfold setCachedResponse, bind.
  destruct (getCacheKey r dc) as [key dc1].
  destruct (String.eqb key "");
    [split; [reflexivity | intros key' ttl H; discriminate H]|].
  destruct (validateResponse (Some r) (Some resp) dc1) as [valid dc2].
  destruct valid; cbn [negb].
  2:{ destruct (Question r) as [|q qs];
        [|destruct (normalizeDomain (Name q) dc2)];
        (split; [reflexivity | intros key' ttl H; discriminate H]). }
  rewrite Hneg.
  pose proof (cacheNegativeResponse_stores s r resp key now dc2) as [Hoff Hon].
  fold neg in Hoff, Hon. split; [exact Hoff|].
  intros key' ttl Hst.
  destruct (Z_lt_le_dec neg 1) as [Hlt|Hge].
  - rewrite (Hoff Hlt) in Hst. discriminate Hst.
  - destruct (Hon Hge) as (ttl0 & Hst0 & Hentry & Hrest).
    rewrite Hst0 in Hst. injection Hst as <- <-. split; [exact Hentry | exact Hrest].
Qed.

End CacheTTL.

Lemma setCachedResponse_negative_ttl_witness :
  let resp := Sample.nxdomain 3600 120 in
  let res := fst (setCachedResponse Sample.offline Sample.server0
                    (Sample.query 1 "gone.example." 1) (Some resp) 0 ∅) in
  isNegativeResponse (Some resp) = true /\
  snd res = Stored "gone.example:1:1" 120 /\
  120 <= Z.min (NegativeCacheTTL (config Sample.server0)) 120.
Proof.
  intros resp res.
  assert (Hneg : isNegativeResponse (Some resp) = true) by reflexivity.
  assert (Hst : snd res = Stored "gone.example:1:1" 120) by (vm_compute; reflexivity).
  split; [exact Hneg|]. split; [exact Hst|].
  destruct (proj2 (setCachedResponse_negative_ttl Sample.offline Sample.server0
                     (Sample.query 1 "gone.example." 1) resp 0 ∅ Hneg)
              "gone.example:1:1" 120 Hst) as (_ & _ & Hsoa & _).
  apply (Hsoa 120 eq_refl). reflexivity.
Defined.

(** C4, as stated, fails: with a negative lifetime of 300 seconds, an
    NXDOMAIN answer whose SOA has MINIMUM 0 is cached for 300 seconds,
    which is more than [min 300 0]. *)
Lemma negative_ttl_zero_minimum_counterexample :
  let resp := Sample.nxdomain 3600 0 in
  isNegativeResponse (Some resp) = true /\
  firstSOA (Ns resp) = Some 0 /\
  snd (fst (setCachedResponse Sample.offline Sample.server0
              (Sample.query 1 "gone.example." 1) (Some resp) 0 ∅))
  = Stored "gone.example:1:1" 300 /\
  ~ 300 <= Z.min (NegativeCacheTTL (config Sample.server0)) 0.
Proof. vm_compute. repeat split; try discriminate. intros H. apply H. reflexivity. Qed.

(** The pass over the authority records also runs when an SOA was found
    and left the lifetime unchanged: MINIMUM 600 does not lower 300, and
    the SOA record's own lifetime of 60 seconds is taken. *)
Example negative_ttl_fallback_with_soa :
  negativeTTLOf 300 (Sample.nxdomain 60 600) = 60.
Proof. reflexivity. Qed.

Section CacheStore.

Variable E : Env.

(** The server on which an entry is inserted: the given one, or the one
    left by an eviction when the cache is at its cap. *)
Lemma evictOldestCacheEntry_frame (s : DNSServer) (now : Z) :
  config (evictOldestCacheEntry E s now) = config s
  /\ maxCacheSize (evictOldestCacheEntry E s now) = maxCacheSize s.
Proof.
  unfold evictOldestCacheEntry.
  destruct (oldestEntry (range_cache E (cache s))) as [[k t] f].
  destruct (f && After now t); [now split|]. destruct f; now split.
Qed.

Lemma setCachedResponse_cases (s : DNSServer) (r : Msg) (resp : option Msg)
    (now : Z) (dc : gmap string string) :
  let res := fst (setCachedResponse E s r resp now dc) in
  let s0 :=
    if (0 <? maxCacheSize s) && (maxCacheSize s <=? Z.of_nat (size (cache s)))
    then evictOldestCacheEntry E s now else s in
  (snd res = Skipped /\ fst res = s)
  \/ (exists resp' key ttl,
        resp = Some resp'
        /\ snd res = Stored key ttl
        /\ key <> ""
        /\ key = fst (getCacheKey r dc)
        /\ (0 < CacheTTL (config s) \/ 0 < NegativeCacheTTL (config s))
        /\ fst res
           = set_cache
               (<[key := mkCacheEntry resp' (Time_Add now (Duration_seconds ttl))]>
                  (cache s0)) s0).
Proof.
  intros res s0. subst res. unfold setCachedResponse.
  destruct resp as [resp'|]; [|left; now split].
  unfold bind. destruct (getCacheKey r dc) as [key dc1] eqn:Hkey.
  destruct (String.eqb key "") eqn:Hne; [left; now split|].
  apply String.eqb_neq in Hne.
  destruct (validateResponse (Some r) (Some resp') dc1) as [valid dc2].
  destruct valid; cbn [negb].
  2:{ destruct (Question r) as [|q qs];
        [|destruct (normalizeDomain (Name q) dc2)]; left; now split. }
  destruct (isNegativeResponse (Some resp')).
  - unfold cacheNegativeResponse.
    destruct (NegativeCacheTTL (config s) <=? 0) eqn:Hoff; [left; now split|].
    apply Z.leb_gt in Hoff.
    destruct (negativeTTLOf (NegativeCacheTTL (config s)) resp' <? 1);
      [left; now split|].
    unfold bind. destruct (logCachedNegative _ _ _ dc2) as [u dc3].
    right. exists resp', key, (negativeTTLOf (NegativeCacheTTL (config s)) resp').
    cbn [fst snd]. repeat split; auto.
  - unfold cachePositiveResponse.
    destruct (CacheTTL (config s) <=? 0) eqn:Hoff; [left; now split|].
    apply Z.leb_gt in Hoff.
    destruct (negb (Rcode resp' =? RcodeSuccess) || Nat.eqb (length (Answer resp')) 0);
      [left; now split|].
    destruct (positiveTTLOf (CacheTTL (config s)) resp' <? 1); [left; now split|].
    unfold bind.
    right. exists resp', key, (positiveTTLOf (CacheTTL (config s)) resp').
    destruct (Question r) as [|q qs];
      [|destruct (normalizeDomain (Name q) dc2)]; cbn [fst snd ret];
      repeat split; auto.
Qed.

(** C6.  When [setCachedResponse] has stored the answer [resp], a lookup
    whose query has the key of the stored entry, made no later than the
    entry expires, yields a message whose identifier, question section,
    RD and CD bits are those of the looking query, and whose every other
    field is that of [resp]. *)
Theorem cache_round_trip (s : DNSServer) (r resp : Msg) (now : Z)
    (dc dc' : gmap string string) (s' : DNSServer) (key : string) (ttl : Z)
    (r' : Msg) (c : net.IP) (now' : Z) (dc1 : gmap string string) :
  setCachedResponse E s r (Some resp) now dc = (s', Stored key ttl, dc') ->
  fst (getCacheKey r' dc1) = key ->
  now' <= Time_Add now (Duration_seconds ttl) ->
  exists m : Msg,
    fst (getCachedResponse s' r' c now' dc1) = Some m
    /\ Id m = Id r' /\ Question m = Question r'
    /\ RecursionDesired m = RecursionDesired r'
    /\ CheckingDisabled m = CheckingDisabled r'
    /\ Rcode m = Rcode resp /\ Response m = Response resp
    /\ Opcode m = Opcode resp /\ Authoritative m = Authoritative resp
    /\ Truncated m = Truncated resp
    /\ RecursionAvailable m = RecursionAvailable resp
    /\ Zero m = Zero resp /\ AuthenticatedData m = AuthenticatedData resp
    /\ Compress m = Compress resp
    /\ Answer m = Answer resp /\ Ns m = Ns resp /\ Extra m = Extra resp.
Proof.
  intros Hput Hkey Hnow.
  pose proof (setCachedResponse_cases s r (Some resp) now dc) as Hc.
  cbv zeta in Hc. rewrite Hput in Hc. cbn [fst snd] in Hc.
  destruct Hc as [[Hs _]|(resp' & key' & ttl' & Hr & Hst & Hne & _ & Hon & Hs')];
    [discriminate Hs|].
  injection Hr as <-. injection Hst as <- <-.
  assert (Hcfg : config s' = config s).
  { rewrite Hs'. unfold set_cache. cbn [config].
    destruct (_ && _); [apply evictOldestCacheEntry_frame | reflexivity]. }
  assert (Hlook : cache s' !! key
                  = Some (mkCacheEntry resp (Time_Add now (Duration_seconds ttl)))).
  { rewrite Hs'. unfold set_cache. cbn [cache]. apply lookup_insert_eq. }
  unfold getCachedResponse. rewrite Hcfg.
  assert (Hen : (CacheTTL (config s) <=? 0) && (NegativeCacheTTL (config s) <=? 0) = false).
  { apply andb_false_iff. destruct Hon; [left | right]; apply Z.leb_gt; lia. }
  rewrite Hen. unfold bind.
  destruct (getCacheKey r' dc1) as [k dc2]. cbn [fst] in Hkey. subst k.
  assert (Hne' : String.eqb key "" = false) by (now apply String.eqb_neq).
  rewrite Hne', Hlook. cbn [ExpiresAt Message].
  assert (Hlive : After now' (Time_Add now (Duration_seconds ttl)) = false).
  { unfold After. apply Z.ltb_ge. exact Hnow. }
  rewrite Hlive.
  destruct (logCacheHit _ r' dc2) as [u dc3]. cbn [fst].
  eexists. split; [reflexivity|]. repeat split.
Qed.

End CacheStore.

Lemma cache_round_trip_witness :
  let put := setCachedResponse Sample.offline Sample.server0
               (Sample.query 1 "ads.example." 1) (Some Sample.adsAnswer) 0 ∅ in
  let r' := Sample.query 2 "ADS.Example." 1 in
  snd (fst put) = Stored "ads.example:1:1" 60 /\
  fst (getCachedResponse (fst (fst put)) r' Sample.client192 (59 * Second) (snd put))
  = Some (set_Question (Question r') (set_Id 2 Sample.adsAnswer)).
Proof.
  intros put r'. split; [vm_compute; reflexivity|].
  destruct (cache_round_trip Sample.offline Sample.server0
              (Sample.query 1 "ads.example." 1) Sample.adsAnswer 0 ∅ (snd put)
              (fst (fst put)) "ads.example:1:1" 60 r' Sample.client192
              (59 * Second) (snd put))
    as (m & Hm & _); [vm_compute; reflexivity | vm_compute; reflexivity
                      | vm_compute; discriminate |].
  rewrite Hm. vm_compute in Hm. injection Hm as <-. vm_compute. reflexivity.
Defined.

Section CacheBound.

Variable E : Env.
Hypothesis range_is_ok : range_ok E.

Lemma oldest_fold (l : list (string * CacheEntry)) (k : string) (t : Z) :
  exists k' t',
    fold_left oldestStep l (k, t, true) = (k', t', true)
    /\ t' <= t
    /\ (forall ke, ke ∈ l -> t' <= ExpiresAt (snd ke))
    /\ ((k', t') = (k, t) \/ exists e, (k', e) ∈ l /\ ExpiresAt e = t').
Proof.
  revert k t. induction l as [|[k0 e0] l IH]; intros k t.
  - exists k, t. cbn. repeat split; [lia | | now left].
    intros ke Hke. now apply elem_of_nil in Hke.
  - cbn [fold_left oldestStep negb orb fst snd]. unfold Before.
    destruct (ExpiresAt e0 <? t) eqn:Hlt;
      [apply Z.ltb_lt in Hlt | apply Z.ltb_ge in Hlt].
    + destruct (IH k0 (ExpiresAt e0)) as (k' & t' & Hf & Hle & Hmin & Hin).
      exists k', t'. split; [exact Hf|]. split; [lia|]. split.
      * intros ke Hke. apply elem_of_cons in Hke as [->|Hke]; [exact Hle | auto].
      * right. destruct Hin as [[= -> ->]|(e & He & Ht)].
        -- exists e0. split; [apply list_elem_of_here | reflexivity].
        -- exists e. split; [now apply list_elem_of_further | exact Ht].
    + destruct (IH k t) as (k' & t' & Hf & Hle & Hmin & Hin).
      exists k', t'. split; [exact Hf|]. split; [exact Hle|]. split.
      * intros ke Hke. apply elem_of_cons in Hke as [->|Hke]; [cbn [snd]; lia | auto].
      * destruct Hin as [Heq|(e & He & Ht)]; [now left|].
        right. exists e. split; [now apply list_elem_of_further | exact Ht].
Qed.

Lemma oldestEntry_min (l : list (string * CacheEntry)) :
  l <> [] ->
  exists k e,
    oldestEntry l = (k, ExpiresAt e, true)
    /\ (k, e) ∈ l
    /\ (forall ke, ke ∈ l -> ExpiresAt e <= ExpiresAt (snd ke)).
Proof.
  destruct l as [|[k0 e0] l]; [congruence|]. intros _.
  unfold oldestEntry. change (fold_left _ ((k0, e0) :: l) ("", 0, false))
    with (fold_left oldestStep l (k0, ExpiresAt e0, true)).
  destruct (oldest_fold l k0 (ExpiresAt e0)) as (k' & t' & Hf & Hle & Hmin & Hin).
  destruct Hin as [[= -> ->]|(e & He & Ht)].
  - exists k0, e0. split; [exact Hf|]. split; [apply list_elem_of_here|].
    intros ke Hke. apply elem_of_cons in Hke as [->|Hke]; [cbn [snd]; lia | auto].
  - exists k', e. subst t'. split; [exact Hf|].
    split; [now apply list_elem_of_further|].
    intros ke Hke. apply elem_of_cons in Hke as [->|Hke]; [exact Hle | auto].
Qed.

Lemma elem_of_range (m : gmap string CacheEntry) (k : string) (e : CacheEntry) :
  (k, e) ∈ range_cache E m <-> m !! k = Some e.
Proof. rewrite (range_is_ok m). apply elem_of_map_to_list. Qed.

(** On a cache that is not empty, [evictOldestCacheEntry] deletes one
    entry, and no entry expires before the deleted one. *)
Lemma evictOldestCacheEntry_min (s : DNSServer) (now : Z) :
  size (cache s) <> 0%nat ->
  exists k e,
    cache s !! k = Some e
    /\ (forall k' e', cache s !! k' = Some e' -> ExpiresAt e <= ExpiresAt e')
    /\ evictOldestCacheEntry E s now = set_cache (delete k (cache s)) s.
Proof.
  intros Hsize.
  assert (Hne : range_cache E (cache s) <> []).
  { intros Hnil. apply Hsize. rewrite <- length_map_to_list.
    rewrite <- (range_is_ok (cache s)), Hnil. reflexivity. }
  destruct (oldestEntry_min _ Hne) as (k & e & Hold & Hin & Hmin).
  exists k, e. split; [now apply elem_of_range|]. split.
  - intros k' e' Hk'. apply (Hmin (k', e')). now apply elem_of_range.
  - unfold evictOldestCacheEntry. rewrite Hold.
    now destruct (true && After now (ExpiresAt e)).
Qed.

Lemma cleanup_fold_subseteq (l : list (string * CacheEntry)) (now : Z)
    (c : gmap string CacheEntry) :
  fold_left
    (fun (c : gmap string CacheEntry) (ke : string * CacheEntry) =>
       if After now (ExpiresAt (snd ke)) then delete (fst ke) c else c) l c ⊆ c.
Proof.
  revert c. induction l as [|ke l IH]; intros c; cbn [fold_left]; [done|].
  destruct (After now (ExpiresAt (snd ke))); [|apply IH].
  etrans; [apply IH | apply delete_subseteq].
Qed.

Lemma positiveTTLOf_ge_1 (cacheTTL : Z) (resp : Msg) :
  1 <= cacheTTL <= maxUint32 ->
  (forall rr, rr ∈ Answer resp -> 1 <= Ttl (Header rr)) ->
  1 <= positiveTTLOf cacheTTL resp.
Proof.
  intros Hc Httl. unfold positiveTTLOf.
  destruct (Nat.ltb 0 (length (Answer resp))); [|lia].
  assert (Hfold : forall l m0, 1 <= m0 ->
            (forall rr, rr ∈ l -> 1 <= Ttl (Header rr)) ->
            1 <= fold_left
                   (fun minTTL rr =>
                      if Ttl (Header rr) <? minTTL then Ttl (Header rr) else minTTL)
                   l m0).
  { induction l as [|rr l IH]; intros m0 Hm Hl; cbn [fold_left]; [exact Hm|].
    apply IH.
    - destruct (Ttl (Header rr) <? m0); [apply Hl, list_elem_of_here | exact Hm].
    - intros rr' Hin. apply Hl. now apply list_elem_of_further. }
  cbv zeta.
  assert (Hstart : (0 <? cacheTTL) && (cacheTTL <=? maxUint32) = true).
  { apply andb_true_iff. split; [apply Z.ltb_lt | apply Z.leb_le]; lia. }
  rewrite Hstart.
  pose proof (Hfold (Answer resp) cacheTTL ltac:(lia) Httl) as H1.
  clear Hstart Hfold.
  set (m := fold_left _ (Answer resp) cacheTTL) in *.
  destruct ((m <? maxUint32) && (m <? cacheTTL)); lia.
Qed.

Lemma validated_stores (s : DNSServer) (r resp : Msg) (now : Z)
    (dc : gmap string string) :
  Question r <> [] ->
  fst (validateResponse (Some r) (Some resp) (snd (getCacheKey r dc))) = true ->
  (isNegativeResponse (Some resp) = true /\ 1 <= NegativeCacheTTL (config s))
  \/ (Rcode resp = RcodeSuccess /\ Answer resp <> []
      /\ 1 <= CacheTTL (config s) <= maxUint32
      /\ forall rr, rr ∈ Answer resp -> 1 <= Ttl (Header rr)) ->
  exists ttl,
    1 <= ttl
    /\ snd (fst (setCachedResponse E s r (Some resp) now dc))
       = Stored (fst (getCacheKey r dc)) ttl.
Proof.
  intros Hq Hvalid Hkind. unfold setCachedResponse, bind.
  assert (Hne : fst (getCacheKey r dc) <> "").
  { unfold getCacheKey, bind. destruct (Question r) as [|q qs]; [congruence|].
    destruct (normalizeDomain (Name q) dc) as [n dc0]. cbn [fst ret].
    destruct n; discriminate. }
  destruct (getCacheKey r dc) as [key dc1]. cbn [fst snd] in *.
  apply String.eqb_neq in Hne. rewrite Hne.
  destruct (validateResponse (Some r) (Some resp) dc1) as [valid dc2].
  cbn [fst] in Hvalid. subst valid. cbn [negb].
  destruct Hkind as [[Hneg Hon]|(Hrc & Hans & Hon & Httl)].
  - rewrite Hneg. unfold cacheNegativeResponse.
    assert (Hoff : (NegativeCacheTTL (config s) <=? 0) = false) by (apply Z.leb_gt; lia).
    rewrite Hoff.
    destruct (negativeTTLOf_bounds (NegativeCacheTTL (config s)) resp Hon) as (Hb & _).
    assert (Hlt : (negativeTTLOf (NegativeCacheTTL (config s)) resp <? 1) = false)
      by (apply Z.ltb_ge; lia).
    rewrite Hlt. unfold bind. destruct (logCachedNegative _ _ _ dc2) as [u dc3].
    cbn [fst snd ret]. eexists. split; [|reflexivity]. lia.
  - assert (Hpos : isNegativeResponse (Some resp) = false).
    { unfold isNegativeResponse. rewrite Hrc. cbn.
      destruct (Answer resp); [congruence | reflexivity]. }
    rewrite Hpos. unfold cachePositiveResponse.
    assert (Hoff : (CacheTTL (config s) <=? 0) = false) by (apply Z.leb_gt; lia).
    rewrite Hoff, Hrc.
    assert (Hlen : Nat.eqb (length (Answer resp)) 0 = false)
      by (destruct (Answer resp); [congruence | reflexivity]).
    rewrite Hlen. cbn [Z.eqb RcodeSuccess negb orb].
    pose proof (positiveTTLOf_ge_1 (CacheTTL (config s)) resp Hon Httl) as Hge.
    set (ttl := positiveTTLOf (CacheTTL (config s)) resp) in *.
    assert (Hlt : (ttl <? 1) = false) by (apply Z.ltb_ge; lia).
    rewrite Hlt. unfold bind.
    destruct (Question r) as [|q qs];
      [|destruct (normalizeDomain (Name q) dc2)]; cbn [fst snd ret];
      (eexists; split; [exact Hge | reflexivity]).
Qed.

(** C7.  With a cap [maxCacheSize > 0] and a cache that holds
    [maxCacheSize] entries or more: a [setCachedResponse] with a response
    that answers the query's question and is cacheable (a negative
    response with [negative_cache_ttl >= 1], or a NOERROR response with
    answers whose TTLs are all at least 1 and [1 <= cache_ttl <= 2^32-1])
    does store it, under the query's key, and before that deletes
    exactly one entry, one that no other entry expires before; the
    resulting cache is the old one without that entry and with the new
    one.  No put stores in another way: whenever an entry is stored at
    the cap, one entry of least expiry has been deleted first.  And a
    cache within the cap is within the cap after [setCachedResponse] and
    after [cleanupExpiredCache] (a lookup returns no new cache at
    all). *)
Theorem cache_eviction_bound (s : DNSServer) (r : Msg) (resp : option Msg)
    (now : Z) (dc : gmap string string) :
  0 < maxCacheSize s ->
  let res := fst (setCachedResponse E s r resp now dc) in
  (forall resp',
      resp = Some resp' ->
      Question r <> [] ->
      fst (validateResponse (Some r) (Some resp') (snd (getCacheKey r dc))) = true ->
      (isNegativeResponse (Some resp') = true /\ 1 <= NegativeCacheTTL (config s))
      \/ (Rcode resp' = RcodeSuccess /\ Answer resp' <> []
          /\ 1 <= CacheTTL (config s) <= maxUint32
          /\ forall rr, rr ∈ Answer resp' -> 1 <= Ttl (Header rr)) ->
      maxCacheSize s <= Z.of_nat (size (cache s)) ->
      exists k e ttl,
        1 <= ttl
        /\ snd res = Stored (fst (getCacheKey r dc)) ttl
        /\ cache s !! k = Some e
        /\ (forall k' e', cache s !! k' = Some e' -> ExpiresAt e <= ExpiresAt e')
        /\ cache (fst res)
           = <[fst (getCacheKey r dc)
               := mkCacheEntry resp' (Time_Add now (Duration_seconds ttl))]>
               (delete k (cache s))
        /\ (size (cache (fst res)) <= size (cache s))%nat)
  /\ (forall key ttl,
      snd res = Stored key ttl ->
      maxCacheSize s <= Z.of_nat (size (cache s)) ->
      exists k e resp',
        resp = Some resp'
        /\ cache s !! k = Some e
        /\ (forall k' e', cache s !! k' = Some e' -> ExpiresAt e <= ExpiresAt e')
        /\ cache (fst res)
           = <[key := mkCacheEntry resp' (Time_Add now (Duration_seconds ttl))]>
               (delete k (cache s)))
  /\ (Z.of_nat (size (cache s)) <= maxCacheSize s ->
      maxCacheSize (fst res) = maxCacheSize s
      /\ Z.of_nat (size (cache (fst res))) <= maxCacheSize s
      /\ maxCacheSize (cleanupExpiredCache E s now) = maxCacheSize s
      /\ Z.of_nat (size (cache (cleanupExpiredCache E s now))) <= maxCacheSize s).
Proof.
  intros Hcap res.
  pose proof (setCachedResponse_cases E s r resp now dc) as Hc.
  cbv zeta in Hc. fold res in Hc.
  assert (Hpos : (0 <? maxCacheSize s) = true) by (apply Z.ltb_lt; lia).
  rewrite Hpos in Hc. cbn [andb] in Hc.
  assert (Hevict : forall key ttl,
             snd res = Stored key ttl ->
             maxCacheSize s <= Z.of_nat (size (cache s)) ->
             exists k e resp',
               resp = Some resp'
               /\ cache s !! k = Some e
               /\ (forall k' e', cache s !! k' = Some e' -> ExpiresAt e <= ExpiresAt e')
               /\ cache (fst res)
                  = <[key := mkCacheEntry resp' (Time_Add now (Duration_seconds ttl))]>
                      (delete k (cache s))).
  { intros key ttl Hst Hfull.
    destruct Hc as [[Hsk _]|(resp' & key' & ttl' & Hr & Hst' & _ & _ & _ & Hs')];
      [congruence|].
    rewrite Hst in Hst'. injection Hst' as <- <-.
    assert (Hge : (maxCacheSize s <=? Z.of_nat (size (cache s))) = true)
      by (apply Z.leb_le; lia).
    rewrite Hge in Hs'.
    destruct (evictOldestCacheEntry_min s now) as (k & e & Hk & Hmin & Hev); [lia|].
    exists k, e, resp'. repeat split; auto.
    rewrite Hs', Hev. reflexivity. }
  split; [|split; [exact Hevict|]].
  - intros resp' Hresp Hq Hvalid Hkind Hfull.
    assert (Hst : exists ttl, 1 <= ttl
                              /\ snd res = Stored (fst (getCacheKey r dc)) ttl).
    { subst res. rewrite Hresp. now apply validated_stores. }
    destruct Hst as (ttl & Hge & Hst).
    destruct (Hevict _ _ Hst Hfull) as (k & e & resp'' & Hresp' & Hk & Hmin & Hcache).
    assert (resp'' = resp') by congruence. subst resp''.
    exists k, e, ttl. split; [exact Hge|]. split; [exact Hst|].
    split; [exact Hk|]. split; [exact Hmin|]. split; [exact Hcache|].
    rewrite Hcache.
    pose proof (map_size_insert (fst (getCacheKey r dc))
      (mkCacheEntry resp' (Time_Add now (Duration_seconds ttl)))
      (delete k (cache s))) as Hins.
    pose proof (map_size_delete_Some k (cache s) (mk_is_Some _ _ Hk)) as Hdel.
    destruct (delete k (cache s) !! fst (getCacheKey r dc));
      unfold id in *; cbn [Nat.pred] in *; lia.
  - intros Hinv. split; [|split; [|split]].
    + destruct Hc as [[_ ->]|(resp' & key & ttl & _ & _ & _ & _ & _ & ->)];
        [reflexivity|].
      unfold set_cache. cbn [maxCacheSize].
      destruct (_ <=? _); [apply evictOldestCacheEntry_frame | reflexivity].
    + destruct Hc as [[_ ->]|(resp' & key & ttl & _ & _ & _ & _ & _ & ->)];
        [exact Hinv|].
      unfold set_cache. cbn [cache].
      destruct (maxCacheSize s <=? Z.of_nat (size (cache s))) eqn:Hfull;
        [apply Z.leb_le in Hfull | apply Z.leb_gt in Hfull].
      * destruct (evictOldestCacheEntry_min s now) as (k & e & Hk & _ & ->); [lia|].
        unfold set_cache. cbn [cache].
        pose proof (map_size_insert key
          (mkCacheEntry resp' (Time_Add now (Duration_seconds ttl)))
          (delete k (cache s))) as Hins.
        pose proof (map_size_delete_Some k (cache s) (mk_is_Some _ _ Hk)) as Hdel.
        destruct (delete k (cache s) !! key); unfold id in *; cbn [Nat.pred] in *; lia.
      * pose proof (map_size_insert key
          (mkCacheEntry resp' (Time_Add now (Duration_seconds ttl))) (cache s)) as Hins.
        destruct (cache s !! key); unfold id in *; lia.
    + reflexivity.
    + unfold cleanupExpiredCache, set_cache. cbn [cache].
      pose proof (map_subseteq_size _ _
        (cleanup_fold_subseteq (range_cache E (cache s)) now (cache s))). lia.
Qed.

End CacheBound.

Lemma cache_eviction_bound_witness :
  let s := Sample.capped2 in
  let r := Sample.query 3 "new.example." 1 in
  let resp := Sample.answerTo r in
  let res := fst (setCachedResponse Sample.offline s r (Some resp) (2 * Second) ∅) in
  range_ok Sample.offline /\ 0 < maxCacheSize s /\
  maxCacheSize s <= Z.of_nat (size (cache s)) /\
  exists k e ttl,
    snd res = Stored "new.example:1:1" ttl
    /\ cache s !! k = Some e
    /\ (forall k' e', cache s !! k' = Some e' -> ExpiresAt e <= ExpiresAt e')
    /\ cache (fst res)
       = <["new.example:1:1"
           := mkCacheEntry resp (Time_Add (2 * Second) (Duration_seconds ttl))]>
           (delete k (cache s))
    /\ Z.of_nat (size (cache (fst res))) <= maxCacheSize s.
Proof.
  intros s r resp res.
  assert (Hrange : range_ok Sample.offline) by (intros m; reflexivity).
  assert (Hcap : 0 < maxCacheSize s) by reflexivity.
  assert (Hfull : maxCacheSize s <= Z.of_nat (size (cache s)))
    by (vm_compute; discriminate).
  split; [exact Hrange|]. split; [exact Hcap|]. split; [exact Hfull|].
  destruct (proj1 (cache_eviction_bound Sample.offline Hrange s r (Some resp)
                     (2 * Second) ∅ Hcap) resp eq_refl)
    as (k & e & ttl & _ & Hst & Hk & Hmin & Hcache & Hsize).
  - discriminate.
  - vm_compute. reflexivity.
  - right. split; [reflexivity|]. split; [discriminate|].
    split; [vm_compute; split; discriminate|].
    apply Forall_forall. constructor; [vm_compute; discriminate | constructor].
  - exact Hfull.
  - exists k, e, ttl. split; [exact Hst|]. split; [exact Hk|]. split; [exact Hmin|].
    split; [exact Hcache|].
    assert (Htwo : Z.of_nat (size (cache s)) <= maxCacheSize s)
      by (vm_compute; discriminate).
    fold res in Hsize. lia.
Defined.

(** In the sample the put evicts the answer for ads.example, the entry
    that expires first, and keeps the younger NXDOMAIN for gone.example. *)
Example cache_eviction_sample_oldest :
  let s := Sample.capped2 in
  let r := Sample.query 3 "new.example." 1 in
  let res := fst (setCachedResponse Sample.offline s r (Some (Sample.answerTo r))
                    (2 * Second) ∅) in
  dom (cache s) = {[ "ads.example:1:1"; "gone.example:1:1" ]}
  /\ ExpiresAt <$> cache s !! "ads.example:1:1" = Some (60 * Second)
  /\ ExpiresAt <$> cache s !! "gone.example:1:1" = Some (121 * Second)
  /\ snd res = Stored "new.example:1:1" 60
  /\ dom (cache (fst res)) = {[ "gone.example:1:1"; "new.example:1:1" ]}.
Proof. vm_compute. repeat split; reflexivity. Qed.

(** The entry evicted in the sample is the only one, the answer for
    ads.example. *)
Example cache_eviction_sample :
  dom (cache (fst (fst (setCachedResponse Sample.offline Sample.capped
                          (Sample.query 1 "gone.example." 1)
                          (Some (Sample.nxdomain 3600 120)) Second ∅))))
  = {[ "gone.example:1:1" ]}.
Proof. vm_compute. reflexivity. Qed.

(** ** The upstream forwarder *)

Section Truncation.

Variable E : Env.

Lemma forwardToNameserver_udp (r : Msg) (ns : NameserverConfig) (address : string) :
  isTCPBasedProtocol (Protocol ns) = false ->
  forwardToNameserver E r ns address = Exchange E serverClient r address.
Proof.
  unfold isTCPBasedProtocol, forwardToNameserver. intros H.
  apply orb_false_iff in H as [H Hdoh]. apply orb_false_iff in H as [Htcp Hdot].
  now rewrite Hdoh, Hdot, Htcp.
Qed.

(** C9 (amended).  For an endpoint whose protocol is none of tcp, dot
    and doh, and whose UDP answer passes validation and has TC set: the
    same address is asked again over TCP with a timeout of 5 seconds;
    the endpoint yields the TCP answer when there is one and it passes
    validation, and fails otherwise.  So a valid TCP answer with TC
    clear is the endpoint's answer, and the answer of a forward to that
    endpoint alone. *)
Theorem tryForwardToNameserver_truncated (s : DNSServer) (r : Msg)
    (ns : NameserverConfig) (domain : string) (udp : Msg)
    (dc dc1 : gmap string string) :
  let address := net.JoinHostPort (Address ns) (pretty (Port ns)) in
  isTCPBasedProtocol (Protocol ns) = false ->
  Exchange E serverClient r address = ExchangeOK (Some udp) ->
  validateResponse (Some r) (Some udp) dc = (true, dc1) ->
  Truncated udp = true ->
  tryForwardToNameserver E r ns domain dc
  = match Exchange E (mkClient "tcp" 5 None) r address with
    | ExchangeOK (Some tcp) =>
        let (valid, dc2) := validateResponse (Some r) (Some tcp) dc1 in
        (if valid then Some tcp else None, dc2)
    | _ => (None, dc1)
    end
  /\ (forall tcp dc2,
        Exchange E (mkClient "tcp" 5 None) r address = ExchangeOK (Some tcp) ->
        validateResponse (Some r) (Some tcp) dc1 = (true, dc2) ->
        Truncated tcp = false ->
        tryForwardToNameserver E r ns domain dc = (Some tcp, dc2)
        /\ (nameservers s = [ns] ->
            exists m, fst (fst (forwardDirectInternal E s r domain dc)) = Some m
                      /\ m = tcp /\ Truncated m = false)).
Proof.
  intros address Hproto Hudp Hvalid Htc.
  assert (Htry : tryForwardToNameserver E r ns domain dc
                 = match Exchange E (mkClient "tcp" 5 None) r address with
                   | ExchangeOK (Some tcp) =>
                       let (valid, dc2) := validateResponse (Some r) (Some tcp) dc1 in
                       (if valid then Some tcp else None, dc2)
                   | _ => (None, dc1)
                   end).
  { unfold tryForwardToNameserver. fold address.
    rewrite forwardToNameserver_udp by exact Hproto.
    rewrite Hudp. unfold bind at 1. rewrite Hvalid. cbn [negb].
    rewrite Htc, Hproto. cbn [negb andb].
    unfold handleTruncatedResponse, protocolTCP.
    destruct (Exchange E (mkClient "tcp" 5 None) r address) as [|[tcp|]];
      [reflexivity | | reflexivity].
    unfold bind. destruct (validateResponse (Some r) (Some tcp) dc1) as [valid dc2].
    now destruct valid. }
  split; [exact Htry|].
  intros tcp dc2 Htcp Hv Hclear.
  assert (Hres : tryForwardToNameserver E r ns domain dc = (Some tcp, dc2))
    by (rewrite Htry, Htcp, Hv; reflexivity).
  split; [exact Hres|].
  intros Hns. exists tcp. split; [|now split].
  unfold forwardDirectInternal, startIdxOf. rewrite Hns.
  cbn [length Nat.eqb seq tryNameservers].
  change (Z.of_nat 1) with 1. rewrite !Z.mod_1_r.
  change ([ns] !! Z.to_nat 0) with (Some ns).
  unfold bind. rewrite Hres. reflexivity.
Qed.

End Truncation.

Lemma tryForwardToNameserver_truncated_witness :
  let r := Sample.query 5 "big.example." 1 in
  fst (tryForwardToNameserver Sample.truncating r Sample.udpServer "big.example" ∅)
  = Some (Sample.answerTo r)
  /\ Truncated (Sample.answerTo r) = false.
Proof.
  intros r. split; [|reflexivity].
  destruct (tryForwardToNameserver_truncated Sample.truncating Sample.server0 r
              Sample.udpServer "big.example" (Sample.truncatedTo r) ∅
              (snd (validateResponse (Some r) (Some (Sample.truncatedTo r)) ∅)))
    as [_ H]; [reflexivity | reflexivity | vm_compute; reflexivity | reflexivity |].
  destruct (H (Sample.answerTo r)
              (snd (validateResponse (Some r) (Some (Sample.answerTo r))
                      (snd (validateResponse (Some r) (Some (Sample.truncatedTo r)) ∅)))))
    as [Hres _]; [reflexivity | vm_compute; reflexivity | reflexivity |].
  rewrite Hres. reflexivity.
Defined.

(** C9, as stated, fails: a UDP answer with TC set but without the
    question does not pass validation, so the endpoint fails at once; the
    TCP server, which would answer in full, is not asked. *)
Lemma truncated_unvalidated_counterexample :
  let r := Sample.query 5 "big.example." 1 in
  let address := net.JoinHostPort "9.9.9.9" (pretty 53) in
  Exchange Sample.truncatingBare serverClient r address
  = ExchangeOK (Some (Sample.truncatedBare r))
  /\ Truncated (Sample.truncatedBare r) = true
  /\ Exchange Sample.truncatingBare (mkClient "tcp" 5 None) r address
     = ExchangeOK (Some (Sample.answerTo r))
  /\ fst (validateResponse (Some r) (Some (Sample.answerTo r)) ∅) = true
  /\ fst (tryForwardToNameserver Sample.truncatingBare r Sample.udpServer
            "big.example" ∅) = None.
Proof. vm_compute. repeat split; reflexivity. Qed.

Section RoundRobin.

Variable E : Env.

Lemma startIdxOf_mod (s : DNSServer) :
  0 <= nameserverIdx s < 2 ^ 64 ->
  startIdxOf s = nameserverIdx s mod Z.of_nat (length (nameservers s)).
Proof.
  intros Hidx. unfold startIdxOf. f_equal.
  destruct (Z.eq_dec (nameserverIdx s + 1) (2 ^ 64)) as [Heq|Hne].
  - rewrite Heq, Z.mod_same by lia.
    replace (nameserverIdx s) with (2 ^ 64 - 1) by lia. reflexivity.
  - rewrite (Z.mod_small (nameserverIdx s + 1)) by lia.
    rewrite Z.mod_small by lia. lia.
Qed.

(** The loop over [i] tries the endpoints of the rotated list in order. *)
Lemma tryNameservers_rotate (r : Msg) (domain : string)
    (nss : list NameserverConfig) (start : nat) (n a : nat)
    (dc : gmap string string) :
  (a + n <= length nss)%nat ->
  tryNameservers E r domain nss (Z.of_nat start) (seq a n) dc
  = firstResponse E r domain (take n (drop a (rotate start nss))) dc.
Proof.
  revert a dc. induction n as [|n IH]; intros a dc Hlen; [reflexivity|].
  cbn [seq tryNameservers].
  assert (Hlook : rotate start nss !! a
                  = nss !! Z.to_nat ((Z.of_nat start + Z.of_nat a)
                                       mod Z.of_nat (length nss))).
  { rewrite lookup_rotate_r by lia. reflexivity. }
  rewrite <- Hlook.
  destruct (rotate start nss !! a) as [ns|] eqn:Ha.
  - rewrite (drop_S _ _ _ Ha). cbn [take firstResponse]. unfold bind.
    destruct (tryForwardToNameserver E r ns domain dc) as [[resp|] dc1];
      [reflexivity|].
    apply IH. lia.
  - apply lookup_ge_None in Ha. rewrite length_rotate in Ha. lia.
Qed.

Lemma forwardDirectInternal_frame (s : DNSServer) (r : Msg) (domain : string)
    (dc : gmap string string) :
  nameservers s <> [] ->
  snd (fst (forwardDirectInternal E s r domain dc))
  = set_nameserverIdx ((nameserverIdx s + 1) mod 2 ^ 64) s.
Proof.
  intros Hne. unfold forwardDirectInternal.
  destruct (nameservers s) as [|ns nss] eqn:Hns; [congruence|].
  cbn [length Nat.eqb]. unfold bind.
  now destruct (tryNameservers _ _ _ _ _ _ dc).
Qed.

(** The starting indices of consecutive forwards, while the counter does
    not wrap around. *)
Lemma forwardMany_starts (queries : list (Msg * string)) (s : DNSServer)
    (dc : gmap string string) :
  nameservers s <> [] ->
  0 <= nameserverIdx s ->
  nameserverIdx s + Z.of_nat (length queries) <= 2 ^ 64 ->
  fst (fst (forwardMany E s queries dc))
  = map (fun i : nat => (nameserverIdx s + Z.of_nat i)
                        mod Z.of_nat (length (nameservers s)))
      (seq 0 (length queries)).
Proof.
  revert s dc. induction queries as [|[r domain] queries IH]; intros s dc Hne Hlo Hhi;
    [reflexivity|].
  cbn [length] in Hhi. cbn [forwardMany length seq map]. unfold bind.
  pose proof (forwardDirectInternal_frame s r domain dc Hne) as Hs'.
  destruct (forwardDirectInternal E s r domain dc) as [[resp s'] dc1].
  cbn [fst snd] in Hs'. subst s'. cbn [snd].
  specialize (IH (set_nameserverIdx ((nameserverIdx s + 1) mod 2 ^ 64) s) dc1).
  destruct (forwardMany E _ queries dc1) as [[starts s''] dc2].
  unfold set_nameserverIdx in IH. cbn [fst snd nameserverIdx nameservers] in IH.
  unfold ret. cbn [fst].
  rewrite startIdxOf_mod by lia. rewrite Z.add_0_r. f_equal.
  pose proof (Z.mod_pos_bound (nameserverIdx s + 1) (2 ^ 64) ltac:(lia)) as Hmod.
  destruct queries as [|q queries].
  { cbn [length seq map] in *. apply IH; [exact Hne | lia | lia]. }
  cbn [length] in *.
  assert (Hsmall : (nameserverIdx s + 1) mod 2 ^ 64 = nameserverIdx s + 1)
    by (apply Z.mod_small; lia).
  rewrite Hsmall in IH. rewrite IH by (try exact Hne; lia).
  rewrite <- seq_shift, map_map.
  apply map_ext. intros i. f_equal. lia.
Qed.

(** Among [k * n] consecutive integers every residue modulo [n] occurs
    [k] times. *)
Lemma residue_once (c n j : Z) (i : nat) :
  0 < n -> 0 <= j < n -> (i < Z.to_nat n)%nat ->
  (c + Z.of_nat i) mod n = j <-> i = Z.to_nat ((j - c) mod n).
Proof.
  intros Hn Hj Hi. split.
  - intros <-. rewrite Zminus_mod_idemp_l.
    replace (c + Z.of_nat i - c) with (Z.of_nat i) by lia.
    rewrite Z.mod_small by lia. lia.
  - intros ->. rewrite Z2Nat.id by (apply Z.mod_pos_bound; lia).
    rewrite Zplus_mod_idemp_r. replace (c + (j - c)) with j by lia.
    apply Z.mod_small. lia.
Qed.

Lemma count_occ_seq (i0 a n : nat) :
  count_occ Nat.eq_dec (seq a n) i0
  = if decide (a <= i0 < a + n)%nat then 1%nat else 0%nat.
Proof.
  revert a. induction n as [|n IH]; intros a; cbn [seq count_occ].
  - case_decide; [lia | reflexivity].
  - rewrite IH. destruct (Nat.eq_dec a i0); repeat case_decide; lia.
Qed.

Lemma count_block (c n j : Z) :
  0 < n -> 0 <= j < n ->
  count_occ Z.eq_dec
    (map (fun i : nat => (c + Z.of_nat i) mod n) (seq 0 (Z.to_nat n))) j = 1%nat.
Proof.
  intros Hn Hj.
  assert (Hcount : forall l : list nat,
             Forall (fun i => (i < Z.to_nat n)%nat) l ->
             count_occ Z.eq_dec (map (fun i : nat => (c + Z.of_nat i) mod n) l) j
             = count_occ Nat.eq_dec l (Z.to_nat ((j - c) mod n))).
  { induction l as [|i l IH]; intros Hall; [reflexivity|].
    apply Forall_cons in Hall as [Hi Hall]. cbn [map count_occ].
    rewrite IH by exact Hall.
    pose proof (residue_once c n j i Hn Hj Hi) as Hiff.
    destruct (Z.eq_dec _ j) as [Heq|Hneq], (Nat.eq_dec i _) as [Heq'|Hneq'];
      try reflexivity.
    - apply Hiff in Heq. contradiction.
    - apply Hiff in Heq'. contradiction. }
  rewrite Hcount.
  - rewrite count_occ_seq. pose proof (Z.mod_pos_bound (j - c) n Hn).
    case_decide; [reflexivity | lia].
  - apply Forall_forall. intros i Hi. apply elem_of_seq in Hi. lia.
Qed.

Lemma map_seq_shift {A : Type} (g : nat -> A) (a m : nat) :
  map g (seq a m) = map (fun i => g (a + i)%nat) (seq 0 m).
Proof.
  revert g a. induction m as [|m IH]; intros g a; [reflexivity|].
  cbn [seq map]. rewrite Nat.add_0_r. f_equal.
  rewrite (IH g (S a)), (IH (fun i => g (a + i)%nat) 1%nat).
  apply map_ext. intros i. f_equal. lia.
Qed.

Lemma count_blocks (k : nat) (c n j : Z) :
  0 < n -> 0 <= j < n ->
  count_occ Z.eq_dec
    (map (fun i : nat => (c + Z.of_nat i) mod n) (seq 0 (k * Z.to_nat n))) j = k.
Proof.
  intros Hn Hj. revert c. induction k as [|k IH]; intros c; [reflexivity|].
  cbn [Nat.mul]. rewrite seq_app, map_app, count_occ_app, count_block by lia.
  cbn [Nat.add]. f_equal.
  etrans; [|exact (IH (c + n))]. f_equal.
  rewrite map_seq_shift. apply map_ext. intros i. f_equal. lia.
Qed.

(** C8 (amended).  For a forward over [N > 0] endpoints: the starting
    index is the counter's value before its atomic increment, modulo
    [N], and the counter becomes its successor modulo [2^64]; the
    endpoints are tried in order from that index, wrapping, and the
    forward yields the first response an endpoint yields, or none after
    all [N] have failed.  Over [3N] consecutive forwards during which
    the counter does not wrap around [2^64], each endpoint is the
    starting index exactly 3 times. *)
Theorem forwardDirectInternal_round_robin (s : DNSServer) (r : Msg)
    (domain : string) (queries : list (Msg * string))
    (dc : gmap string string) :
  let N := length (nameservers s) in
  (0 < N)%nat ->
  0 <= nameserverIdx s < 2 ^ 64 ->
  startIdxOf s = nameserverIdx s mod Z.of_nat N
  /\ snd (fst (forwardDirectInternal E s r domain dc))
     = set_nameserverIdx ((nameserverIdx s + 1) mod 2 ^ 64) s
  /\ (fst (fst (forwardDirectInternal E s r domain dc)),
      snd (forwardDirectInternal E s r domain dc))
     = firstResponse E r domain
         (rotate (Z.to_nat (startIdxOf s)) (nameservers s)) dc
  /\ length (rotate (Z.to_nat (startIdxOf s)) (nameservers s)) = N
  /\ (length queries = (3 * N)%nat ->
      nameserverIdx s + 3 * Z.of_nat N <= 2 ^ 64 ->
      forall j, 0 <= j < Z.of_nat N ->
        count_occ Z.eq_dec (fst (fst (forwardMany E s queries dc))) j = 3%nat).
Proof.
  intros N HN Hidx.
  assert (Hne : nameservers s <> []).
  { intros Hnil. subst N. rewrite Hnil in HN. cbn in HN. lia. }
  split; [now apply startIdxOf_mod|].
  split; [now apply forwardDirectInternal_frame|].
  split; [|split].
  - unfold forwardDirectInternal. fold N.
    destruct (Nat.eqb N 0) eqn:HN0; [apply Nat.eqb_eq in HN0; lia|].
    unfold bind.
    assert (Hstart : 0 <= startIdxOf s).
    { rewrite startIdxOf_mod by exact Hidx. apply Z.mod_pos_bound. lia. }
    rewrite <- (Z2Nat.id (startIdxOf s)) at 1 2 by exact Hstart.
    rewrite (tryNameservers_rotate r domain (nameservers s)
               (Z.to_nat (startIdxOf s)) N 0 dc) by (subst N; lia).
    rewrite drop_0, take_ge by (rewrite length_rotate; subst N; lia).
    now destruct (firstResponse _ _ _ _ dc).
  - apply length_rotate.
  - intros Hlen Hwrap j Hj.
    rewrite forwardMany_starts by (try exact Hne; lia).
    rewrite Hlen. fold N.
    replace (3 * N)%nat with (3 * Z.to_nat (Z.of_nat N))%nat
      by (now rewrite Nat2Z.id).
    apply count_blocks; lia.
Qed.

End RoundRobin.

Lemma forwardDirectInternal_round_robin_witness :
  let s := Sample.threeServers 0 in
  (0 < length (nameservers s))%nat /\ 0 <= nameserverIdx s < 2 ^ 64 /\
  count_occ Z.eq_dec
    (fst (fst (forwardMany Sample.healthy s Sample.nineQueries ∅))) 1 = 3%nat.
Proof.
  intros s.
  assert (HN : (0 < length (nameservers s))%nat) by (cbn; lia).
  assert (Hidx : 0 <= nameserverIdx s < 2 ^ 64) by (cbn; lia).
  split; [exact HN|]. split; [exact Hidx|].
  apply (proj2 (proj2 (proj2 (proj2
           (forwardDirectInternal_round_robin Sample.healthy s
              (Sample.query 1 "a.example." 1) "a.example" Sample.nineQueries ∅
              HN Hidx)))));
    [reflexivity | vm_compute; discriminate
     | split; [vm_compute; discriminate | vm_compute; reflexivity]].
Defined.

(** C8, as stated, fails where the counter wraps around: with three
    healthy endpoints and the counter at [2^64 - 5], nine consecutive
    forwards start four times at endpoint 0 and twice at endpoint 1. *)
Lemma round_robin_wrap_counterexample :
  let s := Sample.threeServers (2 ^ 64 - 5) in
  fst (fst (forwardMany Sample.healthy s Sample.nineQueries ∅))
  = [2; 0; 1; 2; 0; 0; 1; 2; 0]
  /\ count_occ Z.eq_dec
       (fst (fst (forwardMany Sample.healthy s Sample.nineQueries ∅))) 0 = 4%nat.
Proof. vm_compute. split; reflexivity. Qed.

(** * Further properties of the code *)

(** ** The interning map and the cache key *)

Section Keys.

Lemma normalizeDomain_repeat (x : string) (dc dc1 : gmap string string) (v : string) :
  normalizeDomain x dc = (v, dc1) -> normalizeDomain x dc1 = (v, dc1).
Proof.
  unfold normalizeDomain at 1.
  destruct (dc !! x) as [v0|] eqn:Hx.
  - intros [= <- <-]. unfold normalizeDomain. now rewrite Hx.
  - cbv zeta.
    destruct (decide (Z.of_nat (String.length (normalize x)) < 256)) as [Hlen|Hlen].
    + destruct (decide (normalize x <> x)) as [Hne|Heq]; intros [= <- <-];
        unfold normalizeDomain.
      * rewrite lookup_insert_ne by exact Hne. now rewrite lookup_insert_eq.
      * now rewrite lookup_insert_eq.
    + intros [= <- <-]. unfold normalizeDomain. rewrite Hx. cbv zeta.
      destruct (decide (Z.of_nat (String.length (normalize x)) < 256)); [lia|].
      reflexivity.
Qed.

(** The name returned for an input is returned for it again, and the second
    call no longer changes the interning map. *)
Theorem normalizeDomain_again (x : string) (dc : gmap string string) :
  normalizeDomain x (snd (normalizeDomain x dc))
  = (fst (normalizeDomain x dc), snd (normalizeDomain x dc)).
Proof.
  apply (normalizeDomain_repeat x dc). now destruct (normalizeDomain x dc).
Qed.

Lemma append_colon_nonempty (n rest : string) : (n ++ ":" ++ rest)%string <> "".
Proof. now destruct n. Qed.

(** The empty key stands for a message without a question, and for nothing
    else. *)
Lemma getCacheKey_empty_iff (r : Msg) (dc : gmap string string) :
  fst (getCacheKey r dc) = "" <-> Question r = [].
Proof.
  unfold getCacheKey. destruct (Question r) as [|q qs].
  - now split.
  - unfold bind. destruct (normalizeDomain (Name q) dc) as [n dc1]. cbn [fst ret].
    split; [intros H; now apply append_colon_nonempty in H | discriminate].
Qed.

Lemma append_cons (c : ascii) (a b : string) :
  (String c a ++ b)%string = String c (a ++ b)%string.
Proof. reflexivity. Qed.

Lemma append_nil (b : string) : ("" ++ b)%string = b.
Proof. reflexivity. Qed.

Ltac push_append :=
  repeat (rewrite append_cons in * || rewrite append_nil in *).

Lemma colons_app (a b : string) : colons (a ++ b) = (colons a + colons b)%nat.
Proof.
  induction a as [|c a IH]; simpl; [reflexivity|].
  rewrite IH. lia.
Qed.

Lemma colons_pretty_N_go (x : N) (s : string) :
  colons (pretty_N_go x s) = colons s.
Proof.
  revert s. induction (N.lt_wf_0 x) as [x _ IH]; intros s.
  destruct (decide (x = 0)%N) as [->|Hx]; [now rewrite pretty_N_go_0|].
  rewrite pretty_N_go_step by lia. rewrite IH by (apply N.div_lt; lia).
  cbn [colons]. unfold pretty_N_char. now repeat case_match.
Qed.

Lemma colons_pretty_Z (z : Z) : colons (pretty z) = 0%nat.
Proof.
  assert (HN : forall x : N, colons (pretty x) = 0%nat).
  { intros x. unfold pretty, pretty_N. case_decide; [reflexivity|].
    apply colons_pretty_N_go. }
  destruct z as [|p|p]; [reflexivity | apply (HN (Npos p)) |].
  unfold pretty, pretty_Z. rewrite colons_app. simpl.
  apply (HN (Npos p)).
Qed.

Lemma split_at_first_colon (a1 a2 b1 b2 : string) :
  colons a1 = 0%nat -> colons a2 = 0%nat ->
  (a1 ++ ":" ++ b1 = a2 ++ ":" ++ b2)%string -> a1 = a2 /\ b1 = b2.
Proof.
  revert a2. induction a1 as [|c a1 IH]; intros [|c' a2] H1 H2 Heq;
    push_append; cbn [colons] in *.
  - injection Heq as ->. now split.
  - injection Heq as <- _. simpl in H2. lia.
  - injection Heq as -> _. simpl in H1. lia.
  - injection Heq as -> Heq.
    destruct (IH a2) as [-> ->]; [lia | lia | exact Heq | now split].
Qed.

Lemma split_at_last_colons (n1 n2 w1 w2 : string) :
  colons w1 = 1%nat -> colons w2 = 1%nat ->
  (n1 ++ ":" ++ w1 = n2 ++ ":" ++ w2)%string -> n1 = n2 /\ w1 = w2.
Proof.
  revert n2. induction n1 as [|c n1 IH]; intros [|c' n2] H1 H2 Heq; push_append.
  - injection Heq as ->. now split.
  - injection Heq as _ ->. push_append. rewrite colons_app in H1. push_append.
    simpl in H1. lia.
  - injection Heq as _ <-. push_append. rewrite colons_app in H2. push_append.
    simpl in H2. lia.
  - injection Heq as -> Heq. destruct (IH n2 H1 H2 Heq) as [-> ->]. now split.
Qed.

(** Two queries have the same cache key only when their normalised names,
    their types and their classes are the same, whatever the names
    contain. *)
Theorem getCacheKey_injective (r1 r2 : Msg) (q1 q2 : DNSQuestion)
    (rest1 rest2 : list DNSQuestion) (dc1 dc2 : gmap string string) :
  Question r1 = q1 :: rest1 ->
  Question r2 = q2 :: rest2 ->
  fst (getCacheKey r1 dc1) = fst (getCacheKey r2 dc2) ->
  fst (normalizeDomain (Name q1) dc1) = fst (normalizeDomain (Name q2) dc2)
  /\ Qtype q1 = Qtype q2 /\ Qclass q1 = Qclass q2.
Proof.
  intros Hq1 Hq2. unfold getCacheKey, bind. rewrite Hq1, Hq2.
  destruct (normalizeDomain (Name q1) dc1) as [n1 d1].
  destruct (normalizeDomain (Name q2) dc2) as [n2 d2]. cbn [fst ret].
  intros Hkey.
  assert (Hw : forall t c : Z, colons (pretty t ++ ":" ++ pretty c) = 1%nat).
  { intros t c. rewrite colons_app. push_append. simpl.
    rewrite !colons_pretty_Z. reflexivity. }
  apply split_at_last_colons in Hkey as [Hn Hw']; [|apply Hw..].
  apply split_at_first_colon in Hw' as [Ht Hc]; [|apply colons_pretty_Z..].
  split; [exact Hn|]. split; [now apply (inj pretty) | now apply (inj pretty)].
Qed.

End Keys.

Lemma getCacheKey_injective_witness :
  let r1 := Sample.query 1 "Ads.Example." 1 in
  let r2 := Sample.query 2 "ads.example" 1 in
  fst (getCacheKey r1 ∅) = fst (getCacheKey r2 ∅) /\
  fst (normalizeDomain "Ads.Example." ∅) = fst (normalizeDomain "ads.example" ∅).
Proof.
  intros r1 r2.
  assert (Hkey : fst (getCacheKey r1 ∅) = fst (getCacheKey r2 ∅))
    by (vm_compute; reflexivity).
  split; [exact Hkey|].
  exact (proj1 (getCacheKey_injective r1 r2 (mkQuestion "Ads.Example." 1 1)
                  (mkQuestion "ads.example" 1 1) [] [] ∅ ∅ eq_refl eq_refl Hkey)).
Defined.

(** ** More on the response cache *)

Section CacheLookup.

Variable E : Env.

(** The message a cache entry is handed out as. *)
Lemma getCachedResponse_hit (s : DNSServer) (r : Msg) (c : net.IP) (now : Z)
    (dc : gmap string string) (m : Msg) :
  fst (getCachedResponse s r c now dc) = Some m ->
  (0 < CacheTTL (config s) \/ 0 < NegativeCacheTTL (config s))
  /\ Question r <> []
  /\ exists e,
       cache s !! fst (getCacheKey r dc) = Some e
       /\ now <= ExpiresAt e
       /\ m = set_CheckingDisabled (CheckingDisabled r)
                (set_RecursionDesired (RecursionDesired r)
                   (set_Question (Question r) (set_Id (Id r) (Message e)))).
Proof.
  unfold getCachedResponse.
  destruct ((CacheTTL (config s) <=? 0) && (NegativeCacheTTL (config s) <=? 0)) eqn:Hoff;
    [discriminate|].
  unfold bind. destruct (getCacheKey r dc) as [key dc1] eqn:Hkey. cbn [fst].
  destruct (String.eqb key "") eqn:Hne; [discriminate|].
  destruct (cache s !! key) as [e|] eqn:He; [|discriminate].
  destruct (After now (ExpiresAt e)) eqn:Hexp; [discriminate|].
  destruct (logCacheHit _ r dc1) as [u dc2]. cbn [fst ret]. intros [= <-].
  split.
  { apply andb_false_iff in Hoff as [H|H]; apply Z.leb_gt in H; [left | right]; lia. }
  split.
  { intros Hq. apply String.eqb_neq in Hne. apply Hne.
    pose proof (getCacheKey_empty_iff r dc) as Hiff. rewrite Hkey in Hiff.
    now apply Hiff. }
  exists e. split; [reflexivity|]. split; [|reflexivity].
  unfold After in Hexp. now apply Z.ltb_ge in Hexp.
Qed.

(** A lookup hits exactly when caching is on, the query has a question, the
    cache holds an entry under the query's key and that entry has not
    expired; an expired entry is a miss also before the sweeper has removed
    it. *)
Theorem getCachedResponse_hit_iff (s : DNSServer) (r : Msg) (c : net.IP) (now : Z)
    (dc : gmap string string) :
  is_Some (fst (getCachedResponse s r c now dc))
  <-> (0 < CacheTTL (config s) \/ 0 < NegativeCacheTTL (config s))
      /\ Question r <> []
      /\ exists e, cache s !! fst (getCacheKey r dc) = Some e /\ now <= ExpiresAt e.
Proof.
  split.
  - intros [m Hm]. apply getCachedResponse_hit in Hm as (Hon & Hq & e & He & Hlive & _).
    eauto.
  - intros (Hon & Hq & e & He & Hlive). unfold getCachedResponse.
    assert (Hoff : (CacheTTL (config s) <=? 0) && (NegativeCacheTTL (config s) <=? 0)
                   = false).
    { apply andb_false_iff. destruct Hon; [left | right]; apply Z.leb_gt; lia. }
    rewrite Hoff. unfold bind.
    pose proof (getCacheKey_empty_iff r dc) as Hiff.
    destruct (getCacheKey r dc) as [key dc1]. cbn [fst] in *.
    assert (Hne : String.eqb key "" = false).
    { apply String.eqb_neq. intros Hk. apply Hq. now apply Hiff. }
    rewrite Hne, He.
    assert (Hexp : After now (ExpiresAt e) = false)
      by (unfold After; now apply Z.ltb_ge).
    rewrite Hexp. destruct (logCacheHit _ r dc1) as [u dc2]. cbn [fst ret]. eauto.
Qed.

(** What a successful validation says about the two messages. *)
Lemma validateResponse_true (r resp : Msg) (dc dc' : gmap string string) :
  validateResponse (Some r) (Some resp) dc = (true, dc') ->
  exists q rest q' rest',
    Question r = q :: rest /\ Question resp = q' :: rest'
    /\ Qtype q = Qtype q' /\ Qclass q = Qclass q'
    /\ fst (normalizeDomain (Name q) dc)
       = fst (normalizeDomain (Name q') (snd (normalizeDomain (Name q) dc))).
Proof.
  unfold validateResponse.
  destruct (Question resp) as [|q' rest']; [discriminate|].
  destruct (Question r) as [|q rest]; [discriminate|].
  unfold bind. destruct (normalizeDomain (Name q) dc) as [reqQ dc1] eqn:H1.
  destruct (normalizeDomain (Name q') dc1) as [respQ dc2] eqn:H2. cbn [fst snd].
  destruct (String.eqb reqQ respQ) eqn:Hn; cbn [negb]; [|discriminate].
  destruct (Qtype q =? Qtype q') eqn:Ht; cbn [negb]; [|discriminate].
  destruct (Qclass q =? Qclass q') eqn:Hc; cbn [negb]; [|discriminate].
  intros _. exists q, rest, q', rest'.
  apply String.eqb_eq in Hn. apply Z.eqb_eq in Ht, Hc.
  split; [reflexivity|]. split; [reflexivity|]. split; [exact Ht|].
  split; [exact Hc|]. rewrite H1. cbn [fst snd]. rewrite H2. exact Hn.
Qed.

Lemma cacheNegativeResponse_key (s : DNSServer) (r resp : Msg) (k : string)
    (now : Z) (dc : gmap string string) (key : string) (ttl : Z) :
  snd (fst (cacheNegativeResponse E s r resp k now dc)) = Stored key ttl -> key = k.
Proof.
  unfold cacheNegativeResponse.
  destruct (NegativeCacheTTL (config s) <=? 0); [discriminate|].
  destruct (negativeTTLOf _ resp <? 1); [discriminate|].
  unfold bind. destruct (logCachedNegative _ _ _ dc). cbn [fst snd ret].
  now intros [= <- _].
Qed.

Lemma cachePositiveResponse_key (s : DNSServer) (r resp : Msg) (k : string)
    (now : Z) (dc : gmap string string) (key : string) (ttl : Z) :
  snd (fst (cachePositiveResponse E s r resp k now dc)) = Stored key ttl -> key = k.
Proof.
  unfold cachePositiveResponse.
  destruct (CacheTTL (config s) <=? 0); [discriminate|].
  destruct (negb _ || _); [discriminate|].
  destruct (positiveTTLOf _ resp <? 1); [discriminate|].
  unfold bind.
  destruct (Question r) as [|q qs]; [|destruct (normalizeDomain (Name q) dc)];
    cbn [fst snd ret]; now intros [= <- _].
Qed.

(** A response is stored only under the key of the query, and only when its
    first question has the type, the class and the normalised name of the
    query's: an answer to another question never enters the cache. *)
Theorem setCachedResponse_stores_validated (s : DNSServer) (r resp : Msg)
    (now : Z) (dc : gmap string string) (key : string) (ttl : Z) :
  snd (fst (setCachedResponse E s r (Some resp) now dc)) = Stored key ttl ->
  key = fst (getCacheKey r dc)
  /\ exists q rest q' rest',
       Question r = q :: rest /\ Question resp = q' :: rest'
       /\ Qtype q = Qtype q' /\ Qclass q = Qclass q'
       /\ fst (normalizeDomain (Name q) (snd (getCacheKey r dc)))
          = fst (normalizeDomain (Name q')
                   (snd (normalizeDomain (Name q) (snd (getCacheKey r dc))))).
Proof.
  unfold setCachedResponse, bind.
  destruct (getCacheKey r dc) as [k dc1]. cbn [fst snd].
  destruct (String.eqb k ""); [discriminate|].
  destruct (validateResponse (Some r) (Some resp) dc1) as [valid dc2] eqn:Hv.
  destruct valid; cbn [negb].
  2:{ destruct (Question r) as [|q qs]; [|destruct (normalizeDomain (Name q) dc2)];
        discriminate. }
  intros Hst. split.
  - destruct (isNegativeResponse (Some resp));
      [now apply cacheNegativeResponse_key in Hst
      | now apply cachePositiveResponse_key in Hst].
  - now apply validateResponse_true in Hv.
Qed.

End CacheLookup.

Lemma setCachedResponse_stores_validated_witness :
  let r := Sample.query 1 "ads.example." 1 in
  snd (fst (setCachedResponse Sample.offline Sample.server0 r (Some Sample.adsAnswer) 0 ∅))
  = Stored "ads.example:1:1" 60
  /\ "ads.example:1:1" = fst (getCacheKey r ∅).
Proof.
  intros r.
  assert (Hst : snd (fst (setCachedResponse Sample.offline Sample.server0 r
                            (Some Sample.adsAnswer) 0 ∅))
                = Stored "ads.example:1:1" 60) by (vm_compute; reflexivity).
  split; [exact Hst|].
  exact (proj1 (setCachedResponse_stores_validated Sample.offline Sample.server0 r
                  Sample.adsAnswer 0 ∅ "ads.example:1:1" 60 Hst)).
Defined.

Section CachePolicy.

Variable E : Env.

Lemma fold_right_min_min (x m0 : Z) (l : list Z) :
  fold_right Z.min (Z.min x m0) l = Z.min x (fold_right Z.min m0 l).
Proof. induction l as [|a l IH]; cbn [fold_right]; [reflexivity | rewrite IH; lia]. Qed.

Lemma fold_left_min (l : list RR) (m0 : Z) :
  fold_left (fun minTTL rr => if Ttl (Header rr) <? minTTL then Ttl (Header rr) else minTTL)
    l m0
  = fold_right Z.min m0 (map (fun rr => Ttl (Header rr)) l).
Proof.
  revert m0. induction l as [|rr l IH]; intros m0; [reflexivity|].
  cbn [fold_left map fold_right]. rewrite IH, <- fold_right_min_min. f_equal.
  destruct (Ttl (Header rr) <? m0) eqn:Hlt;
    [apply Z.ltb_lt in Hlt | apply Z.ltb_ge in Hlt]; lia.
Qed.

Lemma fold_right_min_le (m0 : Z) (l : list Z) :
  fold_right Z.min m0 l <= m0 /\ forall x, x ∈ l -> fold_right Z.min m0 l <= x.
Proof.
  induction l as [|a l [IH1 IH2]]; cbn [fold_right].
  - split; [lia|]. intros x Hx. now apply elem_of_nil in Hx.
  - split; [lia|]. intros x Hx. apply elem_of_cons in Hx as [->|Hx]; [lia|].
    specialize (IH2 x Hx). lia.
Qed.

Lemma positiveTTLOf_min (cacheTTL : Z) (resp : Msg) :
  0 < cacheTTL <= maxUint32 -> Answer resp <> [] ->
  positiveTTLOf cacheTTL resp
  = fold_right Z.min cacheTTL (map (fun rr => Ttl (Header rr)) (Answer resp)).
Proof.
  intros Hrange Hne. unfold positiveTTLOf.
  destruct (Answer resp) as [|rr l] eqn:Ha; [congruence|].
  cbn [length Nat.ltb Nat.leb].
  assert (H0 : (0 <? cacheTTL) && (cacheTTL <=? maxUint32) = true).
  { apply andb_true_iff. split; [apply Z.ltb_lt | apply Z.leb_le]; lia. }
  rewrite H0, fold_left_min.
  pose proof (fold_right_min_le cacheTTL (map (fun rr => Ttl (Header rr)) (rr :: l)))
    as [Hle _].
  set (m := fold_right Z.min cacheTTL _) in *.
  destruct (m <? cacheTTL) eqn:Hlt;
    [apply Z.ltb_lt in Hlt | apply Z.ltb_ge in Hlt].
  - assert (Hm : (m <? maxUint32) = true) by (apply Z.ltb_lt; lia).
    now rewrite Hm.
  - rewrite andb_false_r. lia.
Qed.

(** The lifetime of a stored positive answer.  With a configured lifetime
    of at most [2^32 - 1] seconds, an answer is stored only with RCODE
    NOERROR and a non-empty answer section, for the smaller of the
    configured lifetime and the smallest lifetime of an answer record; so
    no record outlives its own TTL in the cache, and an answer with a
    record of TTL 0 is not cached at all. *)
Theorem setCachedResponse_positive_ttl (s : DNSServer) (r resp : Msg) (now : Z)
    (dc : gmap string string) (key : string) (ttl : Z) :
  isNegativeResponse (Some resp) = false ->
  CacheTTL (config s) <= maxUint32 ->
  snd (fst (setCachedResponse E s r (Some resp) now dc)) = Stored key ttl ->
  Rcode resp = RcodeSuccess /\ Answer resp <> []
  /\ ttl = fold_right Z.min (CacheTTL (config s))
             (map (fun rr => Ttl (Header rr)) (Answer resp))
  /\ 1 <= ttl <= CacheTTL (config s)
  /\ (forall rr, rr ∈ Answer resp -> 1 <= Ttl (Header rr) /\ ttl <= Ttl (Header rr))
  /\ cache (fst (fst (setCachedResponse E s r (Some resp) now dc))) !! key
     = Some (mkCacheEntry resp (Time_Add now (Duration_seconds ttl))).
Proof.
  intros Hneg Hmax. unfold setCachedResponse, bind.
  destruct (getCacheKey r dc) as [k dc1]. cbn [fst snd].
  destruct (String.eqb k ""); [discriminate|].
  destruct (validateResponse (Some r) (Some resp) dc1) as [valid dc2].
  destruct valid; cbn [negb].
  2:{ destruct (Question r) as [|q qs]; [|destruct (normalizeDomain (Name q) dc2)];
        discriminate. }
  rewrite Hneg. unfold cachePositiveResponse.
  destruct (CacheTTL (config s) <=? 0) eqn:Hoff; [discriminate|].
  apply Z.leb_gt in Hoff.
  destruct (negb (Rcode resp =? RcodeSuccess) || Nat.eqb (length (Answer resp)) 0)
    eqn:Hans; [discriminate|].
  apply orb_false_iff in Hans as [Hrc Hlen].
  apply negb_false_iff, Z.eqb_eq in Hrc. apply Nat.eqb_neq in Hlen.
  assert (Hne : Answer resp <> []) by (intros Hnil; rewrite Hnil in Hlen; now apply Hlen).
  rewrite positiveTTLOf_min by (try exact Hne; lia).
  pose proof (fold_right_min_le (CacheTTL (config s))
                (map (fun rr => Ttl (Header rr)) (Answer resp))) as [Hle Hmin].
  set (m := fold_right Z.min (CacheTTL (config s)) _) in *.
  destruct (m <? 1) eqn:Hshort; [discriminate|]. apply Z.ltb_ge in Hshort.
  unfold bind.
  assert (Hall : forall rr, rr ∈ Answer resp ->
                   1 <= Ttl (Header rr) /\ m <= Ttl (Header rr)).
  { intros rr Hrr.
    assert (Hin : Ttl (Header rr) ∈ map (fun rr => Ttl (Header rr)) (Answer resp)).
    { apply list_elem_of_In. apply (in_map (fun rr => Ttl (Header rr))).
      now apply list_elem_of_In. }
    specialize (Hmin _ Hin). lia. }
  destruct (Question r) as [|q qs]; [|destruct (normalizeDomain (Name q) dc2)];
    cbn [fst snd ret]; intros [= <- <-];
    (split; [exact Hrc|]; split; [exact Hne|]; split; [reflexivity|];
     split; [lia|]; split; [exact Hall|];
     unfold set_cache; cbn [cache]; apply lookup_insert_eq).
Qed.

End CachePolicy.

Lemma setCachedResponse_positive_ttl_witness :
  let r := Sample.query 1 "ads.example." 1 in
  isNegativeResponse (Some Sample.adsAnswer) = false /\
  CacheTTL (config Sample.server0) <= maxUint32 /\
  snd (fst (setCachedResponse Sample.offline Sample.server0 r (Some Sample.adsAnswer) 0 ∅))
  = Stored "ads.example:1:1" 60 /\
  1 <= 60 <= CacheTTL (config Sample.server0).
Proof.
  intros r.
  assert (Hneg : isNegativeResponse (Some Sample.adsAnswer) = false) by reflexivity.
  assert (Hmax : CacheTTL (config Sample.server0) <= maxUint32)
    by (vm_compute; discriminate).
  assert (Hst : snd (fst (setCachedResponse Sample.offline Sample.server0 r
                            (Some Sample.adsAnswer) 0 ∅))
                = Stored "ads.example:1:1" 60) by (vm_compute; reflexivity).
  split; [exact Hneg|]. split; [exact Hmax|]. split; [exact Hst|].
  exact (proj1 (proj2 (proj2 (proj2
           (setCachedResponse_positive_ttl Sample.offline Sample.server0 r
              Sample.adsAnswer 0 ∅ "ads.example:1:1" 60 Hneg Hmax Hst))))).
Defined.

Section CacheFrame.

Variable E : Env.

Lemma evictOldestCacheEntry_fields (s : DNSServer) (now : Z) :
  exists c, evictOldestCacheEntry E s now = set_cache c s.
Proof.
  unfold evictOldestCacheEntry.
  destruct (oldestEntry (range_cache E (cache s))) as [[k t] f].
  destruct (f && After now t); [eauto|]. destruct f; [eauto|].
  exists (cache s). now destruct s.
Qed.

(** [setCachedResponse] touches the cache only: configuration, deny list,
    overrides, name servers and the round-robin counter stay as they are.
    While the cache is unbounded or below its cap, no entry is removed:
    every key other than the stored one keeps its entry. *)
Theorem setCachedResponse_frame (s : DNSServer) (r : Msg) (resp : option Msg)
    (now : Z) (dc : gmap string string) :
  let res := fst (setCachedResponse E s r resp now dc) in
  config (fst res) = config s /\ blocked (fst res) = blocked s
  /\ overwrites (fst res) = overwrites s /\ nameservers (fst res) = nameservers s
  /\ maxCacheSize (fst res) = maxCacheSize s
  /\ nameserverIdx (fst res) = nameserverIdx s
  /\ (maxCacheSize s <= 0 \/ Z.of_nat (size (cache s)) < maxCacheSize s ->
      forall k, (forall ttl, snd res <> Stored k ttl) ->
        cache (fst res) !! k = cache s !! k).
Proof.
  intros res.
  pose proof (setCachedResponse_cases E s r resp now dc) as Hc.
  cbv zeta in Hc. fold res in Hc.
  destruct Hc as [[_ ->]|(resp' & key & ttl & _ & Hst & _ & _ & _ & Hs')].
  { repeat split; reflexivity. }
  rewrite Hs'.
  destruct (evictOldestCacheEntry_fields s now) as [c Hev].
  assert (Hfields : forall c0 s0, (s0 = s \/ s0 = set_cache c s) ->
            config (set_cache c0 s0) = config s
            /\ blocked (set_cache c0 s0) = blocked s
            /\ overwrites (set_cache c0 s0) = overwrites s
            /\ nameservers (set_cache c0 s0) = nameservers s
            /\ maxCacheSize (set_cache c0 s0) = maxCacheSize s
            /\ nameserverIdx (set_cache c0 s0) = nameserverIdx s).
  { intros c0 s0 [->| ->]; repeat split; reflexivity. }
  destruct ((0 <? maxCacheSize s) && (maxCacheSize s <=? Z.of_nat (size (cache s))))
    eqn:Hfull.
  - rewrite Hev in *.
    destruct (Hfields (<[key := mkCacheEntry resp' (Time_Add now (Duration_seconds ttl))]>
                         (cache (set_cache c s))) (set_cache c s)) as (H1&H2&H3&H4&H5&H6);
      [now right|].
    repeat (split; [assumption|]).
    intros [Hcap|Hcap]; apply andb_true_iff in Hfull as [Hp Hf];
      apply Z.ltb_lt in Hp; apply Z.leb_le in Hf; lia.
  - destruct (Hfields (<[key := mkCacheEntry resp' (Time_Add now (Duration_seconds ttl))]>
                         (cache s)) s) as (H1&H2&H3&H4&H5&H6); [now left|].
    repeat (split; [assumption|]).
    intros _ k Hk. unfold set_cache. cbn [cache].
    apply lookup_insert_ne. intros <-. now apply (Hk ttl).
Qed.

(** Each lifetime setting switches its kind of caching off on its own:
    with [cache_ttl <= 0] no positive answer is stored, with
    [negative_cache_ttl <= 0] no negative one, and with both no lookup
    ever hits. *)
Theorem caching_switches (s : DNSServer) (r resp : Msg) (c : net.IP) (now : Z)
    (dc : gmap string string) :
  (CacheTTL (config s) <= 0 -> isNegativeResponse (Some resp) = false ->
   fst (setCachedResponse E s r (Some resp) now dc) = (s, Skipped))
  /\ (NegativeCacheTTL (config s) <= 0 -> isNegativeResponse (Some resp) = true ->
      fst (setCachedResponse E s r (Some resp) now dc) = (s, Skipped))
  /\ (CacheTTL (config s) <= 0 -> NegativeCacheTTL (config s) <= 0 ->
      fst (getCachedResponse s r c now dc) = None).
Proof.
  split; [|split].
  - intros Hoff Hpos. unfold setCachedResponse, bind.
    destruct (getCacheKey r dc) as [k dc1].
    destruct (String.eqb k ""); [reflexivity|].
    destruct (validateResponse (Some r) (Some resp) dc1) as [valid dc2].
    destruct valid; cbn [negb].
    2:{ destruct (Question r) as [|q qs]; [|destruct (normalizeDomain (Name q) dc2)];
          reflexivity. }
    rewrite Hpos. unfold cachePositiveResponse.
    apply Z.leb_le in Hoff. now rewrite Hoff.
  - intros Hoff Hneg. unfold setCachedResponse, bind.
    destruct (getCacheKey r dc) as [k dc1].
    destruct (String.eqb k ""); [reflexivity|].
    destruct (validateResponse (Some r) (Some resp) dc1) as [valid dc2].
    destruct valid; cbn [negb].
    2:{ destruct (Question r) as [|q qs]; [|destruct (normalizeDomain (Name q) dc2)];
          reflexivity. }
    rewrite Hneg. unfold cacheNegativeResponse.
    apply Z.leb_le in Hoff. now rewrite Hoff.
  - intros H1 H2. unfold getCachedResponse.
    apply Z.leb_le in H1, H2. now rewrite H1, H2.
Qed.

End CacheFrame.

Section Sweep.

Variable E : Env.
Hypothesis range_is_ok : range_ok E.

Lemma cleanup_fold_lookup (l : list (string * CacheEntry)) (now : Z)
    (c : gmap string CacheEntry) (k : string) :
  fold_left
    (fun (c : gmap string CacheEntry) (ke : string * CacheEntry) =>
       if After now (ExpiresAt (snd ke)) then delete (fst ke) c else c) l c !! k
  = if existsb (fun ke => bool_decide (fst ke = k) && After now (ExpiresAt (snd ke))) l
    then None else c !! k.
Proof.
  revert c. induction l as [|[k0 e0] l IH]; intros c; [reflexivity|].
  cbn [fold_left existsb fst snd]. rewrite IH.
  destruct (existsb _ l); [now rewrite orb_true_r|]. rewrite orb_false_r.
  destruct (After now (ExpiresAt e0)); [|now rewrite andb_false_r].
  rewrite andb_true_r. case_bool_decide as Hk.
  - subst k0. apply lookup_delete_eq.
  - now apply lookup_delete_ne.
Qed.

(** The sweeper removes exactly the expired entries: whatever the order in
    which the map is enumerated, an entry that has expired is gone and
    every other entry is kept as it is. *)
Theorem cleanupExpiredCache_lookup (s : DNSServer) (now : Z) (k : string) :
  cache (cleanupExpiredCache E s now) !! k
  = match cache s !! k with
    | Some e => if After now (ExpiresAt e) then None else Some e
    | None => None
    end.
Proof.
  unfold cleanupExpiredCache, set_cache. cbn [cache]. rewrite cleanup_fold_lookup.
  destruct (existsb _ (range_cache E (cache s))) eqn:Hex.
  - apply existsb_exists in Hex as ([k' e'] & Hin & Hb). cbn [fst snd] in Hb.
    apply andb_true_iff in Hb as [Hk Hexp]. apply bool_decide_eq_true in Hk. subst k'.
    apply list_elem_of_In in Hin. rewrite (range_is_ok (cache s)) in Hin.
    apply elem_of_map_to_list in Hin. now rewrite Hin, Hexp.
  - destruct (cache s !! k) as [e|] eqn:He; [|reflexivity].
    destruct (After now (ExpiresAt e)) eqn:Hexp; [|reflexivity].
    assert (Hin : In (k, e) (range_cache E (cache s))).
    { apply list_elem_of_In. rewrite (range_is_ok (cache s)).
      now apply elem_of_map_to_list. }
    assert (Hex' : existsb
                     (fun ke => bool_decide (fst ke = k) && After now (ExpiresAt (snd ke)))
                     (range_cache E (cache s)) = true).
    { apply existsb_exists. exists (k, e). split; [exact Hin|]. cbn [fst snd].
      rewrite Hexp. now rewrite bool_decide_eq_true_2. }
    congruence.
Qed.

End Sweep.

Lemma cleanupExpiredCache_lookup_witness :
  range_ok Sample.offline /\
  cache (cleanupExpiredCache Sample.offline Sample.server1 (61 * Second)) !! "ads.example:1:1"
  = None /\
  cache (cleanupExpiredCache Sample.offline Sample.server1 (59 * Second)) !! "ads.example:1:1"
  = cache Sample.server1 !! "ads.example:1:1".
Proof.
  assert (Hrange : range_ok Sample.offline) by (intros m; reflexivity).
  split; [exact Hrange|]. split.
  - rewrite (cleanupExpiredCache_lookup Sample.offline Hrange). vm_compute. reflexivity.
  - rewrite (cleanupExpiredCache_lookup Sample.offline Hrange). vm_compute. reflexivity.
Defined.

(** ** The deny list and the overrides *)

Section Policy.

Lemma parentBlocked_iff (s : DNSServer) (c : net.IP) (domain : string) :
  parentBlocked s c domain = true
  <-> exists prefix parent,
        domain = (prefix ++ "." ++ parent)%string /\ parent <> ""
        /\ blockedEntryMatches s parent c = true.
Proof.
  split.
  - induction domain as [|ch rest IH]; [discriminate|].
    cbn [parentBlocked].
    destruct (Ascii.eqb ch "."%char && negb (String.eqb rest "")) eqn:Hdot.
    + apply andb_true_iff in Hdot as [Hch Hrest].
      apply Ascii.eqb_eq in Hch. apply negb_true_iff, String.eqb_neq in Hrest.
      destruct (blockedEntryMatches s rest c) eqn:Hm.
      * intros _. exists "", rest. subst ch. now repeat split.
      * intros H. destruct (IH H) as (prefix & parent & -> & Hne & Hp).
        exists (String ch prefix), parent. now repeat split.
    + intros H. destruct (IH H) as (prefix & parent & -> & Hne & Hp).
      exists (String ch prefix), parent. now repeat split.
  - intros (prefix & parent & -> & Hne & Hm).
    induction prefix as [|a prefix IH].
    + change ("" ++ "." ++ parent)%string with (String "."%char parent).
      cbn [parentBlocked]. rewrite Ascii.eqb_refl.
      apply String.eqb_neq in Hne. rewrite Hne. cbn [negb andb]. now rewrite Hm.
    + change (String a prefix ++ "." ++ parent)%string
        with (String a (prefix ++ "." ++ parent)%string).
      cbn [parentBlocked].
      destruct (Ascii.eqb a "."%char && negb _); [|exact IH].
      destruct (blockedEntryMatches s (prefix ++ "." ++ parent)%string c);
        [reflexivity | exact IH].
Qed.

Lemma isBlocked_char (s : DNSServer) (domain : string) (c : net.IP) :
  isBlocked s domain c = true
  <-> exists parent,
        blockedEntryMatches s parent c = true
        /\ (parent = domain
            \/ (parent <> "" /\ exists prefix, domain = (prefix ++ "." ++ parent)%string)).
Proof.
  unfold isBlocked. split.
  - destruct (blockedEntryMatches s domain c) eqn:Hm.
    + intros _. exists domain. split; [exact Hm | now left].
    + intros H. apply parentBlocked_iff in H as (prefix & parent & Hd & Hne & Hp).
      exists parent. split; [exact Hp|]. right. split; [exact Hne|]. now exists prefix.
  - intros (parent & Hp & [->|(Hne & prefix & Hd)]).
    + now rewrite Hp.
    + destruct (blockedEntryMatches s domain c); [reflexivity|].
      apply parentBlocked_iff. now exists prefix, parent.
Qed.

(** The suffix rule of the deny list: a name is denied for a client exactly
    when the name itself, or what follows one of its dots, is a non-empty
    key of the deny list whose entry matches the client.  A key matches
    only at a label boundary. *)
Theorem isBlocked_suffix_rule (s : DNSServer) (domain : string) (c : net.IP) :
  isBlocked s domain c = true
  <-> exists parent,
        blockedEntryMatches s parent c = true
        /\ (parent = domain
            \/ (parent <> "" /\ exists prefix, domain = (prefix ++ "." ++ parent)%string)).
Proof. apply isBlocked_char. Qed.

Example isBlocked_subdomain :
  isBlocked Sample.server3 "a.b.ads.example" Sample.client192 = true
  /\ isBlocked Sample.server3 "notads.example" Sample.client192 = false.
Proof. vm_compute. split; reflexivity. Qed.

(** The client predicate of an override is that of a deny entry with the
    same addresses and networks, although the two are written out
    separately: no restriction matches every client, and a request without
    a client address matches nothing else.  An override applies to the
    exact name only. *)
Theorem getOverwrite_predicate (s : DNSServer) (domain : string) (c : net.IP) :
  getOverwrite s domain c
  = match overwrites s !! domain with
    | Some entry =>
        if matchesBlockEntry
             (BlockEntry.mk (OverwriteEntry.Subnets entry) (OverwriteEntry.IPs entry)) c
        then (OverwriteEntry.IP entry, true) else ("", false)
    | None => ("", false)
    end
  /\ forall entry : BlockEntry.t,
       matchesBlockEntry entry [] = true
       <-> BlockEntry.Subnets entry = [] /\ BlockEntry.IPs entry = [].
Proof.
  split.
  - unfold getOverwrite, matchesBlockEntry. cbn [BlockEntry.Subnets BlockEntry.IPs].
    destruct (overwrites s !! domain) as [entry|]; [|reflexivity].
    destruct (Nat.eqb (length (OverwriteEntry.Subnets entry)) 0
              && Nat.eqb (length (OverwriteEntry.IPs entry)) 0); [reflexivity|].
    destruct (net.isNil c); cbn [negb andb]; [reflexivity|].
    destruct (existsb _ (OverwriteEntry.IPs entry)); cbn [orb]; [reflexivity|].
    now destruct (existsb _ (OverwriteEntry.Subnets entry)).
  - intros [subnets ips]. unfold matchesBlockEntry.
    cbn [BlockEntry.Subnets BlockEntry.IPs].
    destruct subnets, ips; cbn; split; try discriminate; try easy;
      intros [H1 H2]; discriminate.
Qed.

Lemma blockedEntryMatches_add (s : DNSServer) (d : string) (dc : gmap string string)
    (parent : string) (c : net.IP) :
  blockedEntryMatches s parent c = true ->
  blockedEntryMatches (fst (addBlockedDomain s d None dc)) parent c = true.
Proof.
  unfold addBlockedDomain, bind. destruct (normalizeDomain d dc) as [key dc1].
  cbn [fst ret]. unfold blockedEntryMatches, set_blocked. cbn [blocked].
  destruct (decide (key = parent)) as [->|Hne].
  - now rewrite lookup_insert_eq.
  - now rewrite lookup_insert_ne.
Qed.

(** Adding a name without restrictions stores it under its normal form,
    leaves the other keys, the cache and the overrides alone, denies the
    name and everything below it to every client, and unblocks nothing
    that was denied before. *)
Theorem addBlockedDomain_unrestricted (s : DNSServer) (d : string)
    (dc : gmap string string) :
  let key := fst (normalizeDomain d dc) in
  let s' := fst (addBlockedDomain s d None dc) in
  blocked s' !! key = Some (BlockEntry.mk [] [])
  /\ (forall k, k <> key -> blocked s' !! k = blocked s !! k)
  /\ cache s' = cache s /\ overwrites s' = overwrites s
  /\ (forall c, isBlocked s' key c = true)
  /\ (key <> "" -> forall prefix c, isBlocked s' (prefix ++ "." ++ key) c = true)
  /\ (forall domain c, isBlocked s domain c = true -> isBlocked s' domain c = true).
Proof.
  intros key s'.
  assert (Hs' : s' = set_blocked (<[key := BlockEntry.mk [] []]> (blocked s)) s).
  { subst s' key. unfold addBlockedDomain, bind.
    now destruct (normalizeDomain d dc). }
  assert (Hkey : blocked s' !! key = Some (BlockEntry.mk [] [])).
  { rewrite Hs'. unfold set_blocked. cbn [blocked]. apply lookup_insert_eq. }
  assert (Hm : forall c, blockedEntryMatches s' key c = true).
  { intros c. unfold blockedEntryMatches. now rewrite Hkey. }
  split; [exact Hkey|]. split.
  { intros k Hk. rewrite Hs'. unfold set_blocked. cbn [blocked].
    now apply lookup_insert_ne. }
  split; [now rewrite Hs'|]. split; [now rewrite Hs'|]. split; [|split].
  - intros c. apply isBlocked_char. exists key. split; [apply Hm | now left].
  - intros Hne prefix c. apply isBlocked_char. exists key. split; [apply Hm|].
    right. split; [exact Hne | now exists prefix].
  - intros domain c H. apply isBlocked_char in H as (parent & Hp & Hrel).
    apply isBlocked_char. exists parent. split; [|exact Hrel].
    subst s'. now apply blockedEntryMatches_add.
Qed.

(** An entry added with restrictions replaces the one that was there: the
    name denied to everyone in [server3] is denied to 10.0.0.0/8 only once
    it is added again from a restricted list. *)
Example addBlockedDomain_replaces :
  let s' := fst (addBlockedDomain Sample.server3 "ads.example"
                   (Some (BlockEntry.mk [Sample.net10] [])) ∅) in
  isBlocked Sample.server3 "ads.example" Sample.client192 = true
  /\ isBlocked s' "ads.example" Sample.client192 = false
  /\ isBlocked s' "ads.example" Sample.client10 = true.
Proof. vm_compute. repeat split; reflexivity. Qed.

End Policy.

(** ** More on the request handler *)

Section HandlerMore.

Variable E : Env.

Lemma getCachedResponse_question (s : DNSServer) (r : Msg) (c : net.IP) (now : Z)
    (dc : gmap string string) (m : Msg) :
  fst (getCachedResponse s r c now dc) = Some m -> Question r <> [].
Proof.
  intros Hm Hq.
  rewrite (getCachedResponse_no_question s r c now dc Hq) in Hm. discriminate Hm.
Qed.

(** The handler dies exactly on a message without a question.  Otherwise
    it either writes one message and returns, or writes nothing and hands
    the query to [forwardRequest]; it never writes more than one message. *)
Theorem handleDNSRequest_outcomes (s : DNSServer) (w : ResponseWriter) (r : Msg)
    (now : Z) (dc : gmap string string) :
  let h := fst (handleDNSRequest E s w r now dc) in
  (control h = Panicked <-> Question r = [])
  /\ (control h = Returned -> exists m, written h = [m])
  /\ (control h <> Returned -> written h = []).
Proof.
  intros h. subst h. unfold handleDNSRequest, bind.
  destruct (getCachedResponse s r (ClientIP w) now dc) as [[m|] dc1] eqn:Hc.
  - assert (Hq : Question r <> []).
    { apply (getCachedResponse_question s r (ClientIP w) now dc m). now rewrite Hc. }
    cbn [fst ret WriteMsg control written]. split; [split; [discriminate | contradiction]|].
    split; [eauto | contradiction].
  - destruct (Question r) as [|q qs].
    + cbn [fst ret control written]. split; [now split|]. split; [discriminate | reflexivity].
    + destruct (normalizeDomain (Name q) dc1) as [domain dc2].
      destruct (isBlocked s domain (ClientIP w)).
      { cbn [fst ret WriteMsg control written].
        split; [split; discriminate|]. split; [eauto | contradiction]. }
      destruct (getOverwrite s domain (ClientIP w)) as [ip [|]].
      * destruct (NewRR E _); cbn [fst ret WriteMsg control written].
        -- split; [split; discriminate|]. split; [eauto | contradiction].
        -- split; [split; discriminate|]. split; [discriminate | reflexivity].
      * cbn [fst ret control written].
        split; [split; discriminate|]. split; [discriminate | reflexivity].
Qed.

(** The answer for an override.  When the cache has no live entry, the
    name is not denied, an override matches the name and the client, and
    [dns.NewRR] accepts the line built from the query's name and the
    override's text, the handler writes a reply with the query's
    identifier and first question, AA set, RCODE NOERROR and that one
    record as its answer section. *)
Theorem handleDNSRequest_override_answer (s : DNSServer) (w : ResponseWriter)
    (r : Msg) (q : DNSQuestion) (rest : list DNSQuestion) (now : Z)
    (dc dc1 dc2 : gmap string string) (domain ip : string) (rr : RR) :
  Question r = q :: rest ->
  getCachedResponse s r (ClientIP w) now dc = (None, dc1) ->
  normalizeDomain (Name q) dc1 = (domain, dc2) ->
  isBlocked s domain (ClientIP w) = false ->
  getOverwrite s domain (ClientIP w) = (ip, true) ->
  NewRR E (Name q ++ " 300 IN A " ++ ip) = Some rr ->
  exists m,
    written (fst (handleDNSRequest E s w r now dc)) = [m]
    /\ control (fst (handleDNSRequest E s w r now dc)) = Returned
    /\ Answer m = [rr] /\ Ns m = [] /\ Extra m = []
    /\ Authoritative m = true /\ Response m = true
    /\ Rcode m = RcodeSuccess /\ Id m = Id r /\ Question m = [q].
Proof.
  intros Hq Hc Hn Hb Ho Hrr. unfold handleDNSRequest, bind.
  rewrite Hc, Hq, Hn, Hb, Ho, Hrr. cbn [fst ret WriteMsg written control].
  eexists. split; [reflexivity|]. split; [reflexivity|].
  unfold SetReply. rewrite Hq.
  destruct (Opcode (set_Opcode _ _) =? OpcodeQuery); repeat split; reflexivity.
Qed.

End HandlerMore.

Lemma handleDNSRequest_override_answer_witness :
  let r := Sample.query 3 "svc.local." 1 in
  exists m,
    written (fst (handleDNSRequest Sample.offline Sample.server4
                    (Sample.writer Sample.client192) r 0 ∅))
    = [m]
    /\ Answer m = [A (mkHeader "svc.local." 1 1 300) [127; 0; 0; 1]].
Proof.
  intros r.
  destruct (handleDNSRequest_override_answer Sample.offline Sample.server4
              (Sample.writer Sample.client192) r (mkQuestion "svc.local." 1 1) [] 0 ∅
              (snd (getCachedResponse Sample.server4 r Sample.client192 0 ∅))
              (snd (normalizeDomain "svc.local."
                      (snd (getCachedResponse Sample.server4 r Sample.client192 0 ∅))))
              "svc.local" "127.0.0.1" (A (mkHeader "svc.local." 1 1 300) [127; 0; 0; 1])
              eq_refl)
    as (m & Hw & _ & Ha & _); [vm_compute; reflexivity ..|].
  exists m. split; [exact Hw | exact Ha].
Defined.

(** ** More on the forwarder *)

Section ForwardMore.

Variable E : Env.





End ForwardMore.

(** ** The registry of pending requests *)

Section Registry.

Variable E : Env.

Lemma fold_delete_lookup {V : Type} (P : V -> bool) (l : list (string * V))
    (c : gmap string V) (k : string) :
  fold_left (fun (p : gmap string V) (kv : string * V) =>
               if P (snd kv) then delete (fst kv) p else p) l c !! k
  = if existsb (fun kv => bool_decide (fst kv = k) && P (snd kv)) l
    then None else c !! k.
Proof.
  revert c. induction l as [|[k0 v0] l IH]; intros c; [reflexivity|].
  cbn [fold_left existsb fst snd]. rewrite IH.
  destruct (existsb _ l); [now rewrite orb_true_r|]. rewrite orb_false_r.
  destruct (P v0); [|now rewrite andb_false_r].
  rewrite andb_true_r. case_bool_decide as Hk.
  - subst k0. apply lookup_delete_eq.
  - now apply lookup_delete_ne.
Qed.

Lemma stale_lookup (entries : list (string * list nat))
    (pending : gmap string (list nat)) (k : string) :
  entries ≡ₚ map_to_list pending ->
  cleanupStalePendingRequests entries pending !! k
  = match pending !! k with
    | Some [] => None
    | other => other
    end.
Proof.
  intros Hperm. unfold cleanupStalePendingRequests.
  rewrite (fold_delete_lookup (fun ws : list nat => Nat.eqb (length ws) 0)).
  destruct (existsb _ entries) eqn:Hex.
  - apply existsb_exists in Hex as ([k' ws] & Hin & Hb). cbn [fst snd] in Hb.
    apply andb_true_iff in Hb as [Hk Hlen]. apply bool_decide_eq_true in Hk. subst k'.
    apply list_elem_of_In in Hin. rewrite Hperm in Hin.
    apply elem_of_map_to_list in Hin. rewrite Hin.
    destruct ws; [reflexivity | discriminate].
  - destruct (pending !! k) as [[|wt ws]|] eqn:Hk; try reflexivity.
    assert (Hin : In (k, @nil nat) entries).
    { apply list_elem_of_In. rewrite Hperm. now apply elem_of_map_to_list. }
    assert (Hex' : existsb
                     (fun kv : string * list nat =>
                        bool_decide (fst kv = k) && Nat.eqb (length (snd kv)) 0)
                     entries = true).
    { apply existsb_exists. exists (k, []). split; [exact Hin|]. cbn [fst snd length].
      now rewrite bool_decide_eq_true_2. }
    congruence.
Qed.

(** The sweeper of the registry deletes exactly the pending requests
    without waiters, whatever the order of enumeration; it cannot tell a
    request that was abandoned from one whose leader is still waiting for
    the upstream answer and has no follower yet. *)
Theorem cleanupStalePendingRequests_lookup (entries : list (string * list nat))
    (pending : gmap string (list nat)) (k : string) :
  entries ≡ₚ map_to_list pending ->
  cleanupStalePendingRequests entries pending !! k
  = match pending !! k with
    | Some [] => None
    | other => other
    end.
Proof. apply stale_lookup. Qed.

Lemma sendErrorResponse_fields (w : ResponseWriter) (r : Msg) (rcode : Z) :
  exists m, written (sendErrorResponse w r rcode) = [m]
            /\ Rcode m = rcode /\ Id m = Id r /\ Response m = true /\ Answer m = [].
Proof.
  unfold sendErrorResponse, WriteMsg. cbn [written]. eexists. split; [reflexivity|].
  unfold SetRcode, SetReply.
  destruct (Question r); repeat match goal with
    | |- context [if ?b then _ else _] => destruct b end; repeat split; reflexivity.
Qed.

Lemma forwardRequest_cases (s : DNSServer) (pending : gmap string (list nat))
    (w : ResponseWriter) (r : Msg) (c : net.IP) (now : Z) (dc : gmap string string) :
  let res := fst (forwardRequest s pending w r c now dc) in
  (nameservers s = [] ->
   res = (FwdAnswered (sendErrorResponse w r RcodeServerFailure), pending))
  /\ (nameservers s <> [] -> Question r <> [] ->
      fst (getCachedResponse s r c now dc) = None ->
      let key := fst (getCacheKey r (snd (getCachedResponse s r c now dc))) in
      key <> ""
      /\ match pending !! key with
         | None => res = (FwdLeader key, <[key := []]> pending)
         | Some _ => res = (FwdFollower key, pending)
         end)
  /\ (Question r <> [] -> fst res <> FwdDirect).
Proof.
  intros res. subst res. unfold forwardRequest. split; [|split].
  - intros ->. reflexivity.
  - intros Hns Hq Hmiss. cbv zeta.
    destruct (nameservers s) as [|ns nss]; [congruence|]. cbn [length Nat.eqb].
    unfold bind. destruct (getCachedResponse s r c now dc) as [cached dc1].
    cbn [fst snd] in *. subst cached.
    pose proof (getCacheKey_empty_iff r dc1) as Hiff.
    destruct (getCacheKey r dc1) as [key dc2]. cbn [fst] in *.
    assert (Hne : key <> "") by (intros Hk; apply Hq, Hiff, Hk).
    split; [exact Hne|]. apply String.eqb_neq in Hne. rewrite Hne.
    now destruct (pending !! key).
  - intros Hq. destruct (Nat.eqb (length (nameservers s)) 0); [discriminate|].
    unfold bind. destruct (getCachedResponse s r c now dc) as [[m|] dc1];
      [discriminate|].
    pose proof (getCacheKey_empty_iff r dc1) as Hiff.
    destruct (getCacheKey r dc1) as [key dc2]. cbn [fst] in *.
    assert (Hne : String.eqb key "" = false).
    { apply String.eqb_neq. intros Hk. apply Hq, Hiff, Hk. }
    rewrite Hne. destruct (pending !! key); discriminate.
Qed.

(** The roles [forwardRequest] hands out.  Without name servers the query
    is answered SERVFAIL and the registry is left alone.  Otherwise, for a
    query with a question that misses the cache: the first arrival for a
    key becomes the leader and registers a pending request without
    waiters; an arrival that finds a pending request for its key becomes a
    follower and leaves the registry as it is; the direct path is taken by
    no query that has a question. *)
Theorem forwardRequest_roles (s : DNSServer) (pending : gmap string (list nat))
    (w : ResponseWriter) (r : Msg) (c : net.IP) (now : Z) (dc : gmap string string) :
  let res := fst (forwardRequest s pending w r c now dc) in
  (nameservers s = [] ->
   res = (FwdAnswered (sendErrorResponse w r RcodeServerFailure), pending))
  /\ (nameservers s <> [] -> Question r <> [] ->
      fst (getCachedResponse s r c now dc) = None ->
      let key := fst (getCacheKey r (snd (getCachedResponse s r c now dc))) in
      key <> ""
      /\ match pending !! key with
         | None => res = (FwdLeader key, <[key := []]> pending)
         | Some _ => res = (FwdFollower key, pending)
         end)
  /\ (Question r <> [] -> fst res <> FwdDirect).
Proof. apply forwardRequest_cases. Qed.

(** While the pending request of a leader is registered, a second arrival
    for its key that misses the cache becomes a follower.  Once the
    sweeper has run in between, the leader's request, which has no waiter
    yet, is gone from the registry, and the second arrival becomes a
    leader of its own. *)
Theorem stale_sweep_second_leader (s : DNSServer) (pending p1 : gmap string (list nat))
    (entries : list (string * list nat)) (key : string)
    (w w' : ResponseWriter) (r r' : Msg) (c c' : net.IP) (now now' : Z)
    (dc dc' : gmap string string) :
  fst (forwardRequest s pending w r c now dc) = (FwdLeader key, p1) ->
  entries ≡ₚ map_to_list p1 ->
  Question r' <> [] ->
  fst (getCachedResponse s r' c' now' dc') = None ->
  fst (getCacheKey r' (snd (getCachedResponse s r' c' now' dc'))) = key ->
  fst (fst (forwardRequest s p1 w' r' c' now' dc')) = FwdFollower key
  /\ fst (fst (forwardRequest s (cleanupStalePendingRequests entries p1)
                 w' r' c' now' dc')) = FwdLeader key.
Proof.
  intros Hlead Hperm Hq' Hmiss Hkey.
  assert (Hp1 : p1 !! key = Some [] /\ nameservers s <> []).
  { unfold forwardRequest in Hlead.
    destruct (nameservers s) as [|ns nss]; [discriminate|]. cbn [length Nat.eqb] in Hlead.
    unfold bind in Hlead. destruct (getCachedResponse s r c now dc) as [[m|] dc1];
      [discriminate|].
    destruct (getCacheKey r dc1) as [k dc2].
    destruct (String.eqb k ""); [discriminate|].
    destruct (pending !! k); [discriminate|].
    cbn [fst ret] in Hlead. injection Hlead as <- <-.
    split; [apply lookup_insert_eq | discriminate]. }
  destruct Hp1 as [Hp1 Hns]. split.
  - destruct (forwardRequest_cases s p1 w' r' c' now' dc') as (_ & H & _).
    destruct (H Hns Hq' Hmiss) as [_ Hrole]. cbv zeta in Hrole.
    rewrite Hkey, Hp1 in Hrole. now rewrite Hrole.
  - destruct (forwardRequest_cases s (cleanupStalePendingRequests entries p1)
                w' r' c' now' dc') as (_ & H & _).
    destruct (H Hns Hq' Hmiss) as [_ Hrole]. cbv zeta in Hrole.
    rewrite Hkey in Hrole.
    rewrite (stale_lookup entries p1 key Hperm), Hp1 in Hrole.
    now rewrite Hrole.
Qed.

End Registry.

Lemma cleanupStalePendingRequests_lookup_witness :
  let pending : gmap string (list nat) :=
    {[ "a.example:1:1" := []; "b.example:1:1" := [4%nat] ]} in
  map_to_list pending ≡ₚ map_to_list pending /\
  cleanupStalePendingRequests (map_to_list pending) pending !! "a.example:1:1" = None /\
  cleanupStalePendingRequests (map_to_list pending) pending !! "b.example:1:1"
  = Some [4%nat].
Proof.
  intros pending.
  assert (Hperm : map_to_list pending ≡ₚ map_to_list pending) by reflexivity.
  split; [exact Hperm|]. split.
  - rewrite (cleanupStalePendingRequests_lookup _ pending "a.example:1:1" Hperm).
    vm_compute. reflexivity.
  - rewrite (cleanupStalePendingRequests_lookup _ pending "b.example:1:1" Hperm).
    vm_compute. reflexivity.
Defined.

Lemma stale_sweep_second_leader_witness :
  let w := Sample.writer Sample.client192 in
  let r := Sample.query 1 "a.example." 1 in
  let r' := Sample.query 2 "A.Example" 1 in
  let p1 : gmap string (list nat) := {[ "a.example:1:1" := [] ]} in
  fst (forwardRequest Sample.server0 ∅ w r Sample.client192 0 ∅)
  = (FwdLeader "a.example:1:1", p1) /\
  fst (fst (forwardRequest Sample.server0 p1 w r' Sample.client192 0 ∅))
  = FwdFollower "a.example:1:1" /\
  fst (fst (forwardRequest Sample.server0
              (cleanupStalePendingRequests (map_to_list p1) p1)
              w r' Sample.client192 0 ∅))
  = FwdLeader "a.example:1:1".
Proof.
  intros w r r' p1.
  assert (Hlead : fst (forwardRequest Sample.server0 ∅ w r Sample.client192 0 ∅)
                  = (FwdLeader "a.example:1:1", p1)) by (vm_compute; reflexivity).
  split; [exact Hlead|].
  refine (stale_sweep_second_leader Sample.server0 ∅ p1 (map_to_list p1)
            "a.example:1:1" w w r r' Sample.client192 Sample.client192 0 0 ∅ ∅
            Hlead _ _ _ _).
  - reflexivity.
  - discriminate.
  - vm_compute. reflexivity.
  - vm_compute. reflexivity.
Defined.

(** ** Runs of the coalescer *)

Section Runs.

Variable E : Env.
Variable arrivals : list Arrival.

(** The two halves make up [handleFirstRequest]. *)
Lemma handleFirstRequest_halves (s : DNSServer) (pending : gmap string (list nat))
    (waiters : list nat) (w : ResponseWriter) (r : Msg) (domain key : string)
    (now later : Z) (dc : gmap string string) :
  handleFirstRequest E s pending waiters w r domain key now later dc
  = (do found <- fetchFirst E s r domain now;
     finishFirst E (snd found) pending waiters w r key later (fst found)) dc.
Proof.
  unfold handleFirstRequest, fetchFirst, finishFirst, bind.
  destruct (getCachedResponse s r [] now dc) as [[cached|] dc1]; [reflexivity|].
  destruct (forwardDirectInternal E s r domain dc1) as [[resp s1] dc2].
  cbn [fst snd ret]. reflexivity.
Qed.

Lemma getCacheKey_repeat (r : Msg) (dc dc1 : gmap string string) (key : string) :
  getCacheKey r dc = (key, dc1) -> getCacheKey r dc1 = (key, dc1).
Proof.
  unfold getCacheKey, bind. destruct (Question r) as [|q qs].
  - now intros [= <- <-].
  - destruct (normalizeDomain (Name q) dc) as [n dc0] eqn:Hn.
    intros [= <- <-]. now rewrite (normalizeDomain_repeat _ _ _ _ Hn).
Qed.

(** A query that missed the cache on its way into [forwardRequest] misses
    it again when, as a leader, it looks a second time, as long as the
    cache has not changed. *)
Lemma second_look_misses (s : DNSServer) (pending : gmap string (list nat))
    (w : ResponseWriter) (r : Msg) (c : net.IP) (now now2 : Z)
    (dc : gmap string string) :
  nameservers s <> [] -> Question r <> [] ->
  fst (getCachedResponse s r c now dc) = None ->
  now <= now2 ->
  fst (getCachedResponse s r [] now2 (snd (forwardRequest s pending w r c now dc)))
  = None.
Proof.
  intros Hns Hq Hmiss Hle.
  assert (Hdc : exists key dcA,
             getCacheKey r dcA = (key, dcA)
             /\ snd (forwardRequest s pending w r c now dc) = dcA
             /\ (((CacheTTL (config s) <=? 0) && (NegativeCacheTTL (config s) <=? 0)
                  = true)
                 \/ cache s !! key = None
                 \/ exists e, cache s !! key = Some e /\ After now (ExpiresAt e) = true)).
  { unfold forwardRequest. destruct (nameservers s) as [|ns nss]; [congruence|].
    cbn [length Nat.eqb]. unfold bind. revert Hmiss. unfold getCachedResponse.
    destruct ((CacheTTL (config s) <=? 0) && (NegativeCacheTTL (config s) <=? 0)).
    - intros _. cbn [ret].
      destruct (getCacheKey r dc) as [key dcA] eqn:Hkey.
      exists key, dcA. split; [now apply getCacheKey_repeat in Hkey|].
      split; [|now left].
      destruct (String.eqb key ""); [reflexivity|]. now destruct (pending !! key).
    - unfold bind. destruct (getCacheKey r dc) as [key dcA] eqn:Hkey.
      pose proof (getCacheKey_repeat _ _ _ _ Hkey) as Hrep.
      assert (Hne : String.eqb key "" = false).
      { apply String.eqb_neq. intros ->.
        apply Hq. apply (getCacheKey_empty_iff r dc). now rewrite Hkey. }
      rewrite Hne.
      assert (Hend : snd (let (a, dc') := getCacheKey r dcA in
                          (if String.eqb a "" then ret (FwdDirect, pending)
                           else match pending !! a with
                                | Some _ => ret (FwdFollower a, pending)
                                | None => ret (FwdLeader a, <[a := []]> pending)
                                end) dc') = dcA).
      { rewrite Hrep, Hne. now destruct (pending !! key). }
      destruct (cache s !! key) as [e|] eqn:He.
      + destruct (After now (ExpiresAt e)) eqn:Hexp.
        * intros _. cbn [ret]. exists key, dcA. split; [exact Hrep|].
          split; [exact Hend|]. right. right. now exists e.
        * destruct (logCacheHit _ r dcA). discriminate.
      + intros _. cbn [ret]. exists key, dcA. split; [exact Hrep|].
        split; [exact Hend|]. right. now left. }
  destruct Hdc as (key & dcA & Hrep & -> & Hwhy).
  unfold getCachedResponse.
  destruct ((CacheTTL (config s) <=? 0) && (NegativeCacheTTL (config s) <=? 0));
    [reflexivity|].
  destruct Hwhy as [Hoff|[Hnone|(e & He & Hexp)]]; [discriminate| |].
  - unfold bind. rewrite Hrep. destruct (String.eqb key ""); [reflexivity|].
    now rewrite Hnone.
  - unfold bind. rewrite Hrep. destruct (String.eqb key ""); [reflexivity|].
    rewrite He.
    assert (Hexp2 : After now2 (ExpiresAt e) = true).
    { unfold After in *. apply Z.ltb_lt in Hexp. apply Z.ltb_lt. lia. }
    now rewrite Hexp2.
Qed.

Lemma pendingRequests_lookup (st : Run) (key : string) :
  pendingRequests st !! key
  = (fun own => default [] (run_waiters st !! own)) <$> run_registry st !! key.
Proof. unfold pendingRequests. apply lookup_fmap. Qed.

(** C3.  The sweeper breaks the single flight.  Take any state of a run in
    which a query leads the fetch for a key and nobody waits on its
    pending request yet, and a second query with a question that misses
    the cache and has the same key.  If the second query enters
    [forwardRequest] now, it becomes a follower on the leader's pending
    request and never calls the forwarder.  If the sweeper runs first,
    the leader's pending request is gone from the registry, the second
    query registers a pending request of its own and, while the first
    leader is still at work, calls the forwarder for the same key. *)
Theorem sweep_breaks_single_flight (st : Run) (i j : nat) (a : Arrival)
    (key : string) (own : nat) (stage : Stage) (now now2 : Z) :
  run_stages st !! i = Some stage ->
  leads key own stage ->
  run_registry st !! key = Some own ->
  run_waiters st !! own = Some [] ->
  arrivals !! j = Some a ->
  run_stages st !! j = Some Arriving ->
  nameservers (run_server st) <> [] ->
  Question (a_query a) <> [] ->
  fst (getCachedResponse (run_server st) (a_query a) (ClientIP (a_writer a)) now
         (run_interned st)) = None ->
  fst (getCacheKey (a_query a)
         (snd (getCachedResponse (run_server st) (a_query a) (ClientIP (a_writer a))
                 now (run_interned st)))) = key ->
  now <= now2 ->
  (exists st1,
      run E arrivals [Arrive j now] st = Some st1
      /\ run_stages st1 !! j = Some (Following own)
      /\ run_forwards st1 = run_forwards st
      /\ step E arrivals (Fetch j now2) st1 = None)
  /\ (exists st3 resp,
        run E arrivals [Sweep; Arrive j now; Fetch j now2] st = Some st3
        /\ run_stages st3 !! j
           = Some (Fetched key (length (run_waiters st)) (inr resp))
        /\ run_stages st3 !! i = Some stage
        /\ length (run_waiters st) <> own
        /\ run_forwards st3 = (run_forwards st ++ [key])%list).
Proof.
  intros Hi Hleads Hreg Hwait Ha Hj Hns Hq Hmiss Hkey Hle.
  assert (Hij : i <> j).
  { intros ->. rewrite Hj in Hi. injection Hi as <-.
    destruct Hleads as [H|[f H]]; discriminate. }
  assert (Hjlt : (j < length (run_stages st))%nat) by (eapply lookup_lt_Some; eauto).
  assert (Hview : pendingRequests st !! key = Some []).
  { rewrite pendingRequests_lookup, Hreg. cbn. now rewrite Hwait. }
  split.
  - destruct (forwardRequest_cases (run_server st) (pendingRequests st) (a_writer a)
                (a_query a) (ClientIP (a_writer a)) now (run_interned st))
      as (_ & Hrole & _).
    destruct (Hrole Hns Hq Hmiss) as [_ Hr]. cbv zeta in Hr.
    rewrite Hkey, Hview in Hr.
    cbn [run step]. rewrite Ha, Hj.
    destruct (forwardRequest _ _ _ _ _ _ _) as [[role view] dc2].
    cbn [fst] in Hr. injection Hr as -> ->. rewrite Hreg.
    eexists. split; [reflexivity|]. cbn [run_stages run_forwards].
    split; [now apply list_lookup_insert_eq|]. split; [reflexivity|].
    cbn [step run_stages]. rewrite list_lookup_insert_eq by exact Hjlt.
    now rewrite ?Ha.
  - set (st1 := mkRun (run_server st) (run_interned st)
                  (filter (fun kv => is_Some
                             (cleanupStalePendingRequests
                                (map_to_list (pendingRequests st))
                                (pendingRequests st) !! kv.1))
                     (run_registry st))
                  (run_waiters st) (run_channels st) (run_stages st)
                  (run_forwards st)).
    assert (Hview1 : pendingRequests st1 !! key = None).
    { rewrite pendingRequests_lookup. subst st1. cbn [run_registry].
      assert (Hnone : filter (fun kv : string * nat => is_Some
                                (cleanupStalePendingRequests
                                   (map_to_list (pendingRequests st))
                                   (pendingRequests st) !! kv.1))
                        (run_registry st) !! key = None).
      { apply map_lookup_filter_None. right. intros own' _ [x Hx]. cbn [fst] in Hx.
        rewrite (stale_lookup (map_to_list (pendingRequests st)) (pendingRequests st)
                   key (reflexivity _)), Hview in Hx. discriminate. }
      now rewrite Hnone. }
    destruct (forwardRequest_cases (run_server st1) (pendingRequests st1) (a_writer a)
                (a_query a) (ClientIP (a_writer a)) now (run_interned st1))
      as (_ & Hrole & _).
    destruct (Hrole Hns Hq Hmiss) as [_ Hr]. cbv zeta in Hr.
    change (run_server st1) with (run_server st) in Hr.
    change (run_interned st1) with (run_interned st) in Hr.
    rewrite Hkey, Hview1 in Hr.
    pose proof (second_look_misses (run_server st) (pendingRequests st1) (a_writer a)
                  (a_query a) (ClientIP (a_writer a)) now now2 (run_interned st)
                  Hns Hq Hmiss Hle) as Hsecond.
    change (run E arrivals [Sweep; Arrive j now; Fetch j now2] st)
      with (run E arrivals [Arrive j now; Fetch j now2] st1).
    cbn [run]. unfold step at 1.
    change (run_stages st1) with (run_stages st).
    change (run_server st1) with (run_server st).
    change (run_interned st1) with (run_interned st).
    rewrite Ha, Hj.
    destruct (forwardRequest _ _ _ _ _ _ _) as [[role view] dc2].
    cbn [fst snd] in Hr, Hsecond. injection Hr as -> ->.
    cbn [step run_stages run_server run_interned run_forwards run_waiters].
    rewrite Ha. rewrite list_lookup_insert_eq by exact Hjlt.
    unfold fetchFirst, bind.
    destruct (getCachedResponse (run_server st) (a_query a) [] now2 dc2)
      as [cached dc3]. cbn [fst] in Hsecond. subst cached.
    destruct (forwardDirectInternal E (run_server st) (a_query a) (a_domain a) dc3)
      as [[resp s1] dc4]. cbn [fst snd ret].
    eexists _, resp. split; [reflexivity|]. cbn [run_stages run_forwards].
    split.
    { apply list_lookup_insert_eq. now rewrite length_insert. }
    split.
    { rewrite !list_lookup_insert_ne by (intros Hji; now apply Hij). exact Hi. }
    split; [|reflexivity].
    apply lookup_lt_Some in Hwait. lia.
Qed.

Lemma forwardRequest_leader (s : DNSServer) (pending : gmap string (list nat))
    (w : ResponseWriter) (r : Msg) (c : net.IP) (now : Z) (dc : gmap string string)
    (key : string) :
  fst (fst (forwardRequest s pending w r c now dc)) = FwdLeader key ->
  pending !! key = None.
Proof.
  unfold forwardRequest. destruct (Nat.eqb (length (nameservers s)) 0); [discriminate|].
  unfold bind. destruct (getCachedResponse s r c now dc) as [[m|] dc1]; [discriminate|].
  destruct (getCacheKey r dc1) as [k dc2].
  destruct (String.eqb k ""); [discriminate|].
  destruct (pending !! k) eqn:Hk; [discriminate|]. cbn [fst ret]. now intros [= <-].
Qed.

Lemma single_flight_keep (st : Run) (j : nat) (old new : Stage) (s : DNSServer)
    (dc : gmap string string) (waiters : list (list nat))
    (channels : gmap nat (option Msg)) (forwards : list string) :
  single_flight st ->
  run_stages st !! j = Some old ->
  (forall key own, leads key own new -> leads key own old) ->
  length waiters = length (run_waiters st) ->
  single_flight (mkRun s dc (run_registry st) waiters channels
                   (<[j := new]> (run_stages st)) forwards).
Proof.
  intros [HA HB] Hj Hnew Hlen.
  assert (Hold : forall i stage key own,
             <[j := new]> (run_stages st) !! i = Some stage -> leads key own stage ->
             exists stage', run_stages st !! i = Some stage' /\ leads key own stage').
  { intros i stage key own Hi Hl. destruct (decide (j = i)) as [<-|Hne].
    - rewrite list_lookup_insert_eq in Hi by (eapply lookup_lt_Some; eauto).
      injection Hi as <-. eauto.
    - rewrite list_lookup_insert_ne in Hi by exact Hne. eauto. }
  split; cbn [run_stages run_registry run_waiters].
  - intros i stage key own Hi Hl. destruct (Hold _ _ _ _ Hi Hl) as (stage' & Hi' & Hl').
    rewrite Hlen. eauto.
  - intros i i' si si' ki ki' own Hi Hl Hi' Hl'.
    destruct (Hold _ _ _ _ Hi Hl) as (? & ? & ?).
    destruct (Hold _ _ _ _ Hi' Hl') as (? & ? & ?). eauto.
Qed.

Lemma single_flight_new (st : Run) (j : nat) (key : string) (s : DNSServer)
    (dc : gmap string string) (channels : gmap nat (option Msg))
    (forwards : list string) :
  single_flight st ->
  run_stages st !! j = Some Arriving ->
  run_registry st !! key = None ->
  single_flight (mkRun s dc (<[key := length (run_waiters st)]> (run_registry st))
                   (run_waiters st ++ [[]]) channels
                   (<[j := Leading key (length (run_waiters st))]> (run_stages st))
                   forwards).
Proof.
  intros [HA HB] Hj Hnone.
  assert (Hcases : forall i stage k own,
             <[j := Leading key (length (run_waiters st))]> (run_stages st) !! i
             = Some stage -> leads k own stage ->
             (i = j /\ k = key /\ own = length (run_waiters st))
             \/ (i <> j /\ run_stages st !! i = Some stage)).
  { intros i stage k own Hi Hl. destruct (decide (j = i)) as [<-|Hne].
    - rewrite list_lookup_insert_eq in Hi by (eapply lookup_lt_Some; eauto).
      injection Hi as <-. left. destruct Hl as [[= -> ->]|[f [=]]]. auto.
    - rewrite list_lookup_insert_ne in Hi by exact Hne. right. auto. }
  split; cbn [run_stages run_registry run_waiters].
  - intros i stage k own Hi Hl. rewrite length_app. cbn [length].
    destruct (Hcases _ _ _ _ Hi Hl) as [(-> & -> & ->)|[Hne Hi']].
    + split; [apply lookup_insert_eq | lia].
    + destruct (HA _ _ _ _ Hi' Hl) as [Hreg Hlt]. split; [|lia].
      rewrite lookup_insert_ne; [exact Hreg|]. intros <-. congruence.
  - intros i i' si si' ki ki' own Hi Hl Hi' Hl'.
    destruct (Hcases _ _ _ _ Hi Hl) as [(-> & -> & ->)|[Hne Hi1]];
      destruct (Hcases _ _ _ _ Hi' Hl') as [(-> & -> & Hown)|[Hne' Hi1']];
      try reflexivity.
    + destruct (HA _ _ _ _ Hi1' Hl') as [_ Hlt]. lia.
    + destruct (HA _ _ _ _ Hi1 Hl) as [_ Hlt]. lia.
    + eauto.
Qed.

Lemma single_flight_done (st : Run) (j : nat) (key : string) (own : nat)
    (found : Msg + option Msg) (h : Handled) (s : DNSServer) (dc : gmap string string)
    (waiters : list (list nat)) (channels : gmap nat (option Msg))
    (forwards : list string) :
  single_flight st ->
  run_stages st !! j = Some (Fetched key own found) ->
  length waiters = length (run_waiters st) ->
  single_flight (mkRun s dc (delete key (run_registry st)) waiters channels
                   (<[j := Done h]> (run_stages st)) forwards).
Proof.
  intros [HA HB] Hj Hlen.
  assert (Hjl : leads key own (Fetched key own found)) by (right; eauto).
  assert (Hcases : forall i stage k o,
             <[j := Done h]> (run_stages st) !! i = Some stage -> leads k o stage ->
             i <> j /\ run_stages st !! i = Some stage).
  { intros i stage k o Hi Hl. destruct (decide (j = i)) as [<-|Hne].
    - rewrite list_lookup_insert_eq in Hi by (eapply lookup_lt_Some; eauto).
      injection Hi as <-. destruct Hl as [[=]|[f [=]]].
    - rewrite list_lookup_insert_ne in Hi by exact Hne. auto. }
  split; cbn [run_stages run_registry run_waiters].
  - intros i stage k o Hi Hl. destruct (Hcases _ _ _ _ Hi Hl) as [Hne Hi'].
    destruct (HA _ _ _ _ Hi' Hl) as [Hreg Hlt]. rewrite Hlen. split; [|exact Hlt].
    rewrite lookup_delete_ne; [exact Hreg|]. intros <-.
    destruct (HA _ _ _ _ Hj Hjl) as [Hreg' _].
    assert (o = own) by congruence. subst o.
    apply Hne. eapply HB; eauto.
  - intros i i' si si' ki ki' o Hi Hl Hi' Hl'.
    destruct (Hcases _ _ _ _ Hi Hl) as [_ Hi1].
    destruct (Hcases _ _ _ _ Hi' Hl') as [_ Hi1']. eauto.
Qed.

Lemma step_single_flight (ev : Event) (st st' : Run) :
  is_sweep ev = false ->
  single_flight st ->
  step E arrivals ev st = Some st' ->
  single_flight st'.
Proof.
  intros Hev Hinv Hstep. destruct ev as [i now|i now|i later|i|i|i now later|];
    [| | | | | |discriminate]; cbn [step] in Hstep.
  - destruct (arrivals !! i) as [a|]; [|discriminate].
    destruct (run_stages st !! i) as [[]|] eqn:Hi; try discriminate.
    pose proof (forwardRequest_leader (run_server st) (pendingRequests st) (a_writer a)
                  (a_query a) (ClientIP (a_writer a)) now (run_interned st)) as Hlead.
    destruct (forwardRequest _ _ _ _ _ _ _) as [[role view] dc]. cbn [fst] in Hlead.
    destruct role as [h| |key|key].
    + injection Hstep as <-. eapply single_flight_keep; eauto.
      intros k o [[=]|[f [=]]].
    + injection Hstep as <-. eapply single_flight_keep; eauto.
      intros k o [[=]|[f [=]]].
    + injection Hstep as <-. apply single_flight_new; auto.
      specialize (Hlead key eq_refl). rewrite pendingRequests_lookup in Hlead.
      now destruct (run_registry st !! key).
    + destruct (run_registry st !! key); [|discriminate].
      injection Hstep as <-. eapply single_flight_keep; eauto.
      intros k o [[=]|[f [=]]].
  - destruct (arrivals !! i) as [a|]; [|discriminate].
    destruct (run_stages st !! i) as [[]|] eqn:Hi; try discriminate.
    destruct (fetchFirst _ _ _ _ _ _) as [[found s] dc].
    injection Hstep as <-. eapply single_flight_keep; eauto.
    intros k o [[=]|[f [= -> -> _]]]. now left.
  - destruct (arrivals !! i) as [a|]; [|discriminate].
    destruct (run_stages st !! i) as [[]|] eqn:Hi; try discriminate.
    destruct (finishFirst _ _ _ _ _ _ _ _ _ _) as [led dc].
    injection Hstep as <-. eapply single_flight_done; eauto.
    apply length_insert.
  - destruct (run_stages st !! i) as [[]|] eqn:Hi; try discriminate.
    injection Hstep as <-. eapply single_flight_keep; eauto.
    + intros k o [[=]|[f [=]]].
    + apply length_insert.
  - destruct (arrivals !! i) as [a|]; [|discriminate].
    destruct (run_stages st !! i) as [[]|] eqn:Hi; try discriminate.
    destruct (run_channels st !! i) as [content|]; [|discriminate].
    destruct (waitForPendingRequest _ _ _ _ _ _ _ _) as [[h s] dc].
    injection Hstep as <-. eapply single_flight_keep; eauto.
    intros k o [[=]|[f [=]]].
  - destruct (arrivals !! i) as [a|]; [|discriminate].
    destruct (run_stages st !! i) as [[]|] eqn:Hi; try discriminate.
    destruct (waitForPendingRequest _ _ _ _ _ _ _ _) as [[h s] dc].
    injection Hstep as <-. eapply single_flight_keep; eauto.
    intros k o [[=]|[f [=]]].
Qed.

Lemma start_single_flight (s : DNSServer) (dc : gmap string string) (n : nat) :
  single_flight (start s dc n).
Proof.
  assert (Hnone : forall i stage key own,
             replicate n Arriving !! i = Some stage -> leads key own stage -> False).
  { intros i stage key own Hi Hl. apply lookup_replicate in Hi as [-> _].
    destruct Hl as [[=]|[f [=]]]. }
  split; cbn [start run_stages].
  - intros i stage key own Hi Hl. destruct (Hnone _ _ _ _ Hi Hl).
  - intros i j si sj ki kj own Hi Hl. destruct (Hnone _ _ _ _ Hi Hl).
Qed.

(** While the sweeper does not run, the flight is single: in every state
    that a run without sweeper steps reaches from the start, at most one
    query leads the fetch for a key, its pending request is the one
    registered under the key, and so no second query calls the forwarder
    for a key while a leader for that key has not published. *)
Theorem single_flight_without_sweep (s : DNSServer) (dc : gmap string string)
    (n : nat) (events : list Event) (st : Run) :
  forallb (fun ev => negb (is_sweep ev)) events = true ->
  run E arrivals events (start s dc n) = Some st ->
  forall i j si sj key own own',
    run_stages st !! i = Some si -> leads key own si ->
    run_stages st !! j = Some sj -> leads key own' sj ->
    i = j /\ own = own' /\ run_registry st !! key = Some own.
Proof.
  intros Hfree Hrun.
  assert (Hinv : single_flight st).
  { revert Hfree Hrun. generalize (start_single_flight s dc n).
    generalize (start s dc n). induction events as [|ev events IH];
      intros st0 Hinv Hfree Hrun; cbn [run] in Hrun.
    - now injection Hrun as <-.
    - cbn [forallb] in Hfree. apply andb_true_iff in Hfree as [Hev Hfree].
      apply negb_true_iff in Hev.
      destruct (step E arrivals ev st0) as [st1|] eqn:Hstep; [|discriminate].
      apply (IH st1); [|exact Hfree | exact Hrun].
      now apply (step_single_flight ev st0 st1). }
  destruct Hinv as [HA HB].
  intros i j si sj key own own' Hi Hl Hj Hl'.
  destruct (HA _ _ _ _ Hi Hl) as [Hreg _].
  destruct (HA _ _ _ _ Hj Hl') as [Hreg' _].
  assert (own' = own) by congruence. subst own'.
  split; [eapply HB; eauto|]. split; [reflexivity | exact Hreg].
Qed.

End Runs.

Lemma single_flight_without_sweep_witness :
  let events := [Arrive 0 0; Fetch 0 0; Arrive 1 1; Join 1] in
  let st := default (start Sample.server0 ∅ 2)
              (run Sample.healthy Sample.twoArrivals events (start Sample.server0 ∅ 2)) in
  forallb (fun ev => negb (is_sweep ev)) events = true
  /\ run Sample.healthy Sample.twoArrivals events (start Sample.server0 ∅ 2) = Some st
  /\ run_stages st !! 1%nat = Some Waiting
  /\ run_registry st !! "a.example:1:1" = Some 0%nat.
Proof.
  intros events st.
  assert (Hfree : forallb (fun ev => negb (is_sweep ev)) events = true) by reflexivity.
  assert (Hrun : run Sample.healthy Sample.twoArrivals events (start Sample.server0 ∅ 2)
                 = Some st) by (vm_compute; reflexivity).
  pose (stage := default Arriving (run_stages st !! 0%nat)).
  assert (Hi : run_stages st !! 0%nat = Some stage) by (vm_compute; reflexivity).
  assert (Hleads : leads "a.example:1:1" 0 stage)
    by (right; eexists; vm_compute; reflexivity).
  split; [exact Hfree|]. split; [exact Hrun|]. split; [vm_compute; reflexivity|].
  exact (proj2 (proj2 (single_flight_without_sweep Sample.healthy Sample.twoArrivals
                         Sample.server0 ∅ 2 events st Hfree Hrun
                         0%nat 0%nat stage stage "a.example:1:1" 0%nat 0%nat
                         Hi Hleads Hi Hleads))).
Defined.

Lemma sweep_breaks_single_flight_witness :
  let st := Sample.inFlight in
  let a := mkArrival (Sample.writer Sample.client10) (Sample.query 2 "A.Example." 1)
             "a.example" in
  run_registry st !! "a.example:1:1" = Some 0%nat
  /\ run_waiters st !! 0%nat = Some []
  /\ run_stages st !! 1%nat = Some Arriving
  /\ run_forwards st = ["a.example:1:1"]
  /\ fst (getCachedResponse (run_server st) (a_query a) (ClientIP (a_writer a)) 1
            (run_interned st)) = None
  /\ exists st3,
       run Sample.healthy Sample.twoArrivals [Sweep; Arrive 1 1; Fetch 1 2] st = Some st3
       /\ run_forwards st3 = ["a.example:1:1"; "a.example:1:1"].
Proof.
  intros st a.
  pose (stage := default Arriving (run_stages st !! 0%nat)).
  assert (Hi : run_stages st !! 0%nat = Some stage) by (vm_compute; reflexivity).
  assert (Hleads : leads "a.example:1:1" 0 stage)
    by (right; eexists; vm_compute; reflexivity).
  assert (Hreg : run_registry st !! "a.example:1:1" = Some 0%nat)
    by (vm_compute; reflexivity).
  assert (Hwait : run_waiters st !! 0%nat = Some []) by (vm_compute; reflexivity).
  assert (Ha : Sample.twoArrivals !! 1%nat = Some a) by reflexivity.
  assert (Hj : run_stages st !! 1%nat = Some Arriving) by (vm_compute; reflexivity).
  assert (Hfw : run_forwards st = ["a.example:1:1"]) by (vm_compute; reflexivity).
  assert (Hns : nameservers (run_server st) <> []) by (vm_compute; discriminate).
  assert (Hq : Question (a_query a) <> []) by discriminate.
  assert (Hmiss : fst (getCachedResponse (run_server st) (a_query a)
                         (ClientIP (a_writer a)) 1 (run_interned st)) = None)
    by (vm_compute; reflexivity).
  assert (Hkey : fst (getCacheKey (a_query a)
                        (snd (getCachedResponse (run_server st) (a_query a)
                                (ClientIP (a_writer a)) 1 (run_interned st))))
                 = "a.example:1:1") by (vm_compute; reflexivity).
  assert (Hle : 1 <= 2) by lia.
  split; [exact Hreg|]. split; [exact Hwait|]. split; [exact Hj|].
  split; [exact Hfw|]. split; [exact Hmiss|].
  destruct (proj2 (sweep_breaks_single_flight Sample.healthy Sample.twoArrivals st
                     0 1 a "a.example:1:1" 0 stage 1 2
                     Hi Hleads Hreg Hwait Ha Hj Hns Hq Hmiss Hkey Hle))
    as (st3 & resp & Hrun & _ & _ & _ & Hforwards).
  exists st3. split; [exact Hrun|]. rewrite Hforwards, Hfw. reflexivity.
Defined.

(** Two runs on the sample.  Without the sweeper the second query follows
    the first: the forwarder is called once, and each client gets the
    answer under its own identifier.  With the sweeper between the first
    forward and the second arrival, both queries lead and the forwarder
    is called twice for the one key. *)
Example coalescer_sample_runs :
  let replies (st : Run) :=
    map (fun stage => match stage with
                      | Done h => map Id (written h)
                      | _ => []
                      end) (run_stages st) in
  let outcome (events : list Event) :=
    (fun st => (run_forwards st, replies st))
      <$> run Sample.healthy Sample.twoArrivals events (start Sample.server0 ∅ 2) in
  outcome [Arrive 0 0; Fetch 0 0; Arrive 1 1; Join 1; Publish 0 2; Receive 1]
  = Some (["a.example:1:1"], [[1]; [2]])
  /\ outcome [Arrive 0 0; Fetch 0 0; Sweep; Arrive 1 1; Fetch 1 2;
              Publish 0 3; Publish 1 4]
     = Some (["a.example:1:1"; "a.example:1:1"], [[1]; [2]]).
Proof. vm_compute. split; reflexivity. Qed.

(** ** Coalesced queries *)

Section Coalescing.

Variable E : Env.

(** Whatever happens upstream, the leader writes exactly one message to
    its own client, carrying the identifier and the question section of
    its query; every waiter collected is handed that same message, none
    is left with a closed channel; the pending request is taken out of the
    registry.  A follower that receives the message writes it to its own
    client under its own identifier and question section, and with
    nothing else changed. *)
Theorem handleFirstRequest_answers_all (s : DNSServer)
    (pending : gmap string (list nat)) (waiters : list nat) (w : ResponseWriter)
    (r : Msg) (domain key : string) (now later : Z) (dc : gmap string string) :
  let led := fst (handleFirstRequest E s pending waiters w r domain key now later dc) in
  exists m,
    written (led_handled led) = [m]
    /\ Id m = Id r /\ Question m = Question r
    /\ led_deliveries led = map (fun waiter => Deliver waiter m) waiters
    /\ led_pending led = delete key pending
    /\ forall s' w' r' now' later' dc',
         written (fst (fst (waitForPendingRequest E s' w' r'
                              (Received (Some m)) now' later' dc')))
         = [set_Question (Question r') (set_Id (Id r') m)].
Proof.
  intros led. subst led. unfold handleFirstRequest, bind.
  destruct (getCachedResponse s r [] now dc) as [[cached|] dc1].
  - cbn [fst ret led_handled led_deliveries led_pending sendResponse WriteMsg written].
    eexists. split; [reflexivity|]. repeat split.
  - destruct (forwardDirectInternal E s r domain dc1) as [[resp s1] dc2].
    destruct resp as [resp|];
      destruct (setCachedResponse E s1 r _ later dc2) as [put dc3];
      cbn [fst ret led_handled led_deliveries led_pending sendResponse WriteMsg written];
      (eexists; split; [reflexivity|]; repeat split).
Qed.

Lemma setCachedResponse_config (s : DNSServer) (r : Msg) (resp : option Msg)
    (now : Z) (dc : gmap string string) :
  config (fst (fst (setCachedResponse E s r resp now dc))) = config s.
Proof.
  pose proof (setCachedResponse_cases E s r resp now dc) as Hc. cbv zeta in Hc.
  destruct Hc as [[_ ->]|(resp' & key & ttl & _ & _ & _ & _ & _ & ->)]; [reflexivity|].
  destruct ((0 <? maxCacheSize s) && (maxCacheSize s <=? Z.of_nat (size (cache s))));
    [|reflexivity].
  destruct (evictOldestCacheEntry_fields E s now) as [c ->]. reflexivity.
Qed.

(** Storing the NXDOMAIN answer made for a query: it passes validation
    against the query, it is stored under the query's key for the
    configured negative lifetime, and the interning map is the one the key
    was computed with. *)
Lemma setCachedResponse_nxdomain (s : DNSServer) (r : Msg) (q : DNSQuestion)
    (rest : list DNSQuestion) (later : Z) (dc : gmap string string) :
  Question r = q :: rest ->
  1 <= NegativeCacheTTL (config s) ->
  let res := setCachedResponse E s r (Some (createNXDOMAINResponse r)) later dc in
  let key := fst (getCacheKey r dc) in
  snd res = snd (getCacheKey r dc)
  /\ getCacheKey r (snd res) = (key, snd res)
  /\ key <> ""
  /\ snd (fst res) = Stored key (NegativeCacheTTL (config s))
  /\ cache (fst (fst res)) !! key
     = Some (mkCacheEntry (createNXDOMAINResponse r)
               (Time_Add later (Duration_seconds (NegativeCacheTTL (config s))))).
Proof.
  intros Hq Hneg res key. subst res key.
  destruct (createNXDOMAINResponse_fields r q rest Hq) as (Hrc & _ & _ & _ & Hnq & _).
  assert (Hns : Ns (createNXDOMAINResponse r) = []).
  { unfold createNXDOMAINResponse, SetRcode, SetReply. rewrite Hq.
    repeat match goal with |- context [if ?b then _ else _] => destruct b end;
      reflexivity. }
  pose proof (getCacheKey_empty_iff r dc) as Hiff.
  unfold setCachedResponse, bind.
  assert (Hkey : exists n dc1, normalizeDomain (Name q) dc = (n, dc1)
                               /\ getCacheKey r dc
                                  = ((n ++ ":" ++ pretty (Qtype q) ++ ":"
                                        ++ pretty (Qclass q))%string, dc1)).
  { unfold getCacheKey, bind. rewrite Hq.
    destruct (normalizeDomain (Name q) dc) as [n dc1]. now exists n, dc1. }
  destruct Hkey as (n & dc1 & Hn & Hkey). rewrite Hkey in *. cbn [fst snd] in *.
  pose proof (normalizeDomain_repeat _ _ _ _ Hn) as Hn1.
  assert (Hne : (n ++ ":" ++ pretty (Qtype q) ++ ":" ++ pretty (Qclass q))%string <> "").
  { intros Hk. rewrite Hq in Hiff. now apply Hiff in Hk. }
  pose proof Hne as Hne'. apply String.eqb_neq in Hne'. rewrite Hne'.
  assert (Hval : validateResponse (Some r) (Some (createNXDOMAINResponse r)) dc1
                 = (true, dc1)).
  { unfold validateResponse, bind. rewrite Hnq, Hq, Hn1, Hn1.
    now rewrite String.eqb_refl, !Z.eqb_refl. }
  rewrite Hval. cbn [negb].
  assert (Hisneg : isNegativeResponse (Some (createNXDOMAINResponse r)) = true).
  { unfold isNegativeResponse. now rewrite Hrc. }
  rewrite Hisneg.
  assert (Hlog : forall ttl, logCachedNegative (createNXDOMAINResponse r) r ttl dc1
                             = (tt, dc1)).
  { intros ttl. unfold logCachedNegative, bind. now rewrite Hq, Hn1. }
  assert (Hsnd : snd (cacheNegativeResponse E s r (createNXDOMAINResponse r)
                        (n ++ ":" ++ pretty (Qtype q) ++ ":" ++ pretty (Qclass q))
                        later dc1) = dc1).
  { unfold cacheNegativeResponse.
    destruct (NegativeCacheTTL (config s) <=? 0); [reflexivity|]. cbv zeta.
    destruct (negativeTTLOf _ _ <? 1); [reflexivity|].
    unfold bind. now rewrite Hlog. }
  rewrite Hsnd. split; [reflexivity|].
  split.
  { unfold getCacheKey, bind. now rewrite Hq, Hn1. }
  split; [exact Hne|].
  destruct (cacheNegativeResponse_stores E s r (createNXDOMAINResponse r)
              (n ++ ":" ++ pretty (Qtype q) ++ ":" ++ pretty (Qclass q))
              later dc1) as [_ Hst].
  destruct (Hst Hneg) as (ttl & Hout & Hentry & _ & _ & Hnone).
  rewrite Hns in Hnone. specialize (Hnone eq_refl). cbn in Hnone. subst ttl.
  split; [exact Hout | exact Hentry].
Qed.

(** When no name server yields a valid answer, the leader answers NXDOMAIN
    with the AA bit set, and, with negative caching on, stores that answer
    under the query's key for the configured negative lifetime: until
    then the same query is answered NXDOMAIN from the cache, to any
    client, without a name server being asked again. *)
Theorem handleFirstRequest_upstream_failure (s : DNSServer)
    (pending : gmap string (list nat)) (waiters : list nat) (w : ResponseWriter)
    (r : Msg) (domain key : string) (now later : Z) (dc : gmap string string) :
  Question r <> [] ->
  1 <= NegativeCacheTTL (config s) ->
  fst (getCachedResponse s r [] now dc) = None ->
  fst (fst (forwardDirectInternal E s r domain
              (snd (getCachedResponse s r [] now dc)))) = None ->
  let res := handleFirstRequest E s pending waiters w r domain key now later dc in
  (exists m, written (led_handled (fst res)) = [m]
             /\ Rcode m = RcodeNameError /\ Authoritative m = true
             /\ Answer m = [] /\ Id m = Id r /\ Question m = Question r)
  /\ forall (c : net.IP) (t : Z),
       t <= Time_Add later (Duration_seconds (NegativeCacheTTL (config s))) ->
       exists m, fst (getCachedResponse (led_server (fst res)) r c t (snd res)) = Some m
                 /\ Rcode m = RcodeNameError /\ Authoritative m = true
                 /\ Answer m = [] /\ Id m = Id r /\ Question m = Question r.
Proof.
  intros Hq Hneg Hmiss Hfail res. subst res.
  destruct (Question r) as [|q rest] eqn:HQ; [congruence|]. clear Hq.
  destruct (createNXDOMAINResponse_fields r q rest HQ)
    as (Hrc & Haa & _ & Hid & _ & Hans).
  unfold handleFirstRequest, bind.
  destruct (getCachedResponse s r [] now dc) as [cached dc1]. cbn [fst snd] in *.
  subst cached.
  pose proof (forwardDirectInternal_frame E s r domain dc1) as Hframe.
  assert (Hcfg : config (snd (fst (forwardDirectInternal E s r domain dc1))) = config s).
  { unfold forwardDirectInternal.
    destruct (Nat.eqb (length (nameservers s)) 0); [reflexivity|].
    unfold bind. now destruct (tryNameservers _ _ _ _ _ _ dc1). }
  clear Hframe.
  destruct (forwardDirectInternal E s r domain dc1) as [[resp s1] dc2].
  cbn [fst snd] in *. subst resp.
  assert (Hneg1 : 1 <= NegativeCacheTTL (config s1)) by now rewrite Hcfg.
  pose proof (setCachedResponse_nxdomain s1 r q rest later dc2 HQ Hneg1) as Hst.
  cbv zeta in Hst. destruct Hst as (Hdc & Hkey & Hne & _ & Hentry).
  pose proof (setCachedResponse_config s1 r (Some (createNXDOMAINResponse r)) later dc2)
    as Hcfg2.
  destruct (setCachedResponse E s1 r (Some (createNXDOMAINResponse r)) later dc2)
    as [put dc3].
  cbn [fst snd ret led_handled led_server sendResponse WriteMsg written] in *.
  rewrite Hcfg in *. split.
  - eexists. split; [reflexivity|]. rewrite HQ. now repeat split.
  - intros c t Ht. unfold getCachedResponse, bind.
    assert (Hoff : (CacheTTL (config (fst put)) <=? 0)
                   && (NegativeCacheTTL (config (fst put)) <=? 0) = false).
    { apply andb_false_iff. right. apply Z.leb_gt. rewrite Hcfg2. lia. }
    rewrite Hoff, Hkey. apply String.eqb_neq in Hne. rewrite Hne, Hentry.
    cbn [ExpiresAt Message].
    assert (Hlive : After t (Time_Add later
                               (Duration_seconds (NegativeCacheTTL (config s)))) = false)
      by (unfold After; apply Z.ltb_ge; lia).
    rewrite Hlive.
    destruct (logCacheHit _ r dc3) as [u dc4]. cbn [fst ret].
    eexists. split; [reflexivity|]. rewrite HQ. now repeat split.
Qed.

Lemma nxdomain_cached (s : DNSServer) (r : Msg) (later : Z)
    (dc : gmap string string) :
  Question r <> [] ->
  1 <= NegativeCacheTTL (config s) ->
  let res := setCachedResponse E s r (Some (createNXDOMAINResponse r)) later dc in
  forall (c : net.IP) (t : Z),
    t <= Time_Add later (Duration_seconds (NegativeCacheTTL (config s))) ->
    exists m, fst (getCachedResponse (fst (fst res)) r c t (snd res)) = Some m
              /\ Rcode m = RcodeNameError /\ Authoritative m = true
              /\ Answer m = [] /\ Id m = Id r /\ Question m = Question r.
Proof.
  intros Hq Hneg res c t Ht. subst res.
  destruct (Question r) as [|q rest] eqn:HQ; [congruence|]. clear Hq.
  destruct (createNXDOMAINResponse_fields r q rest HQ)
    as (Hrc & Haa & _ & Hid & _ & Hans).
  pose proof (setCachedResponse_nxdomain s r q rest later dc HQ Hneg) as Hst.
  cbv zeta in Hst. destruct Hst as (_ & Hkey & Hne & _ & Hentry).
  pose proof (setCachedResponse_config s r (Some (createNXDOMAINResponse r)) later dc)
    as Hcfg.
  destruct (setCachedResponse E s r (Some (createNXDOMAINResponse r)) later dc)
    as [put dc1].
  cbn [fst snd] in *. unfold getCachedResponse, bind.
  assert (Hoff : (CacheTTL (config (fst put)) <=? 0)
                 && (NegativeCacheTTL (config (fst put)) <=? 0) = false).
  { apply andb_false_iff. right. apply Z.leb_gt. rewrite Hcfg. lia. }
  rewrite Hoff, Hkey. apply String.eqb_neq in Hne. rewrite Hne, Hentry.
  cbn [ExpiresAt Message].
  assert (Hlive : After t (Time_Add later
                             (Duration_seconds (NegativeCacheTTL (config s)))) = false)
    by (unfold After; apply Z.ltb_ge; lia).
  rewrite Hlive.
  destruct (logCacheHit _ r dc1) as [u dc2]. cbn [fst ret].
  eexists. split; [reflexivity|]. rewrite HQ. now repeat split.
Qed.

(** A follower's way out.  A message on its channel is written to its
    client under the follower's own identifier and question section; a
    channel closed without a message gives SERVFAIL; in both cases the
    cache is left alone.  A follower that has waited ten seconds in vain
    and finds nothing in the cache answers NXDOMAIN with the AA bit set
    and, with negative caching on, stores that answer: the name is
    answered NXDOMAIN from the cache for the configured negative
    lifetime, even though no name server has said so. *)
Theorem waitForPendingRequest_outcomes (s : DNSServer) (w : ResponseWriter)
    (r : Msg) (now later : Z) (dc : gmap string string) :
  (forall m,
     fst (waitForPendingRequest E s w r (Received (Some m)) now later dc)
     = (WriteMsg w (set_Question (Question r) (set_Id (Id r) m))
          "Error writing response" [], s))
  /\ (exists m,
        written (fst (fst (waitForPendingRequest E s w r (Received None) now later dc)))
        = [m]
        /\ Rcode m = RcodeServerFailure /\ Id m = Id r
        /\ snd (fst (waitForPendingRequest E s w r (Received None) now later dc)) = s)
  /\ (Question r <> [] -> 1 <= NegativeCacheTTL (config s) ->
      fst (getCachedResponse s r [] now dc) = None ->
      let res := waitForPendingRequest E s w r TimedOut now later dc in
      (exists m, written (fst (fst res)) = [m]
                 /\ Rcode m = RcodeNameError /\ Authoritative m = true
                 /\ Answer m = [] /\ Id m = Id r /\ Question m = Question r)
      /\ forall (c : net.IP) (t : Z),
           t <= Time_Add later (Duration_seconds (NegativeCacheTTL (config s))) ->
           exists m, fst (getCachedResponse (snd (fst res)) r c t (snd res)) = Some m
                     /\ Rcode m = RcodeNameError /\ Authoritative m = true
                     /\ Answer m = [] /\ Id m = Id r /\ Question m = Question r).
Proof.
  split; [|split].
  - intros m. reflexivity.
  - cbn [waitForPendingRequest ret fst snd sendResponse].
    destruct (sendErrorResponse_fields w r RcodeServerFailure) as (m & Hw & Hrc & Hid & _).
    exists m. now repeat split.
  - intros Hq Hneg Hmiss res. subst res.
    cbn [waitForPendingRequest]. unfold bind.
    destruct (getCachedResponse s r [] now dc) as [cached dc1]. cbn [fst] in Hmiss.
    subst cached.
    pose proof (nxdomain_cached s r later dc1 Hq Hneg) as Hhit. cbv zeta in Hhit.
    destruct (setCachedResponse E s r (Some (createNXDOMAINResponse r)) later dc1)
      as [put dc2].
    cbn [fst snd ret sendResponse WriteMsg written] in *.
    split; [|exact Hhit].
    destruct (Question r) as [|q rest] eqn:HQ; [congruence|].
    destruct (createNXDOMAINResponse_fields r q rest HQ)
      as (Hrc & Haa & _ & Hid & _ & Hans).
    eexists. split; [reflexivity|]. now repeat split.
Qed.

End Coalescing.

Lemma handleFirstRequest_upstream_failure_witness :
  let s := Sample.server0 in
  let w := Sample.writer Sample.client192 in
  let r := Sample.query 1 "gone.example." 1 in
  let res := handleFirstRequest Sample.offline s ∅ [] w r "gone.example"
               "gone.example:1:1" 0 0 ∅ in
  Question r <> [] /\
  1 <= NegativeCacheTTL (config s) /\
  fst (getCachedResponse s r [] 0 ∅) = None /\
  fst (fst (forwardDirectInternal Sample.offline s r "gone.example"
              (snd (getCachedResponse s r [] 0 ∅)))) = None /\
  exists m, fst (getCachedResponse (led_server (fst res)) r Sample.client10
                   (299 * Second) (snd res)) = Some m
            /\ Rcode m = RcodeNameError.
Proof.
  intros s w r res.
  assert (Hq : Question r <> []) by discriminate.
  assert (Hneg : 1 <= NegativeCacheTTL (config s)) by (vm_compute; discriminate).
  assert (Hmiss : fst (getCachedResponse s r [] 0 ∅) = None) by (vm_compute; reflexivity).
  assert (Hfail : fst (fst (forwardDirectInternal Sample.offline s r "gone.example"
                              (snd (getCachedResponse s r [] 0 ∅)))) = None)
    by (vm_compute; reflexivity).
  split; [exact Hq|]. split; [exact Hneg|]. split; [exact Hmiss|]. split; [exact Hfail|].
  destruct (proj2 (handleFirstRequest_upstream_failure Sample.offline s ∅ [] w r
                     "gone.example" "gone.example:1:1" 0 0 ∅ Hq Hneg Hmiss Hfail)
              Sample.client10 (299 * Second)) as (m & Hm & Hrc & _).
  { vm_compute. discriminate. }
  exists m. split; [exact Hm | exact Hrc].
Defined.

(** ** Reading a deny list *)

Ltac norm_append :=
  repeat (rewrite append_cons in * || rewrite append_nil in *).

Section Loader.

Variable ParseIP : string -> option net.IP.

Lemma TrimSuffix_char_cons (x c : ascii) (s : string) :
  TrimSuffix (String c s) (String x "") =
  if Ascii.eqb c x && String.eqb s "" then "" else String c (TrimSuffix s (String x "")).
Proof.
  cbn [TrimSuffix].
  change (String.eqb (String c s) (String x ""))
    with (if Ascii.eqb c x then String.eqb s "" else false).
  now destruct (Ascii.eqb c x).
Qed.

Lemma TrimSuffix_char_id (x : ascii) (s : string) :
  byte_is (fun c => Ascii.eqb c x) (last_byte s) = false ->
  TrimSuffix s (String x "") = s.
Proof.
  induction s as [|c s IH]; [reflexivity|]. rewrite TrimSuffix_char_cons.
  destruct s as [|a t].
  - cbn [last_byte byte_is]. intros ->. reflexivity.
  - intros H. cbn [String.eqb]. rewrite andb_false_r. f_equal. apply IH, H.
Qed.

Lemma append_empty (a b : string) : (a ++ b)%string = "" -> b = "".
Proof. destruct a; norm_append; [easy | discriminate]. Qed.

Lemma last_byte_app (a b : string) :
  b <> "" -> last_byte (a ++ b) = last_byte b.
Proof.
  intros Hb. induction a as [|c a IH]; norm_append; [reflexivity|].
  destruct (a ++ b)%string as [|x y] eqn:Hab.
  - now apply append_empty in Hab.
  - rewrite last_byte_cons. exact IH.
Qed.

Lemma TrimSuffix_snoc (s : string) (x : ascii) :
  TrimSuffix (s ++ String x "") (String x "") = s.
Proof.
  induction s as [|c s IH]; norm_append.
  - rewrite TrimSuffix_char_cons, Ascii.eqb_refl. reflexivity.
  - rewrite TrimSuffix_char_cons, IH.
    assert (Hne : String.eqb (s ++ String x "") "" = false)
      by (destruct s; norm_append; reflexivity).
    now rewrite Hne, andb_false_r.
Qed.

Lemma no_space_TrimSuffix (s suffix : string) :
  no_space s = true -> no_space (TrimSuffix s suffix) = true.
Proof.
  induction s as [|c s IH]; cbn [TrimSuffix].
  - now destruct (String.eqb "" suffix).
  - intros H. destruct (String.eqb (String c s) suffix); [reflexivity|].
    cbn [no_space] in *. apply andb_true_iff in H as [Hc Hs].
    now rewrite Hc, IH.
Qed.

Lemma no_space_skip (n : nat) (s : string) :
  no_space s = true -> no_space (skip n s) = true.
Proof.
  revert s. induction n as [|n IH]; intros s H; [exact H|].
  destruct s as [|c s]; [reflexivity|]. cbn [skip]. apply IH.
  cbn [no_space] in H. now apply andb_true_iff in H as [_ H].
Qed.

Lemma no_space_TrimPrefix (s prefix : string) :
  no_space s = true -> no_space (TrimPrefix s prefix) = true.
Proof.
  intros H. unfold TrimPrefix. destruct (HasPrefix s prefix); [|exact H].
  now apply no_space_skip.
Qed.

Lemma TrimPrefix_id (s prefix : string) :
  HasPrefix s prefix = false -> TrimPrefix s prefix = s.
Proof. unfold TrimPrefix. now intros ->. Qed.

Lemma Fields_cons_space (c : ascii) (s : string) :
  isSpace c = true -> Fields (String c s) = Fields s.
Proof. intros H. cbn [Fields]. now rewrite H. Qed.

Lemma Fields_cons (c : ascii) (s : string) :
  isSpace c = false ->
  Fields (String c s)
  = match s with
    | EmptyString => [String c EmptyString]
    | String c' _ =>
        if isSpace c' then String c EmptyString :: Fields s
        else match Fields s with
             | f :: fs => String c f :: fs
             | [] => [String c EmptyString]
             end
    end.
Proof.
  intros H.
  change (Fields (String c s))
    with (if isSpace c then Fields s
          else match s with
               | EmptyString => [String c EmptyString]
               | String c' _ =>
                   if isSpace c' then String c EmptyString :: Fields s
                   else match Fields s with
                        | f :: fs => String c f :: fs
                        | [] => [String c EmptyString]
                        end
               end).
  now rewrite H.
Qed.

Lemma Fields_no_space (s f : string) :
  In f (Fields s) -> f <> "" /\ no_space f = true.
Proof.
  revert f. induction s as [|c s IH]; intros f Hin; [destruct Hin|].
  destruct (isSpace c) eqn:Hc.
  - rewrite Fields_cons_space in Hin by exact Hc. now apply IH.
  - rewrite Fields_cons in Hin by exact Hc.
    assert (Hone : no_space (String c "") = true) by (cbn [no_space]; now rewrite Hc).
    destruct s as [|c' t].
    + destruct Hin as [<-|[]]. split; [discriminate | exact Hone].
    + destruct (isSpace c') eqn:Hc'.
      * destruct Hin as [<-|Hin]; [split; [discriminate | exact Hone]|].
        now apply IH.
      * destruct (Fields (String c' t)) as [|f0 fs] eqn:HF.
        -- destruct Hin as [<-|[]]. split; [discriminate | exact Hone].
        -- destruct Hin as [<-|Hin].
           ++ destruct (IH f0 (or_introl eq_refl)) as [_ H0].
              split; [discriminate|]. cbn [no_space]. now rewrite Hc, H0.
           ++ apply IH. now right.
Qed.

Lemma Fields_single (s : string) :
  s <> "" -> no_space s = true -> Fields s = [s].
Proof.
  induction s as [|c s IH]; [congruence|]. intros _ H.
  cbn [no_space] in H. apply andb_true_iff in H as [Hc Hs].
  apply negb_true_iff in Hc. rewrite Fields_cons by exact Hc.
  destruct s as [|c' t]; [reflexivity|].
  pose proof Hs as Hs'. cbn [no_space] in Hs'. apply andb_true_iff in Hs' as [Hc' _].
  apply negb_true_iff in Hc'. rewrite Hc'. now rewrite IH.
Qed.

Lemma Fields_pair (a b : string) :
  a <> "" -> no_space a = true -> Fields (a ++ " " ++ b) = a :: Fields b.
Proof.
  induction a as [|c a IH]; [congruence|]. intros _ H.
  cbn [no_space] in H. apply andb_true_iff in H as [Hc Hs].
  apply negb_true_iff in Hc. norm_append. rewrite Fields_cons by exact Hc.
  destruct a as [|c' t]; norm_append.
  - change (isSpace " ") with true. cbv iota.
    now rewrite Fields_cons_space by reflexivity.
  - pose proof Hs as Hs'. cbn [no_space] in Hs'. apply andb_true_iff in Hs' as [Hc' _].
    apply negb_true_iff in Hc'. rewrite Hc'.
    assert (IH' := IH ltac:(discriminate) Hs). norm_append. now rewrite IH'.
Qed.

Lemma HasPrefix_bars_pair (a b : string) :
  a <> "" -> HasPrefix a "||" = false -> HasPrefix (a ++ " " ++ b) "||" = false.
Proof.
  intros Ha H. unfold HasPrefix in *. apply not_true_iff_false. intros Hp.
  apply not_true_iff_false in H. apply H. clear H.
  apply String.prefix_correct in Hp. apply String.prefix_correct.
  destruct a as [|c1 [|c2 t]]; [congruence| |]; norm_append; cbn in Hp |- *.
  - discriminate.
  - injection Hp as -> -> _. now destruct t.
Qed.

(** The name a deny-list line yields has no white space in it, so it is a
    single token of the line. *)
Lemma parseHostLine_no_space (line : string) :
  no_space (parseHostLine ParseIP line) = true.
Proof.
  unfold parseHostLine.
  destruct (Fields _) as [|firstPart rest] eqn:HF; [reflexivity|].
  assert (H1 : no_space firstPart = true).
  { eapply Fields_no_space. rewrite HF. now left. }
  assert (Hs : no_space (TrimSuffix (TrimSuffix (TrimPrefix firstPart "||") "^") "$")
               = true).
  { now apply no_space_TrimSuffix, no_space_TrimSuffix, no_space_TrimPrefix. }
  destruct rest as [|second rest]; [exact Hs|].
  destruct (ParseIP firstPart); [|exact Hs].
  eapply Fields_no_space. rewrite HF. right. now left.
Qed.

(** The three formats of a deny-list line.  For a name without white
    space that neither starts with two bars nor ends in a caret or a
    dollar sign: the name alone, the name in the adblock form between two
    bars and a caret, and the name after an address and a space (the
    hosts-file form) all yield the name. *)
Theorem parseHostLine_formats (name : string) :
  name <> "" ->
  no_space name = true ->
  HasPrefix name "||" = false ->
  byte_is is_caret_or_dollar (last_byte name) = false ->
  parseHostLine ParseIP name = name
  /\ parseHostLine ParseIP ("||" ++ name ++ "^") = name
  /\ forall ip, ip <> "" -> no_space ip = true -> HasPrefix ip "||" = false ->
       is_Some (ParseIP ip) ->
       parseHostLine ParseIP (ip ++ " " ++ name) = name.
Proof.
  intros Hne Hns Hbars Hlast.
  assert (Hcaret : byte_is (fun c => Ascii.eqb c "^"%char) (last_byte name) = false).
  { destruct (last_byte name) as [c|]; [|reflexivity]. cbn [byte_is] in *.
    unfold is_caret_or_dollar in Hlast. now apply orb_false_iff in Hlast as [H _]. }
  assert (Hdollar : byte_is (fun c => Ascii.eqb c "$"%char) (last_byte name) = false).
  { destruct (last_byte name) as [c|]; [|reflexivity]. cbn [byte_is] in *.
    unfold is_caret_or_dollar in Hlast. now apply orb_false_iff in Hlast as [_ H]. }
  assert (Hplain : parseHostLine ParseIP name = name).
  { unfold parseHostLine.
    rewrite (TrimPrefix_id name) by exact Hbars.
    rewrite (TrimSuffix_char_id "^" name) by exact Hcaret.
    rewrite (TrimSuffix_char_id "$" name) by exact Hdollar.
    rewrite (Fields_single name) by assumption.
    rewrite (TrimPrefix_id name) by exact Hbars.
    rewrite (TrimSuffix_char_id "^" name) by exact Hcaret.
    now rewrite (TrimSuffix_char_id "$" name) by exact Hdollar. }
  split; [exact Hplain|]. split.
  - unfold parseHostLine.
    assert (Hp : TrimPrefix ("||" ++ name ++ "^") "||" = (name ++ "^")%string).
    { norm_append. unfold TrimPrefix.
      assert (Hh : HasPrefix (String "|" (String "|" (name ++ "^"))) "||" = true)
        by (apply String.prefix_correct; cbn [String.length substring];
            now destruct (name ++ "^")%string).
      now rewrite Hh. }
    rewrite Hp, TrimSuffix_snoc.
    rewrite (TrimSuffix_char_id "$" name) by exact Hdollar.
    rewrite (Fields_single name) by assumption.
    rewrite (TrimPrefix_id name) by exact Hbars.
    rewrite (TrimSuffix_char_id "^" name) by exact Hcaret.
    now rewrite (TrimSuffix_char_id "$" name) by exact Hdollar.
  - intros ip Hip Hipns Hipbars [a Ha]. unfold parseHostLine.
    assert (Hl : last_byte (ip ++ " " ++ name) = last_byte name).
    { rewrite last_byte_app.
      - now apply (last_byte_app " " name).
      - intros H. now apply append_empty in H. }
    rewrite (TrimPrefix_id (ip ++ " " ++ name)) by now apply HasPrefix_bars_pair.
    rewrite (TrimSuffix_char_id "^" (ip ++ " " ++ name)) by now rewrite Hl.
    rewrite (TrimSuffix_char_id "$" (ip ++ " " ++ name)) by now rewrite Hl.
    rewrite (Fields_pair ip name) by assumption.
    rewrite (Fields_single name) by assumption.
    now rewrite Ha.
Qed.

Lemma isBlocked_add (s : DNSServer) (d : string) (dc : gmap string string)
    (domain : string) (c : net.IP) :
  isBlocked s domain c = true ->
  isBlocked (fst (addBlockedDomain s d None dc)) domain c = true.
Proof.
  intros H. apply isBlocked_char in H as (parent & Hp & Hrel).
  apply isBlocked_char. exists parent. split; [|exact Hrel].
  now apply blockedEntryMatches_add.
Qed.

Lemma processLines_app (s : DNSServer) (l1 l2 : list string)
    (restrictions : option BlockEntry.t) (n : Z) (dc : gmap string string) :
  processLines ParseIP s (l1 ++ l2) restrictions n dc
  = processLines ParseIP (fst (fst (processLines ParseIP s l1 restrictions n dc))) l2
      restrictions (snd (fst (processLines ParseIP s l1 restrictions n dc)))
      (snd (processLines ParseIP s l1 restrictions n dc)).
Proof.
  revert s n dc. induction l1 as [|text l1 IH]; intros s n dc; [reflexivity|].
  cbn [app processLines].
  destruct (String.eqb (TrimSpace text) "" || HasPrefix (TrimSpace text) "#");
    [apply IH|].
  destruct (negb (String.eqb (parseHostLine ParseIP (TrimSpace text)) ""));
    [|apply IH].
  unfold bind. destruct (addBlockedDomain s _ restrictions dc) as [s1 dc1]. apply IH.
Qed.

Lemma processLines_keeps (s : DNSServer) (lines : list string) (n : Z)
    (dc : gmap string string) (domain : string) (c : net.IP) :
  isBlocked s domain c = true ->
  isBlocked (fst (fst (processLines ParseIP s lines None n dc))) domain c = true.
Proof.
  revert s n dc. induction lines as [|text lines IH]; intros s n dc H; [exact H|].
  cbn [processLines].
  destruct (String.eqb (TrimSpace text) "" || HasPrefix (TrimSpace text) "#");
    [now apply IH|].
  destruct (negb (String.eqb (parseHostLine ParseIP (TrimSpace text)) ""));
    [|now apply IH].
  unfold bind.
  pose proof (isBlocked_add s (parseHostLine ParseIP (TrimSpace text)) dc domain c H)
    as H1.
  destruct (addBlockedDomain s _ None dc) as [s1 dc1]. now apply IH.
Qed.

Lemma processLines_count (s : DNSServer) (lines : list string)
    (restrictions : option BlockEntry.t) (n : Z) (dc : gmap string string) :
  n <= snd (fst (processLines ParseIP s lines restrictions n dc))
    <= n + Z.of_nat (length lines).
Proof.
  revert s n dc. induction lines as [|text lines IH]; intros s n dc.
  - cbn. lia.
  - cbn [processLines length].
    destruct (String.eqb (TrimSpace text) "" || HasPrefix (TrimSpace text) "#").
    { specialize (IH s n dc). lia. }
    destruct (negb (String.eqb (parseHostLine ParseIP (TrimSpace text)) "")).
    2:{ specialize (IH s n dc). lia. }
    unfold bind. destruct (addBlockedDomain s _ restrictions dc) as [s1 dc1].
    specialize (IH s1 (n + 1) dc1). lia.
Qed.

(** A line of an unrestricted deny list that is neither blank nor a
    comment and yields a name denies that name, in the normal form it has
    when the line is read, and everything below it to every client,
    whatever the lines after it say; a name denied before the list is read
    stays denied; and the count of loaded names is at most the number of
    lines. *)
Theorem processBlockListReader_denies (s : DNSServer) (before after : list string)
    (text : string) (dc : gmap string string) :
  let line := TrimSpace text in
  let d := parseHostLine ParseIP line in
  line <> "" -> HasPrefix line "#" = false -> d <> "" ->
  let sofar := processBlockListReader ParseIP s before None dc in
  let key := fst (normalizeDomain d (snd sofar)) in
  let res := processBlockListReader ParseIP s (before ++ text :: after) None dc in
  (forall c, isBlocked (fst (fst res)) key c = true)
  /\ (key <> "" -> forall prefix c,
        isBlocked (fst (fst res)) (prefix ++ "." ++ key) c = true)
  /\ (interned_ok (snd sofar) -> key = normalize d)
  /\ (forall domain c, isBlocked s domain c = true ->
        isBlocked (fst (fst res)) domain c = true)
  /\ 0 <= snd (fst res) <= Z.of_nat (length (before ++ text :: after)).
Proof.
  intros line d Hline Hcomment Hd sofar key res.
  assert (Hres : exists n dc1,
             res = processLines ParseIP
                     (fst (addBlockedDomain (fst (fst sofar)) d None (snd sofar)))
                     after None n dc1).
  { subst res sofar. unfold processBlockListReader. rewrite processLines_app.
    cbn [processLines]. fold line. fold d.
    apply String.eqb_neq in Hline. rewrite Hline, Hcomment. cbn [orb].
    apply String.eqb_neq in Hd. rewrite Hd. cbn [negb]. unfold bind.
    destruct (addBlockedDomain _ d None _) as [s1 dc1]. cbn [fst]. eauto. }
  destruct Hres as (n & dc1 & Hres).
  assert (Hkey : forall c,
             blockedEntryMatches
               (fst (addBlockedDomain (fst (fst sofar)) d None (snd sofar))) key c = true).
  { intros c. subst key. unfold addBlockedDomain, bind.
    destruct (normalizeDomain d (snd sofar)) as [k dck]. cbn [fst ret].
    unfold blockedEntryMatches, set_blocked. cbn [blocked].
    now rewrite lookup_insert_eq. }
  split; [|split; [|split; [|split]]].
  - intros c. rewrite Hres. apply processLines_keeps, isBlocked_char.
    exists key. split; [apply Hkey | now left].
  - intros Hne prefix c. rewrite Hres. apply processLines_keeps, isBlocked_char.
    exists key. split; [apply Hkey|]. right. split; [exact Hne | now exists prefix].
  - intros Hok. subst key. now apply normalizeDomain_interned.
  - intros domain c H. rewrite Hres. apply processLines_keeps, isBlocked_add.
    subst sofar. unfold processBlockListReader. now apply processLines_keeps.
  - subst res. unfold processBlockListReader.
    pose proof (processLines_count s (before ++ text :: after) None 0 dc). lia.
Qed.

End Loader.

Lemma parseHostLine_formats_witness :
  parseHostLine Sample.parseIP "ads.example" = "ads.example"
  /\ parseHostLine Sample.parseIP "||ads.example^" = "ads.example"
  /\ parseHostLine Sample.parseIP "0.0.0.0 ads.example" = "ads.example".
Proof.
  destruct (parseHostLine_formats Sample.parseIP "ads.example") as (H1 & H2 & H3);
    [discriminate | reflexivity | reflexivity | reflexivity |].
  split; [exact H1|]. split; [exact H2|].
  apply (H3 "0.0.0.0"); [discriminate | reflexivity | reflexivity | now eexists].
Defined.

Lemma processBlockListReader_denies_witness :
  let lines := ["# deny list"; "0.0.0.0 tracker.example"; "  ||Ads.Example^ "; ""] in
  isBlocked (fst (fst (processBlockListReader Sample.parseIP Sample.server4 lines
                         None ∅)))
    "ads.example" Sample.client192 = true.
Proof.
  intros lines.
  exact (proj1 (processBlockListReader_denies Sample.parseIP Sample.server4
                  ["# deny list"; "0.0.0.0 tracker.example"] [""]
                  "  ||Ads.Example^ " ∅
                  ltac:(vm_compute; discriminate) ltac:(vm_compute; reflexivity)
                  ltac:(vm_compute; discriminate)) Sample.client192).
Defined.

(** ** The configuration file *)

Section Configuration.

Variable E : Env.
Variable LookupPort : string -> option Z.

Lemma parseNameserverFromMap_eq (val : gmap string YamlValue) :
  let addr := match val !! "address" with Some (YamlString a) => a | _ => "" end in
  let proto :=
    match val !! "protocol" with Some (YamlString p) => ToLower p | _ => protocolUDP end in
  let port :=
    match val !! "port" with
    | Some (YamlInt p) => p
    | Some (YamlString t) => default 53 (LookupPort t)
    | _ => 53
    end in
  parseNameserverFromMap LookupPort val
  = mkNameserver addr proto
      (if port =? 53
       then if String.eqb proto protocolDOT then 853
            else if String.eqb proto protocolDOH then 443 else port
       else port).
Proof.
  unfold parseNameserverFromMap.
  destruct (val !! "address") as [[a| |]|];
    destruct (val !! "protocol") as [[p| |]|];
    destruct (val !! "port") as [[t|n|]|];
    try destruct (LookupPort t) as [q|];
    cbv [Address Protocol Port default from_option id];
    repeat match goal with
      | |- context [if ?b then _ else _] => destruct b
      end; reflexivity.
Qed.

(** What a name server given as a map of the configuration file becomes.
    The protocol is the configured one in lower case, UDP when none is
    given; a server of protocol DoT or DoH is never left on port 53, not
    even when that port is configured explicitly: it is moved to 853 or
    443; any other protocol keeps the configured port, 53 when none is
    given. *)
Theorem parseNameserverFromMap_ports (val : gmap string YamlValue) :
  let ns := parseNameserverFromMap LookupPort val in
  let port :=
    match val !! "port" with
    | Some (YamlInt p) => p
    | Some (YamlString t) => default 53 (LookupPort t)
    | _ => 53
    end in
  Protocol ns
  = match val !! "protocol" with Some (YamlString p) => ToLower p | _ => protocolUDP end
  /\ lowercase (Protocol ns) = true
  /\ (Protocol ns = protocolDOT \/ Protocol ns = protocolDOH -> Port ns <> 53)
  /\ (Protocol ns = protocolDOT -> Port ns = if port =? 53 then 853 else port)
  /\ (Protocol ns = protocolDOH -> Port ns = if port =? 53 then 443 else port)
  /\ (Protocol ns <> protocolDOT -> Protocol ns <> protocolDOH -> Port ns = port).
Proof.
  intros ns port. subst ns. rewrite parseNameserverFromMap_eq. cbv zeta.
  fold port. cbn [Protocol Port].
  set (proto := match val !! "protocol" with
                | Some (YamlString p) => ToLower p
                | _ => protocolUDP
                end).
  assert (Hlow : lowercase proto = true).
  { subst proto. destruct (val !! "protocol") as [[p| |]|];
      try reflexivity. apply lowercase_ToLower. }
  split; [reflexivity|]. split; [exact Hlow|].
  destruct (String.eqb_spec proto protocolDOT) as [Hdot|Hdot];
    destruct (String.eqb_spec proto protocolDOH) as [Hdoh|Hdoh];
    destruct (Z.eqb_spec port 53) as [Hp|Hp];
    try (exfalso; unfold protocolDOT, protocolDOH in *; congruence);
    repeat split; try congruence; try (intros; lia); try (intros [?|?]; congruence).
Qed.

(** From the configuration file to the wire.  A name server configured
    with protocol DoT, in any spelling of upper and lower case, and with
    no port or port 53, is asked over TLS on port 853, with its address as
    the TLS server name.  A protocol that is none of DoH, DoT and TCP is
    not refused: the server is asked over plain UDP on its port, and a
    truncated answer from it is retried over TCP. *)
Theorem parseNameserverFromMap_transport (val : gmap string YamlValue)
    (addr proto : string) (r : Msg) :
  val !! "address" = Some (YamlString addr) ->
  val !! "protocol" = Some (YamlString proto) ->
  let ns := parseNameserverFromMap LookupPort val in
  let address := net.JoinHostPort (Address ns) (pretty (Port ns)) in
  (ToLower proto = protocolDOT ->
   val !! "port" = None \/ val !! "port" = Some (YamlInt 53) ->
   forwardToNameserver E r ns address
   = Exchange E (mkClient "tcp-tls" 5 (Some addr)) r (net.JoinHostPort addr "853"))
  /\ (ToLower proto <> protocolDOH -> ToLower proto <> protocolDOT ->
      ToLower proto <> protocolTCP ->
      forwardToNameserver E r ns address
      = Exchange E serverClient r (net.JoinHostPort addr (pretty (Port ns)))
      /\ isTCPBasedProtocol (Protocol ns) = false).
Proof.
  intros Haddr Hproto ns address. subst address ns.
  rewrite parseNameserverFromMap_eq. cbv zeta. rewrite Haddr, Hproto.
  cbn [Address Protocol Port]. split.
  - intros Hdot Hport. rewrite Hdot.
    assert (Hp : match val !! "port" with
                 | Some (YamlInt p) => p
                 | Some (YamlString t) => default 53 (LookupPort t)
                 | _ => 53
                 end = 53) by (destruct Hport as [-> | ->]; reflexivity).
    rewrite Hp. reflexivity.
  - intros Hdoh Hdot Htcp.
    apply String.eqb_neq in Hdoh, Hdot, Htcp.
    unfold forwardToNameserver, isTCPBasedProtocol. cbn [Address Protocol Port].
    rewrite Hdoh, Hdot, Htcp.
    destruct (_ =? 53); split; reflexivity.
Qed.

Lemma parseOverwritesFrom_spec (entries : list (string * OverwriteValue))
    (acc : gmap string OverwriteEntry.t) (dc : gmap string string) :
  (is_Some (fst (parseOverwritesFrom entries acc dc))
   <-> forallb (fun kv => acceptable (snd kv)) entries = true)
  /\ forall result, fst (parseOverwritesFrom entries acc dc) = Some result ->
       forall k e, result !! k = Some e ->
         acc !! k = Some e
         \/ (OverwriteEntry.IP e <> ""
             /\ exists domain,
                  In (domain, YString (OverwriteEntry.IP e)) entries
                  /\ e = OverwriteEntry.mk (OverwriteEntry.IP e) [] []
                  \/ In (domain, YMap (Some e)) entries).
Proof.
  revert acc dc. induction entries as [|[domain value] rest IH]; intros acc dc.
  - cbn. split; [split; eauto|]. intros result [= <-] k e H. now left.
  - cbn [parseOverwritesFrom forallb snd acceptable].
    destruct value as [|v|[e0|]|].
    + destruct (IH acc dc) as [Hiff Hres]. split; [exact Hiff|].
      intros result Hr k e He. destruct (Hres result Hr k e He) as [H|(Hip & d & H)];
        [now left|]. right. split; [exact Hip|]. exists d.
      destruct H as [[H1 H2]|H]; [left; split; [now right | exact H2] | right; now right].
    + cbn [OverwriteEntry.IP acceptable].
      destruct (String.eqb v "") eqn:Hv; cbn [negb andb].
      { split; [split; [intros [x Hx]; discriminate | discriminate]|]. discriminate. }
      unfold bind. destruct (normalizeDomain domain dc) as [key dc1].
      destruct (IH (<[key := OverwriteEntry.mk v [] []]> acc) dc1) as [Hiff Hres].
      split; [exact Hiff|].
      intros result Hr k e He. destruct (Hres result Hr k e He) as [H|(Hip & d & H)].
      * destruct (decide (key = k)) as [->|Hne].
        -- rewrite lookup_insert_eq in H. injection H as <-. right.
           cbn [OverwriteEntry.IP]. split; [now apply String.eqb_neq|].
           exists domain. left. split; [now left | reflexivity].
        -- rewrite lookup_insert_ne in H by exact Hne. now left.
      * right. split; [exact Hip|]. exists d.
        destruct H as [[H1 H2]|H]; [left; split; [now right | exact H2] | right; now right].
    + cbn [acceptable].
      destruct (String.eqb (OverwriteEntry.IP e0) "") eqn:Hv; cbn [negb andb].
      { split; [split; [intros [x Hx]; discriminate | discriminate]|]. discriminate. }
      unfold bind. destruct (normalizeDomain domain dc) as [key dc1].
      destruct (IH (<[key := e0]> acc) dc1) as [Hiff Hres].
      split; [exact Hiff|].
      intros result Hr k e He. destruct (Hres result Hr k e He) as [H|(Hip & d & H)].
      * destruct (decide (key = k)) as [->|Hne].
        -- rewrite lookup_insert_eq in H. injection H as <-. right.
           split; [now apply String.eqb_neq|].
           exists domain. right. now left.
        -- rewrite lookup_insert_ne in H by exact Hne. now left.
      * right. split; [exact Hip|]. exists d.
        destruct H as [[H1 H2]|H]; [left; split; [now right | exact H2] | right; now right].
    + cbn [acceptable andb].
      split; [split; [intros [x Hx]; discriminate | discriminate]|]. discriminate.
    + cbn [acceptable andb].
      split; [split; [intros [x Hx]; discriminate | discriminate]|]. discriminate.
Qed.

(** The overrides of the configuration file are accepted as a whole or
    not at all: they are accepted exactly when every value is nil, a
    non-empty string, or a map that parses to an entry with a non-empty
    first address.  Every override of an accepted configuration has a
    non-empty address and stems from an entry of the file: a plain string
    gives an override for every client. *)
Theorem parseOverwrites_accepts (entries : list (string * OverwriteValue))
    (dc : gmap string string) :
  (is_Some (fst (parseOverwrites entries dc))
   <-> forallb (fun kv => acceptable (snd kv)) entries = true)
  /\ forall result, fst (parseOverwrites entries dc) = Some result ->
       forall k e, result !! k = Some e ->
         OverwriteEntry.IP e <> ""
         /\ exists domain,
              In (domain, YString (OverwriteEntry.IP e)) entries
              /\ e = OverwriteEntry.mk (OverwriteEntry.IP e) [] []
              \/ In (domain, YMap (Some e)) entries.
Proof.
  unfold parseOverwrites. destruct (parseOverwritesFrom_spec entries ∅ dc) as [Hiff Hres].
  split; [exact Hiff|]. intros result Hr k e He.
  destruct (Hres result Hr k e He) as [H|H]; [|exact H].
  now rewrite lookup_empty in H.
Qed.

End Configuration.

Lemma parseNameserverFromMap_transport_witness :
  let val : gmap string YamlValue :=
    {[ "address" := YamlString "9.9.9.9"; "protocol" := YamlString "DoT" ]} in
  let ns := parseNameserverFromMap (fun _ => None) val in
  let r := Sample.query 1 "a.example." 1 in
  val !! "address" = Some (YamlString "9.9.9.9")
  /\ val !! "protocol" = Some (YamlString "DoT")
  /\ forwardToNameserver Sample.offline r ns
       (net.JoinHostPort (Address ns) (pretty (Port ns)))
     = Exchange Sample.offline (mkClient "tcp-tls" 5 (Some "9.9.9.9")) r
         (net.JoinHostPort "9.9.9.9" "853").
Proof.
  intros val ns r.
  assert (Haddr : val !! "address" = Some (YamlString "9.9.9.9"))
    by (vm_compute; reflexivity).
  assert (Hproto : val !! "protocol" = Some (YamlString "DoT"))
    by (vm_compute; reflexivity).
  split; [exact Haddr|]. split; [exact Hproto|].
  apply (proj1 (parseNameserverFromMap_transport Sample.offline (fun _ => None) val
                  "9.9.9.9" "DoT" r Haddr Hproto)).
  - reflexivity.
  - left. vm_compute. reflexivity.
Defined.
